(** * AI_Health: the realtime voice session of the chat page and the token server

  A shallow embedding of
  - [src/client/pages/chat.jsx] (the [Chat] component that is exported
    last: tool registration, the three-step choreography, the result
    cache, the silence monitor and the session lifecycle), and
  - the Fastify server ([/api-env] and [/token] routes),
  together with the properties the specification states about them. *)

From Stdlib Require Import ZArith QArith DecimalString.
From stdpp Require Import gmap strings list fin_maps.

Local Open Scope Z_scope.

(** ** JSON values

  The values [JSON.parse] produces.  Objects are finite maps from property
  names to values: the code only reads properties by name and copies them
  with the spread operator, so the enumeration order is not modelled.
  Numbers are kept to the integers.  A string is the sequence of its
  code units, one per character of the [string] (exact for the Latin-1
  range).  A string that is the ISO-8601 rendering of an instant
  ([Date.prototype.toISOString]) is kept as the instant it renders, in
  milliseconds since the epoch ([JTime]); [toISOString] gives its text. *)
Module Json.

#[warnings="-register-all"]
Inductive json :=
| JNull
| JBool (b : bool)
| JNum (n : Z)
| JStr (s : string)
| JTime (ms : Z)
| JArr (items : list json)
| JObj (fields : gmap string json).

(** JavaScript truthiness of a parsed value. *)
Definition truthy (v : json) : bool :=
  match v with
  | JNull => false
  | JBool b => b
  | JNum n => negb (n =? 0)
  | JStr s => negb (String.eqb s "")
  | JTime _ => true
  | JArr _ => true
  | JObj _ => true
  end.

(** [v.k] for a property name [k] that no prototype defines
    ([client_secret], [value], [timestamp], ...): [None] is [undefined]. *)
Definition prop (k : string) (v : json) : option json :=
  match v with
  | JObj fields => fields !! k
  | _ => None
  end.

Definition is_null (v : json) : bool :=
  match v with
  | JNull => true
  | _ => false
  end.

(** The decimal numeral of a natural number. *)
Definition numeral (n : Z) : string := NilZero.string_of_uint (N.to_uint (Z.to_N n)).

(** The numeral, padded with zeros on the left to [width] digits. *)
Definition padded (width : nat) (n : Z) : string :=
  let digits := numeral n in
  String.concat "" (replicate (width - String.length digits) "0") +:+ digits.

(** The date of the proleptic Gregorian calendar that is [days] days after
    1970-01-01: year, month, day. *)
Definition civil_from_days (days : Z) : Z * Z * Z :=
  let z := days + 719468 in
  let era := z / 146097 in
  let doe := z - era * 146097 in
  let yoe := (doe - doe / 1460 + doe / 36524 - doe / 146096) / 365 in
  let doy := doe - (365 * yoe + yoe / 4 - yoe / 100) in
  let mp := (5 * doy + 2) / 153 in
  let d := doy - (153 * mp + 2) / 5 + 1 in
  let m := if mp <? 10 then mp + 3 else mp - 9 in
  let y := yoe + era * 400 + (if m <=? 2 then 1 else 0) in
  (y, m, d).

(** [new Date(ms).toISOString()], for an instant in the range of [Date]:
    [YYYY-MM-DDTHH:mm:ss.sssZ], the year with a sign and six digits when
    it is not within 0 to 9999. *)
Definition toISOString (ms : Z) : string :=
  let days := ms / 86400000 in
  let rest := ms mod 86400000 in
  let '(y, m, d) := civil_from_days days in
  let year := if (0 <=? y) && (y <=? 9999) then padded 4 y
              else (if y <? 0 then "-" else "+") +:+ padded 6 (Z.abs y) in
  year +:+ "-" +:+ padded 2 m +:+ "-" +:+ padded 2 d
  +:+ "T" +:+ padded 2 (rest / 3600000) +:+ ":" +:+ padded 2 (rest / 60000 mod 60)
  +:+ ":" +:+ padded 2 (rest / 1000 mod 60) +:+ "." +:+ padded 3 (rest mod 1000) +:+ "Z".

(** The properties of an array-like value: one per index, named by the
    numeral of the index. *)
Definition index_props (items : list json) : gmap string json :=
  list_to_map (imap (fun i item => (numeral (Z.of_nat i), item)) items).

(** The code units of a string, each as a string of its own: the
    characters of an ASCII text.  (A character outside ASCII is held
    here as the bytes of its UTF-8 encoding, which are not its UTF-16
    code units.) *)
Definition code_units (s : string) : list json :=
  (fun c => JStr (String c EmptyString)) <$> String.list_ascii_of_string s.

(** The own enumerable properties of a value: what [{...v}] copies.  An
    object has its fields, an array and a string their index properties;
    [null], booleans and numbers have none. *)
Definition own_props (v : json) : gmap string json :=
  match v with
  | JObj fields => fields
  | JArr items => index_props items
  | JStr s => index_props (code_units s)
  | JTime ms => index_props (code_units (toISOString ms))
  | JNull | JBool _ | JNum _ => ∅
  end.

End Json.
Export Json.

(** ** The server: [/api-env] and [/token] *)
Module Server.

(** A Fastify request, as far as a handler could look at it. *)
Record request := {
  req_headers : list (string * string);
  req_query : list (string * string)
}.

(** What a route answers. *)
Record reply := {
  status : Z;
  content_type : string;
  body : json
}.

(** [process.env.NAME]. *)
Definition getenv (env : gmap string string) (name : string) : option json :=
  JStr <$> env !! name.

(** An object literal, serialised: properties whose value is [undefined]
    are left out by [JSON.stringify]. *)
Fixpoint object_literal (props : list (string * option json)) : gmap string json :=
  match props with
  | [] => ∅
  | (k, Some v) :: rest => <[k := v]> (object_literal rest)
  | (_, None) :: rest => object_literal rest
  end.

(** [server.get("/api-env", async (request, reply) => { return {...} })]. *)
Definition api_env (env : gmap string string) (request : request) : reply :=
  {| status := 200;
     content_type := "application/json";
     body := JObj (object_literal
                     [("OPENAI_API_KEY", getenv env "OPENAI_API_KEY");
                      ("NODE_ENV", getenv env "NODE_ENV");
                      ("PORT", getenv env "PORT")]) |}.

(** An awaited call either returns or throws. *)
Inductive outcome (A : Type) :=
| Returned (a : A)
| Thrown (error : string).
Arguments Returned {A} a.
Arguments Thrown {A} error.

(** The request [/token] makes upstream. *)
Record upstream_request := {
  url : string;
  method : string;
  authorization : string;
  request_content_type : string;
  request_body : json
}.

(** The upstream answer: its status and its body ([None] when reading the
    body fails). *)
Record upstream_response := {
  up_status : Z;
  up_body : option json
}.

Definition sessions_request (env : gmap string string) (config : json) : upstream_request :=
  {| url := "https://api.openai.com/v1/realtime/sessions";
     method := "POST";
     authorization := "Bearer " +:+ default "undefined" (env !! "OPENAI_API_KEY");
     request_content_type := "application/json";
     request_body := config |}.

(** [server.get("/token", ...)].  [generateInstructions] comes from
    [instructionConfig.js] and [fetch] from the runtime: both are taken as
    parameters, each returning or throwing.  The [catch] block logs and
    rethrows. *)
Definition token (generateInstructions : outcome json)
    (fetch : upstream_request -> outcome upstream_response)
    (env : gmap string string) (request : request) : outcome reply :=
  match generateInstructions with
  | Thrown e => Thrown e
  | Returned config =>
      match fetch (sessions_request env config) with
      | Thrown e => Thrown e
      | Returned r =>
          match up_body r with
          | None => Thrown "body stream error"
          | Some bodyText =>
              Returned {| status := 200;
                          content_type := "application/json";
                          body := bodyText |}
          end
      end
  end.

(** A 2xx status. *)
Definition success (st : Z) : bool := (200 <=? st) && (st <? 300).

End Server.

(** ** The silence monitor armed after the final confirmation *)
Module Silence.

Definition fftSize : Z := 256.
Definition frequencyBinCount : nat := Z.to_nat (fftSize / 2).
Definition SILENCE_THRESHOLD : Q := 10 # 1.
Definition SILENCE_DURATION : Z := 2000.

(** One run of [checkAudioLevel]: the reading of [Date.now()] and the
    bytes [getByteFrequencyData] wrote into [dataArray]. *)
Record frame := {
  now : Z;
  dataArray : list Z
}.

(** [dataArray.reduce((a, b) => a + b)]: without an initial value the
    first element starts the sum, and an empty array is a [TypeError]. *)
Definition reduce_add (d : list Z) : option Z :=
  match d with
  | [] => None
  | x :: rest => Some (fold_left Z.add rest x)
  end.

(** [reduce(...) / dataArray.length].  The quotient is exact in the
    rationals; for the 128 bytes of the analyser it is exact in the
    floating-point numbers of the code as well. *)
Definition average (d : list Z) : option Q :=
  match reduce_add d with
  | None => None
  | Some sum => Some (inject_Z sum / inject_Z (Z.of_nat (length d)))%Q
  end.

Definition Qltb (a b : Q) : bool := negb (Qle_bool b a).

(** [!silenceStart]: [null] and [0] are falsy. *)
Definition unset (silenceStart : option Z) : bool :=
  match silenceStart with
  | None => true
  | Some t => t =? 0
  end.

(** How a run of [checkAudioLevel] ends. *)
Inductive verdict :=
| Reschedule (silenceStart : option Z)   (* requestAnimationFrame(checkAudioLevel) *)
| Teardown                               (* close the context, stopSession(), leave the page *)
| TypeError.                             (* reduce of an empty array *)

Definition checkAudioLevel (silenceStart : option Z) (f : frame) : verdict :=
  match average (dataArray f) with
  | None => TypeError
  | Some avg =>
      if Qltb avg SILENCE_THRESHOLD then
        if unset silenceStart then Reschedule (Some (now f))
        else if now f - default 0 silenceStart >? SILENCE_DURATION then Teardown
        else Reschedule silenceStart
      else Reschedule None
  end.

(** The monitor between frames. *)
Inductive monitor :=
| Sampling (silenceStart : option Z)
| Stopped.

(** The monitor as armed: [let silenceStart = null]. *)
Definition armed : monitor := Sampling None.

(** What a trace of frames does to the monitor. *)
Record report := {
  final : monitor;
  teardowns : nat;       (* how often the silence callback ran *)
  sampled : nat          (* how many frames were looked at *)
}.

Fixpoint run (m : monitor) (trace : list frame) (fired seen : nat) : report :=
  match m, trace with
  | Stopped, _ => {| final := Stopped; teardowns := fired; sampled := seen |}
  | Sampling s, [] => {| final := Sampling s; teardowns := fired; sampled := seen |}
  | Sampling s, f :: rest =>
      match checkAudioLevel s f with
      | Reschedule s' => run (Sampling s') rest fired (S seen)
      | Teardown => run Stopped rest (S fired) (S seen)
      | TypeError => run Stopped rest fired (S seen)
      end
  end.

Definition monitor_run (trace : list frame) : report := run armed trace 0 0.

(** A frame whose average is below the threshold, and one whose average is
    not. *)
Definition quiet (f : frame) : Prop :=
  exists avg, average (dataArray f) = Some avg /\ Qltb avg SILENCE_THRESHOLD = true.
Definition loud (f : frame) : Prop :=
  exists avg, average (dataArray f) = Some avg /\ Qltb avg SILENCE_THRESHOLD = false.

(** A frame of the analyser filled with one byte value. *)
Definition level (t : Z) (byte : Z) : frame :=
  {| now := t; dataArray := replicate frequencyBinCount byte |}.

End Silence.

(** ** The chat page: session lifecycle, tool registration and choreography

    The component is a set of state variables and refs, event handlers
    that update them, and effects that React runs after a render when one
    of their dependencies has changed.  An effect and a timer callback see
    the state variables of the render that created them (their closure),
    but the current refs and the current browser.  The model keeps this
    apart: effects take the rendered state [snap] and the state they
    update.  Every handler is followed by the renders it causes before the
    next handler runs, and reads the clock once ([now], in milliseconds
    since the epoch). *)
Module Chat.

Inductive CONNECTION_STATUS := DISCONNECTED | CONNECTING | CONNECTED.

#[global] Instance CONNECTION_STATUS_eq_dec : EqDecision CONNECTION_STATUS.
Proof. solve_decision. Defined.

(** *** Protocol data *)

(** A tool definition: its name and the required parameters of its schema
    (descriptions and property types are presentation for the remote
    model and left out). *)
Record tool := {
  tool_type : string;
  tool_name : string;
  required : list string
}.

Definition tools : list tool :=
  [ {| tool_type := "function"; tool_name := "review_current_weekly_plan";
       required := ["user_feedback"] |};
    {| tool_type := "function"; tool_name := "adjust_exercise_plan";
       required := ["exercises"; "total_weekly_minutes"] |};
    {| tool_type := "function"; tool_name := "confirm_final_plan";
       required := ["confirmed_final_plan"; "summary"] |} ].

(** The messages the page sends on the data channel. *)
Inductive message :=
| session_update (session_tools : list tool) (tool_choice : string)
| response_create (instructions : string).

(** [const reviewCurrentPlan = { type: "session.update", session: {...} }]. *)
Definition reviewCurrentPlan : message := session_update tools "auto".

(** The three delayed callbacks of the choreography. *)
Inductive followup := discuss_adjustment | ask_confirmation | farewell_and_monitor.

#[global] Instance followup_eq_dec : EqDecision followup.
Proof. solve_decision. Defined.

(** The instruction each callback sends (the template literals without
    their surrounding white space). *)
Definition instructions_of (f : followup) : string :=
  match f with
  | discuss_adjustment => "通过讨论的方式，和用户一起来修改健身计划"
  | ask_confirmation => "和用户确认最终新的健身计划"
  | farewell_and_monitor => "发送通话结束的语音给用户"
  end.

(** An item of [response.output]; [arguments] is kept as the value
    [JSON.parse(output.arguments)] yields, so the items here are those
    whose [arguments] is JSON text. *)
Record output_item := {
  item_type : string;
  name : string;
  arguments : json
}.

(** The [response] property of an inbound event, as far as
    [event.response.output] looks at it. *)
Inductive response_value :=
| no_response                               (* absent or [null]: reading [output] throws *)
| without_output                            (* [output] is absent or falsy *)
| with_output (outputs : list output_item). (* [output] is this array *)

(** An inbound event: a JSON object with its [type] and its [response].
    The data follow the protocol in what cannot be written here: a message
    is the JSON text of an object, an [output] that is truthy is an array
    of objects, and the [arguments] of an item are a JSON text. *)
Record event := {
  type : string;
  response : response_value
}.

(** *** The page and its browser *)

(** [RTCDataChannel.readyState]. *)
Inductive readyState := connecting | open | closed.

#[global] Instance readyState_eq_dec : EqDecision readyState.
Proof. solve_decision. Defined.

(** A connection or an interval: still live, or closed / cleared. *)
Inductive liveness := live | gone.

#[global] Instance liveness_eq_dec : EqDecision liveness.
Proof. solve_decision. Defined.

(** A pending [setTimeout] callback.  Its closure holds the [dataChannel]
    of the render whose effect scheduled it. *)
Record timeout := {
  delay : Z;
  captured : option nat;
  step : followup
}.

(** What the page does to the outside, in order. *)
Inductive call :=
| fetch (url : string) (bearer : option json)
| getUserMedia
| new_RTCPeerConnection (pc : nat)
| createDataChannel (pc dc : nat)
| send (dc : nat) (msg : message) (state : readyState)
| close_channel (dc : nat)
| close_peer (pc : nat)
| setItem (key : string) (value : json)
| setTimeout (t : timeout)
| setInterval (id : nat)
| clearInterval (id : nat)
| alert (text : string)
| arm_monitor (stop_channel : option nat)
| navigate (href : string).

(** The component's state variables and refs, and the part of the browser
    it acts on.  Channels, peer connections and intervals are numbered in
    the order of their creation, from 0; the numbers of intervals stand
    for the positive handles [setInterval] returns, which are all truthy. *)
Record chat := {
  (* useState *)
  isSessionActive : CONNECTION_STATUS;
  events : list event;
  dataChannel : option nat;
  functionAdded : bool;
  functionCallOutput : option output_item;
  speakingTime : nat;
  mounted : bool;
  (* useRef *)
  peerConnection : option nat;
  intervalRef : option nat;
  (* browser *)
  localStorage : gmap string json;
  channels : list readyState;
  peers : list liveness;
  intervals : list liveness;
  timeouts : list timeout;
  log : list call
}.

(** The page as first rendered. *)
Definition initial : chat :=
  {| isSessionActive := DISCONNECTED; events := []; dataChannel := None;
     functionAdded := false; functionCallOutput := None; speakingTime := 0;
     mounted := true; peerConnection := None; intervalRef := None;
     localStorage := ∅; channels := []; peers := []; intervals := [];
     timeouts := []; log := [] |}.

(** Field updates. *)
Definition set_isSessionActive (v : CONNECTION_STATUS) (s : chat) : chat :=
  let 'Build_chat _ b c d e f g h i j k l m n o := s in Build_chat v b c d e f g h i j k l m n o.
Definition set_events (v : list event) (s : chat) : chat :=
  let 'Build_chat a _ c d e f g h i j k l m n o := s in Build_chat a v c d e f g h i j k l m n o.
Definition set_dataChannel (v : option nat) (s : chat) : chat :=
  let 'Build_chat a b _ d e f g h i j k l m n o := s in Build_chat a b v d e f g h i j k l m n o.
Definition set_functionAdded (v : bool) (s : chat) : chat :=
  let 'Build_chat a b c _ e f g h i j k l m n o := s in Build_chat a b c v e f g h i j k l m n o.
Definition set_functionCallOutput (v : option output_item) (s : chat) : chat :=
  let 'Build_chat a b c d _ f g h i j k l m n o := s in Build_chat a b c d v f g h i j k l m n o.
Definition set_speakingTime (v : nat) (s : chat) : chat :=
  let 'Build_chat a b c d e _ g h i j k l m n o := s in Build_chat a b c d e v g h i j k l m n o.
Definition set_mounted (v : bool) (s : chat) : chat :=
  let 'Build_chat a b c d e f _ h i j k l m n o := s in Build_chat a b c d e f v h i j k l m n o.
Definition set_peerConnection (v : option nat) (s : chat) : chat :=
  let 'Build_chat a b c d e f g _ i j k l m n o := s in Build_chat a b c d e f g v i j k l m n o.
Definition set_intervalRef (v : option nat) (s : chat) : chat :=
  let 'Build_chat a b c d e f g h _ j k l m n o := s in Build_chat a b c d e f g h v j k l m n o.
Definition set_localStorage (v : gmap string json) (s : chat) : chat :=
  let 'Build_chat a b c d e f g h i _ k l m n o := s in Build_chat a b c d e f g h i v k l m n o.
Definition set_channels (v : list readyState) (s : chat) : chat :=
  let 'Build_chat a b c d e f g h i j _ l m n o := s in Build_chat a b c d e f g h i j v l m n o.
Definition set_peers (v : list liveness) (s : chat) : chat :=
  let 'Build_chat a b c d e f g h i j k _ m n o := s in Build_chat a b c d e f g h i j k v m n o.
Definition set_intervals (v : list liveness) (s : chat) : chat :=
  let 'Build_chat a b c d e f g h i j k l _ n o := s in Build_chat a b c d e f g h i j k l v n o.
Definition set_timeouts (v : list timeout) (s : chat) : chat :=
  let 'Build_chat a b c d e f g h i j k l m _ o := s in Build_chat a b c d e f g h i j k l m v o.
Definition set_log (v : list call) (s : chat) : chat :=
  let 'Build_chat a b c d e f g h i j k l m n _ := s in Build_chat a b c d e f g h i j k l m n v.

Definition record (c : call) (s : chat) : chat := set_log (log s ++ [c]) s.

(** The state setters of [useState]: a component that is no longer mounted
    ignores them. *)
Definition setIsSessionActive (v : CONNECTION_STATUS) (s : chat) : chat :=
  if mounted s then set_isSessionActive v s else s.
Definition setEvents (v : list event) (s : chat) : chat :=
  if mounted s then set_events v s else s.
Definition setDataChannel (v : option nat) (s : chat) : chat :=
  if mounted s then set_dataChannel v s else s.
Definition setFunctionAdded (v : bool) (s : chat) : chat :=
  if mounted s then set_functionAdded v s else s.
Definition setFunctionCallOutput (v : option output_item) (s : chat) : chat :=
  if mounted s then set_functionCallOutput v s else s.
Definition setSpeakingTime (v : nat) (s : chat) : chat :=
  if mounted s then set_speakingTime v s else s.

(** [dataChannel?.send(JSON.stringify(msg))]: nothing when the variable is
    [null]; otherwise the send is attempted, and raises when the channel is
    not open.  The boolean tells whether the call returned. *)
Definition channel_state (s : chat) (dc : nat) : readyState :=
  default closed (channels s !! dc).

Definition try_send (channel : option nat) (msg : message) (s : chat) : chat * bool :=
  match channel with
  | None => (s, true)
  | Some dc =>
      let st := channel_state s dc in
      (record (send dc msg st) s, bool_decide (st = open))
  end.

(** [localStorage.setItem(key, JSON.stringify(value))]. *)
Definition cache (key : string) (value : gmap string json) (s : chat) : chat :=
  record (setItem key (JObj value))
    (set_localStorage (<[key := JObj value]> (localStorage s)) s).

(** Reading a cached result back: [JSON.parse(localStorage.getItem(key))]. *)
Definition readLast (key : string) (s : chat) : option json := localStorage s !! key.

(** [setTimeout(callback, delay)]. *)
Definition schedule (t : timeout) (s : chat) : chat :=
  record (setTimeout t) (set_timeouts (timeouts s ++ [t]) s).

(** [{ timestamp: ..., ...payload }]: the properties the spread copies
    override the ones written before it. *)
Definition with_timestamp (now : Z) (payload : json) : gmap string json :=
  own_props payload ∪ {[ "timestamp" := JTime now ]}.

(** Leaving the page tree: the cleanup of the first effect clears the
    interval the ref holds. *)
Definition unmount (s : chat) : chat :=
  let s := match intervalRef s with
           | Some id => record (clearInterval id) (set_intervals (<[id := gone]> (intervals s)) s)
           | None => s
           end in
  set_mounted false s.

(** *** The effects *)

(** [useEffect(..., [functionAdded, isSessionActive])] *)
Definition effect_connected (snap s : chat) : chat :=
  if functionAdded snap && bool_decide (isSessionActive snap = CONNECTING)
  then setIsSessionActive CONNECTED s
  else s.

Definition is_call (o : output_item) (fn : string) : bool :=
  String.eqb (item_type o) "function_call" && String.eqb (name o) fn.

(** The body of [mostRecentEvent.response.output.forEach].  The boolean
    tells whether it returned: in the adjustment branch the [console.log]
    reads [planData.exercises] before anything is cached, which throws
    when the arguments are [null]. *)
Definition handle_output (now : Z) (snap s : chat) (o : output_item) : chat * bool :=
  let s :=
    if is_call o "review_current_weekly_plan" then
      let result := {[ "timestamp" := JTime now; "feedback" := arguments o ]} in
      let s := cache "lastReviewPlan" result s in
      let s := setFunctionCallOutput (Some o) s in
      schedule {| delay := 500; captured := dataChannel snap; step := discuss_adjustment |} s
    else s in
  let '(s, returned) :=
    if is_call o "adjust_exercise_plan" then
      let planData := arguments o in
      if is_null planData then (s, false)
      else
        let s := cache "lastExerciseAdjustment" (with_timestamp now planData) s in
        (schedule {| delay := 500; captured := dataChannel snap; step := ask_confirmation |} s,
         true)
    else (s, true) in
  if negb returned then (s, false)
  else if is_call o "confirm_final_plan" then
    let s := cache "lastPlanConfirmation" (with_timestamp now (arguments o)) s in
    (schedule {| delay := 500; captured := dataChannel snap; step := farewell_and_monitor |} s,
     true)
  else (s, true).

(** [items.forEach(callback)]: an exception in the callback ends the
    loop. *)
Fixpoint forEach {A : Type} (callback : chat -> A -> chat * bool) (items : list A)
    (s : chat) : chat * bool :=
  match items with
  | [] => (s, true)
  | item :: rest =>
      let '(s, returned) := callback s item in
      if returned then forEach callback rest s else (s, false)
  end.

(** The second statement of the choreography effect: the function calls
    of the newest event.  Reading [output] of a [response] that is not
    there throws, and so does an item whose handling throws; an exception
    in an effect takes the page tree down. *)
Definition handle_most_recent (now : Z) (snap s : chat) : chat :=
  match head (events snap) with
  | None => s
  | Some mostRecentEvent =>
      if String.eqb (type mostRecentEvent) "response.done" then
        match response mostRecentEvent with
        | no_response => unmount s
        | without_output => s
        | with_output outputs =>
            let '(s, returned) := forEach (handle_output now snap) outputs s in
            if returned then s else unmount s
        end
      else s
  end.

(** [useEffect(..., [events, functionAdded, dataChannel])]: registration of
    the tools, then the choreography. *)
Definition effect_choreography (now : Z) (snap s : chat) : chat :=
  match last (events snap) with
  | None => s
  | Some firstEvent =>
      let '(s, returned) :=
        if negb (functionAdded snap) && String.eqb (type firstEvent) "session.created"
        then
          let '(s, returned) := try_send (dataChannel snap) reviewCurrentPlan s in
          (if returned then setFunctionAdded true s else s, returned)
        else (s, true) in
      if negb returned then unmount s else handle_most_recent now snap s
  end.

(** [useEffect(..., [isSessionActive])] *)
Definition effect_reset (snap s : chat) : chat :=
  if bool_decide (isSessionActive snap = DISCONNECTED)
  then setFunctionCallOutput None (setFunctionAdded false s)
  else s.

(** *** Rendering *)

(** Which of the effects' dependencies differ between two renders.  The
    event list is a fresh array after every [setEvents]; comparing lengths
    tells the same except for an empty list replaced by an empty list,
    where the only effect that depends on it returns at once. *)
Record deps := {
  d_status : bool;
  d_events : bool;
  d_channel : bool;
  d_added : bool
}.

Definition changed (prev next : chat) : deps :=
  {| d_status := bool_decide (isSessionActive prev <> isSessionActive next);
     d_events := negb (length (events prev) =? length (events next))%nat;
     d_channel := bool_decide (dataChannel prev <> dataChannel next);
     d_added := negb (eqb (functionAdded prev) (functionAdded next)) |}.

Definition any (d : deps) : bool := d_status d || d_events d || d_channel d || d_added d.

(** One commit: the effects whose dependencies changed run in source
    order; each reads the state variables of the render ([snap]) and its
    updates are applied afterwards. *)
Definition commit (now : Z) (d : deps) (snap : chat) : chat :=
  let s := snap in
  let s := if d_added d || d_status d then effect_connected snap s else s in
  let s := if d_events d || d_added d || d_channel d then effect_choreography now snap s else s in
  if d_status d then effect_reset snap s else s.

(** Rendering stops when the tree is gone or no dependency changed. *)
Definition settled (prev s : chat) : bool := negb (mounted s) || negb (any (changed prev s)).

(** Render again until no dependency changes. *)
Fixpoint rerender (fuel : nat) (now : Z) (prev s : chat) : chat :=
  match fuel with
  | O => s
  | S fuel' =>
      if settled prev s then s
      else rerender fuel' now s (commit now (changed prev s) s)
  end.

(** No handler needs more than this many renders (see [rerender_settles]). *)
Definition renders : nat := 4.

(** What ran since the last render, then the page renders: React applies
    together the updates made before it renders, so [handler] is one
    listener or callback, or several that ran in a row. *)
Definition dispatch (now : Z) (handler : chat -> chat) (s : chat) : chat :=
  rerender renders now s (handler s).

(** *** Handlers *)

(** The listeners the third effect attaches to a new data channel are
    the two handlers below; the browser calls them for that channel.

    The "message" listener: [setEvents((prev) => [JSON.parse(e.data), ...prev])]. *)
Definition on_message (e : event) (s : chat) : chat := setEvents (e :: events s) s.

(** The "open" listener of channel [dc]. *)
Definition on_open (dc : nat) (s : chat) : chat :=
  let s := set_channels (<[dc := open]> (channels s)) s in
  setEvents [] (setIsSessionActive CONNECTING s).

(** A message that is followed by a render before the next one arrives. *)
Definition deliver (now : Z) (e : event) (s : chat) : chat := dispatch now (on_message e) s.

(** The messages that arrive between two renders, the oldest first: the
    listener runs for each, and the page renders once. *)
Definition on_messages (batch : list event) (s : chat) : chat :=
  fold_left (fun s e => on_message e s) batch s.

Definition deliver_batch (now : Z) (batch : list event) (s : chat) : chat :=
  dispatch now (on_messages batch) s.

Definition opened (now : Z) (dc : nat) (s : chat) : chat := dispatch now (on_open dc) s.

(** The interval callback: [setSpeakingTime((prevTime) => prevTime + 1)]. *)
Definition on_interval (id : nat) (s : chat) : chat :=
  match intervals s !! id with
  | Some live => setSpeakingTime (S (speakingTime s)) s
  | _ => s
  end.

(** [stopSession], as closed over a render whose [dataChannel] was
    [channel]. *)
Definition stopSession (channel : option nat) (s : chat) : chat :=
  let s := match channel with
           | Some dc => record (close_channel dc) (set_channels (<[dc := closed]> (channels s)) s)
           | None => s
           end in
  let s := match peerConnection s with
           | Some pc => record (close_peer pc) (set_peers (<[pc := gone]> (peers s)) s)
           | None => s
           end in
  let s := setIsSessionActive DISCONNECTED s in
  let s := setDataChannel None s in
  set_peerConnection None s.

(** The end-call button of the current render. *)
Definition stop (now : Z) (s : chat) : chat := dispatch now (stopSession (dataChannel s)) s.

(** A pending timeout fires.  An exception in the callback ends it; the
    monitor of the last step is armed on the stream of the audio element,
    which is taken to have one by then. *)
Definition fire (i : nat) (s : chat) : chat :=
  match timeouts s !! i with
  | None => s
  | Some t =>
      let s := set_timeouts (delete i (timeouts s)) s in
      let '(s, returned) := try_send (captured t) (response_create (instructions_of (step t))) s in
      match step t with
      | farewell_and_monitor => if returned then record (arm_monitor (captured t)) s else s
      | _ => s
      end
  end.


(** *** Starting a session *)

Record token_response := {
  ok : bool;
  json_body : option json      (* [None]: the body is not JSON *)
}.

(** What the outside answers while [startSession] runs. *)
Record environment := {
  token_fetch : option token_response;   (* [None]: the fetch rejects *)
  microphone : bool;                     (* [getUserMedia] resolves *)
  offer : option string;                 (* [createOffer], [setLocalDescription] *)
  answer : option string;                (* the POST of the offer and its text *)
  remote_accepted : bool                 (* [setRemoteDescription] resolves *)
}.

(** [data.client_secret?.value] on a value that is not [null]. *)
Definition client_secret_value (data : json) : option json :=
  match prop "client_secret" data with
  | None | Some JNull => None
  | Some client_secret => prop "value" client_secret
  end.

(** Lines 365-374: the message of the error thrown, or [EPHEMERAL_KEY]. *)
Definition credential (tokenResponse : token_response) : string + json :=
  if negb (ok tokenResponse) then inl "Failed to get token"
  else
    match json_body tokenResponse with
    | None => inl "Unexpected token in JSON"
    | Some JNull => inl "Cannot read properties of null (reading 'client_secret')"
    | Some data =>
        match client_secret_value data with
        | Some value => if truthy value then inr value else inl "Invalid token response"
        | None => inl "Invalid token response"
        end
    end.

(** The [catch] block. *)
Definition on_error (message : string) (s : chat) : chat :=
  record (alert ("Failed to start session: " +:+ message))
    (setIsSessionActive DISCONNECTED s).

Definition fail (now : Z) (message : string) (s : chat) : chat :=
  dispatch now (on_error message) s.

Definition realtime_url : string :=
  "https://api.openai.com/v1/realtime?model=gpt-4o-realtime-preview-2024-12-17".

(** Lines 395-424, after [setDataChannel(dc)]. *)
Definition negotiate (now : Z) (env : environment) (EPHEMERAL_KEY : json) (pc : nat)
    (s : chat) : chat :=
  match offer env with
  | None => fail now "createOffer failed" s
  | Some sdp =>
      let s := record (fetch realtime_url (Some EPHEMERAL_KEY)) s in
      match answer env with
      | None => fail now "Failed to fetch" s
      | Some _ =>
          if remote_accepted env then
            let s := set_peerConnection (Some pc) s in
            let id := length (intervals s) in
            let s := record (setInterval id) (set_intervals (intervals s ++ [live]) s) in
            set_intervalRef (Some id) s
          else fail now "setRemoteDescription failed" s
      end
  end.

(** [startSession]; the page renders at each [await] that follows a state
    update. *)
Definition startSession (now : Z) (env : environment) (s : chat) : chat :=
  let s := dispatch now (setIsSessionActive CONNECTING) s in
  let s := record (fetch "/token" None) s in
  match token_fetch env with
  | None => fail now "Failed to fetch" s
  | Some tokenResponse =>
      match credential tokenResponse with
      | inl message => fail now message s
      | inr EPHEMERAL_KEY =>
          let s := record getUserMedia s in
          if negb (microphone env) then fail now "Microphone access denied" s
          else
            let pc := length (peers s) in
            let s := record (new_RTCPeerConnection pc) (set_peers (peers s ++ [live]) s) in
            let dc := length (channels s) in
            let s := record (createDataChannel pc dc)
                       (set_channels (channels s ++ [connecting]) s) in
            let s := dispatch now (setDataChannel (Some dc)) s in
            negotiate now env EPHEMERAL_KEY pc s
      end
  end.

(** *** Events and sessions *)

(** A function call output of the remote peer. *)
Definition function_call (fn : string) (payload : json) : output_item :=
  {| item_type := "function_call"; name := fn; arguments := payload |}.

(** A "response.done" event with the given output list. *)
Definition response_done (outputs : list output_item) : event :=
  {| type := "response.done"; response := with_output outputs |}.

Definition session_created : event :=
  {| type := "session.created"; response := no_response |}.

(** Inbound events, each with the clock reading at its arrival. *)
Definition deliver_all (arrivals : list (Z * event)) (s : chat) : chat :=
  fold_left (fun s arrival => deliver arrival.1 arrival.2 s) arrivals s.

(** Inbound events in the groups in which they reach the renders, each
    group with the clock reading at its render. *)
Definition deliver_batches (arrivals : list (Z * list event)) (s : chat) : chat :=
  fold_left (fun s arrival => deliver_batch arrival.1 arrival.2 s) arrivals s.

(** A session whose data channel has just opened. *)
Definition fresh_session (s : chat) : Prop :=
  mounted s = true /\ events s = [] /\ functionAdded s = false
  /\ isSessionActive s = CONNECTING
  /\ exists dc, dataChannel s = Some dc /\ channel_state s dc = open.

(** An environment in which [startSession] succeeds, and the session it
    yields once the channel has opened. *)
Definition good_environment : environment :=
  {| token_fetch :=
       Some {| ok := true;
               json_body := Some (JObj {[ "client_secret" :=
                                            JObj {[ "value" := JStr "ek_test" ]} ]}) |};
     microphone := true;
     offer := Some "v=0 offer";
     answer := Some "v=0 answer";
     remote_accepted := true |}.

Definition live_session : chat := opened 10 0 (startSession 0 good_environment initial).

(** A session in which the review step, and one in which then the
    adjustment step, has been handled. *)
Definition too_hard : json := JObj {[ "user_feedback" := JStr "too hard" ]}.

Definition reviewed_session : chat :=
  deliver_all [(20, session_created);
               (30, response_done [function_call "review_current_weekly_plan" too_hard])]
    live_session.

Definition adjusted_session : chat :=
  deliver 40 (response_done [function_call "adjust_exercise_plan"
                               (JObj {[ "total_weekly_minutes" := JNum 90 ]})])
    reviewed_session.

(** The token endpoint answers 500; the user refuses the microphone. *)
Definition token_http_500 : environment :=
  {| token_fetch := Some {| ok := false; json_body := Some (JObj {[ "error" := JStr "x" ]}) |};
     microphone := true; offer := Some "v=0 offer"; answer := Some "v=0 answer";
     remote_accepted := true |}.

Definition microphone_refused : environment :=
  {| token_fetch := token_fetch good_environment;
     microphone := false; offer := Some "v=0 offer"; answer := Some "v=0 answer";
     remote_accepted := true |}.

(** *** Reading the log *)

Definition count (p : call -> bool) (l : list call) : nat := length (List.filter p l).

(** A send of a tool registration, attempted on a channel in any state. *)
Definition is_registration (c : call) : bool :=
  match c with
  | send _ (session_update _ _) _ => true
  | _ => false
  end.

Definition is_write_of (key : string) (c : call) : bool :=
  match c with
  | setItem k _ => String.eqb k key
  | _ => false
  end.

Definition is_followup_of (f : followup) (c : call) : bool :=
  match c with
  | setTimeout t => bool_decide (step t = f)
  | _ => false
  end.

(** A send of a follow-up instruction, attempted on a channel in any
    state. *)
Definition is_instruction (c : call) : bool :=
  match c with
  | send _ (response_create _) _ => true
  | _ => false
  end.

(** A follow-up instruction that went out on an open channel. *)
Definition is_sent_instruction (f : followup) (c : call) : bool :=
  match c with
  | send _ (response_create text) open => String.eqb text (instructions_of f)
  | _ => false
  end.

(** A send that was attempted on a channel that is not open. *)
Definition is_failed_send (c : call) : bool :=
  match c with
  | send _ _ open => false
  | send _ _ _ => true
  | _ => false
  end.

Definition is_network (c : call) : bool :=
  match c with
  | fetch _ _ => true
  | _ => false
  end.

(** The calls a step of the choreography makes when handled. *)
Definition step_call (c : call) : bool :=
  match c with
  | setItem _ _ | setTimeout _ => true
  | _ => false
  end.

(** The calls an effect can make: sends, cache writes, timers, and the
    interval cleared when the tree is taken down. *)
Definition effect_call (c : call) : bool :=
  match c with
  | send _ _ _ | setItem _ _ | setTimeout _ | clearInterval _ => true
  | _ => false
  end.

(** *** What effects leave alone *)

(** What no effect touches. *)
Definition stable (s : chat) :=
  (events s, dataChannel s, speakingTime s, peerConnection s, intervalRef s,
   channels s, peers s).

(** [s'] is [s] after some effects ran. *)
Definition after_effects (s s' : chat) : Prop :=
  stable s' = stable s
  /\ timeouts s `prefix_of` timeouts s'
  /\ exists extra, log s' = log s ++ extra /\ forallb effect_call extra = true.

(** *** The control of rendering *)

(** What decides which effects run and whether rendering goes on: the
    status, the registration flag, and whether the tree is mounted. *)
Record control := {
  c_status : CONNECTION_STATUS;
  c_added : bool;
  c_mounted : bool
}.

Definition control_of (s : chat) : control :=
  {| c_status := isSessionActive s; c_added := functionAdded s; c_mounted := mounted s |}.

(** The oldest event of the log is "session.created". *)
Definition first_is_created (s : chat) : bool :=
  match last (events s) with
  | Some firstEvent => String.eqb (type firstEvent) "session.created"
  | None => false
  end.

(** Handling the item throws: a call of the adjustment step whose
    arguments are [null]. *)
Definition raises (o : output_item) : bool :=
  is_call o "adjust_exercise_plan" && is_null (arguments o).

(** Handling the event as the newest of the log throws: a "response.done"
    without [response], or with an item whose handling throws. *)
Definition event_raises (e : event) : bool :=
  String.eqb (type e) "response.done"
  && match response e with
     | no_response => true
     | without_output => false
     | with_output outputs => existsb raises outputs
     end.

Definition newest_raises (s : chat) : bool :=
  match head (events s) with
  | Some mostRecentEvent => event_raises mostRecentEvent
  | None => false
  end.

(** A send through [channel?.send] would return. *)
Definition can_send (channel : option nat) (s : chat) : bool :=
  match channel with
  | None => true
  | Some dc => bool_decide (channel_state s dc = open)
  end.

Definition sendable (s : chat) : bool := can_send (dataChannel s) s.

(** A commit asks for the tool registration to be sent under this
    condition. *)
Definition registers (d : deps) (created : bool) (c : control) : bool :=
  (d_events d || d_added d || d_channel d) && created && negb (c_added c).

(** A commit takes the page down under this condition: the registration
    cannot be sent, or the handling of the newest event throws. *)
Definition crashes (d : deps) (created can_send raises : bool) (c : control) : bool :=
  registers d created c && negb can_send
  || (d_events d || d_added d || d_channel d) && raises.

(** What one commit does to the control, given which dependencies
    changed. *)
Definition commit_control (d : deps) (created can_send raises : bool) (c : control)
  : control :=
  let st := if (d_added d || d_status d) && c_added c && bool_decide (c_status c = CONNECTING)
            then CONNECTED else c_status c in
  let added := if registers d created c && can_send then true else c_added c in
  let up := if crashes d created can_send raises c then false else c_mounted c in
  let added := if d_status d && bool_decide (c_status c = DISCONNECTED) && up
               then false else added in
  {| c_status := st; c_added := added; c_mounted := up |}.

(** The dependencies that differ between two renders with the same events
    and channel. *)
Definition control_diff (c c' : control) : deps :=
  {| d_status := bool_decide (c_status c <> c_status c');
     d_events := false;
     d_channel := false;
     d_added := negb (eqb (c_added c) (c_added c')) |}.

(** The control through the renders of [rerender], with the number of
    commits that ask for the registration to be sent. *)
Fixpoint render_control (fuel : nat) (d : deps) (created can_send raises : bool)
    (c : control) : control * nat :=
  match fuel with
  | O => (c, O)
  | S fuel' =>
      if negb (c_mounted c) || negb (any d) then (c, O)
      else
        let c' := commit_control d created can_send raises c in
        let '(final, n) :=
          render_control fuel' (control_diff c c') created can_send raises c' in
        (final, ((if registers d created c then 1 else 0) + n)%nat)
  end.

(** The dependencies a "message" changes: the event list alone. *)
Definition message_deps : deps :=
  {| d_status := false; d_events := true; d_channel := false; d_added := false |}.

(** After its first event a session either has registered the tools or
    never will. *)
Definition past_first_event (s : chat) : Prop :=
  mounted s = true /\ events s <> []
  /\ (functionAdded s = true \/ first_is_created s = false).

(** *** Further vocabulary *)

Definition is_alert (c : call) : bool :=
  match c with
  | alert _ => true
  | _ => false
  end.

Definition is_arm_monitor (c : call) : bool :=
  match c with
  | arm_monitor _ => true
  | _ => false
  end.

(** A function call output of one of the three steps. *)
Definition is_step (o : output_item) : bool :=
  is_call o "review_current_weekly_plan" || is_call o "adjust_exercise_plan"
  || is_call o "confirm_final_plan".

(** The cache key a function name writes to. *)
Definition step_key (fn : string) : option string :=
  if String.eqb fn "review_current_weekly_plan" then Some "lastReviewPlan"
  else if String.eqb fn "adjust_exercise_plan" then Some "lastExerciseAdjustment"
  else if String.eqb fn "confirm_final_plan" then Some "lastPlanConfirmation"
  else None.

(** The follow-up a function name schedules. *)
Definition step_followup (fn : string) : option followup :=
  if String.eqb fn "review_current_weekly_plan" then Some discuss_adjustment
  else if String.eqb fn "adjust_exercise_plan" then Some ask_confirmation
  else if String.eqb fn "confirm_final_plan" then Some farewell_and_monitor
  else None.

(** The item is a function call of the step that writes [key]. *)
Definition is_step_of (key : string) (o : output_item) : bool :=
  String.eqb (item_type o) "function_call" && bool_decide (step_key (name o) = Some key).

(** The follow-up of an item, when it is a function call of a step. *)
Definition followup_of (o : output_item) : option followup :=
  if String.eqb (item_type o) "function_call" then step_followup (name o) else None.

(** The items of an output list that are handled: those before the first
    whose handling throws. *)
Fixpoint handled (outputs : list output_item) : list output_item :=
  match outputs with
  | [] => []
  | o :: rest => if raises o then [] else o :: handled rest
  end.

(** The items of an event that a render handles when the event is the
    newest of the log. *)
Definition calls_of (e : event) : list output_item :=
  if String.eqb (type e) "response.done" then
    match response e with
    | with_output outputs => handled outputs
    | _ => []
    end
  else [].

(** A session whose data channel has just opened: no event has arrived
    on it. *)
Definition open_session (s : chat) : Prop :=
  mounted s = true /\ events s = []
  /\ exists dc, dataChannel s = Some dc /\ channel_state s dc = open.

(** The render that follows a group of messages throws in handling the
    newest of them. *)
Definition crash_batch (batch : list event) : bool :=
  match last batch with
  | Some newest => event_raises newest
  | None => false
  end.

(** The groups that reach a page: those up to the first whose render
    takes the page down. *)
Fixpoint until_crash (arrivals : list (Z * list event)) : list (Z * list event) :=
  match arrivals with
  | [] => []
  | arrival :: rest =>
      if crash_batch arrival.2 then [arrival] else arrival :: until_crash rest
  end.

(** The first group that holds a message, and whether the first message of
    all is "session.created". *)
Fixpoint first_batch (arrivals : list (Z * list event)) : list event :=
  match arrivals with
  | [] => []
  | (_, []) :: rest => first_batch rest
  | (_, batch) :: _ => batch
  end.

Definition first_created (arrivals : list (Z * list event)) : bool :=
  match first_batch arrivals with
  | first :: _ => String.eqb (type first) "session.created"
  | [] => false
  end.

(** An event the choreography has nothing to do for. *)
Definition unrelated (e : event) : Prop :=
  type e <> "response.done"
  \/ response e = without_output
  \/ exists outputs,
       response e = with_output outputs /\ Forall (fun o => is_step o = false) outputs.

(** The state with the three variables the effects set replaced. *)
Definition with_control (st : CONNECTION_STATUS) (added : bool) (fo : option output_item)
    (s : chat) : chat :=
  set_functionCallOutput fo (set_functionAdded added (set_isSessionActive st s)).

(** Every step of [startSession] goes well, with [key] as credential. *)
Definition succeeds (env : environment) (key : json) : Prop :=
  exists r sdp text,
    token_fetch env = Some r /\ credential r = inr key /\ microphone env = true
    /\ offer env = Some sdp /\ answer env = Some text /\ remote_accepted env = true.

(** The negotiation fails after the connection and the channel were
    created. *)
Definition negotiation_fails (env : environment) : Prop :=
  (exists r key, token_fetch env = Some r /\ credential r = inr key)
  /\ microphone env = true
  /\ (offer env = None \/ answer env = None \/ remote_accepted env = false).

(** The registration flag is set and the status is not Disconnected. *)
Definition flagged (s : chat) : Prop :=
  functionAdded s = true /\ isSessionActive s <> DISCONNECTED.

(** The status is Connected, with the flag set, and the log holds [n]
    registrations. *)
Definition shown_connected (n : nat) (s : chat) : Prop :=
  functionAdded s = true /\ isSessionActive s = CONNECTED
  /\ count is_registration (log s) = n.

(** What [fetch("/token")] resolves to in the page when the route answers
    [rep]: [tokenResponse.ok] is a 2xx status, [tokenResponse.json()] the
    body. *)
Definition answered (rep : Server.reply) : token_response :=
  {| ok := Server.success (Server.status rep); json_body := Some (Server.body rep) |}.

End Chat.

(** * Properties *)

(** ** The server routes *)
Module ServerProps.
Import Server.

(** C10: [GET /api-env] answers every request, whatever its headers or
    query (no credential is looked at), with status 200 and a body whose
    [OPENAI_API_KEY] property is the value of that environment
    variable. *)
Theorem api_env_discloses_key (env : gmap string string) (key : string) (request : request) :
  env !! "OPENAI_API_KEY" = Some key ->
  status (api_env env request) = 200
  /\ prop "OPENAI_API_KEY" (body (api_env env request)) = Some (JStr key)
  /\ forall other : Server.request, api_env env other = api_env env request.
Proof.
  intros Hkey. split; [reflexivity|]. split; [|reflexivity].
  unfold api_env, getenv; simpl. rewrite Hkey; simpl.
  apply lookup_insert_eq.
Qed.

Lemma api_env_discloses_key_witness :
  let env : gmap string string := {[ "OPENAI_API_KEY" := "sk-live" ]} in
  let anonymous := {| req_headers := []; req_query := [] |} in
  status (api_env env anonymous) = 200
  /\ prop "OPENAI_API_KEY" (body (api_env env anonymous)) = Some (JStr "sk-live")
  /\ forall other : Server.request, api_env env other = api_env env anonymous.
Proof.
  intros env anonymous.
  apply (api_env_discloses_key env "sk-live" anonymous).
  reflexivity.
Defined.

(** C9: whenever [generateInstructions] and the upstream [fetch] return
    (nothing is thrown), [GET /token] answers with status 200 and the
    upstream body, whatever the upstream status was; so two upstream
    answers of different status yield replies of the same status. *)
Theorem token_status_always_200
    (config : json) (fetch : upstream_request -> outcome upstream_response)
    (env : gmap string string) (request : request)
    (r : upstream_response) (bodyText : json) :
  fetch (sessions_request env config) = Returned r ->
  up_body r = Some bodyText ->
  token (Returned config) fetch env request
    = Returned {| status := 200; content_type := "application/json"; body := bodyText |}
  /\ (forall gi f rep, token gi f env request = Returned rep -> status rep = 200).
Proof.
  intros Hfetch Hbody. split.
  - unfold token. rewrite Hfetch, Hbody. reflexivity.
  - intros gi f rep. unfold token.
    destruct gi as [c|e]; [|discriminate].
    destruct (f (sessions_request env c)) as [r'|e]; [|discriminate].
    destruct (up_body r') as [b|]; [|discriminate].
    intros [= <-]. reflexivity.
Qed.

Lemma token_status_always_200_witness :
  let failing := {| up_status := 401;
                    up_body := Some (JObj {[ "error" := JStr "invalid_api_key" ]}) |} in
  success (up_status failing) = false
  /\ status <$> (match token (Returned JNull) (fun _ => Returned failing) ∅
                         {| req_headers := []; req_query := [] |} with
                 | Returned rep => Some rep
                 | Thrown _ => None
                 end) = Some 200.
Proof.
  intros failing. split; [reflexivity|].
  destruct (token_status_always_200 JNull (fun _ => Returned failing) ∅
              {| req_headers := []; req_query := [] |} failing
              (JObj {[ "error" := JStr "invalid_api_key" ]}) eq_refl eq_refl) as [-> _].
  reflexivity.
Defined.

End ServerProps.

(** ** The silence monitor *)
Module SilenceProps.
Import Silence.

Lemma run_stopped trace fired seen :
  run Stopped trace fired seen = {| final := Stopped; teardowns := fired; sampled := seen |}.
Proof. destruct trace; reflexivity. Qed.

(** While the monitor is still sampling nothing has been torn down, and a
    trace tears down at most once. *)
Lemma run_teardowns m trace fired seen :
  (teardowns (run m trace fired seen) <= S fired)%nat
  /\ (forall s, final (run m trace fired seen) = Sampling s ->
        teardowns (run m trace fired seen) = fired).
Proof.
  revert m fired seen. induction trace as [|f rest IH]; intros m fired seen.
  - destruct m; simpl; split; auto; discriminate.
  - destruct m as [s|]; [|rewrite run_stopped; simpl; split; auto; discriminate].
    simpl. destruct (checkAudioLevel s f) as [s'| |].
    + apply IH.
    + rewrite run_stopped; simpl. split; [lia|discriminate].
    + rewrite run_stopped; simpl. split; [lia|discriminate].
Qed.

Lemma run_sampled m trace fired seen :
  (sampled (run m trace fired seen) <= seen + length trace)%nat.
Proof.
  revert m fired seen. induction trace as [|f rest IH]; intros m fired seen.
  - destruct m; simpl; lia.
  - destruct m as [s|]; [|rewrite run_stopped; simpl; lia].
    simpl. destruct (checkAudioLevel s f) as [s'| |];
      [specialize (IH (Sampling s') fired (S seen))
      |specialize (IH Stopped (S fired) (S seen))
      |specialize (IH Stopped fired (S seen))]; lia.
Qed.

(** A prefix that leaves the monitor sampling can be run first. *)
Lemma run_app m pre rest fired seen s :
  final (run m pre fired seen) = Sampling s ->
  run m (pre ++ rest) fired seen
  = run (Sampling s) rest fired (sampled (run m pre fired seen)).
Proof.
  revert m fired seen. induction pre as [|f pre IH]; intros m fired seen Hfin.
  - destruct m as [s0|]; simpl in *; [|discriminate].
    injection Hfin as ->. reflexivity.
  - destruct m as [s0|]; [|rewrite run_stopped in Hfin; discriminate].
    simpl in *. destruct (checkAudioLevel s0 f) as [s'| |].
    + apply IH, Hfin.
    + rewrite run_stopped in Hfin; discriminate.
    + rewrite run_stopped in Hfin; discriminate.
Qed.

Lemma run_sampling_sampled m pre fired seen s :
  final (run m pre fired seen) = Sampling s ->
  sampled (run m pre fired seen) = (seen + length pre)%nat.
Proof.
  revert m fired seen. induction pre as [|f pre IH]; intros m fired seen Hfin.
  - destruct m; simpl in *; [lia|discriminate].
  - destruct m as [s0|]; [rewrite ?run_stopped in Hfin|rewrite run_stopped in Hfin; discriminate].
    simpl in *. destruct (checkAudioLevel s0 f) as [s'| |].
    + rewrite (IH _ _ _ Hfin). lia.
    + rewrite run_stopped in Hfin; discriminate.
    + rewrite run_stopped in Hfin; discriminate.
Qed.

Lemma check_quiet_first s f :
  quiet f -> unset s = true -> checkAudioLevel s f = Reschedule (Some (now f)).
Proof.
  intros (avg & Havg & Hlt) Hs. unfold checkAudioLevel.
  rewrite Havg, Hlt, Hs. reflexivity.
Qed.

Lemma check_quiet_later start f :
  quiet f -> start <> 0 ->
  checkAudioLevel (Some start) f
  = if now f - start >? SILENCE_DURATION then Teardown else Reschedule (Some start).
Proof.
  intros (avg & Havg & Hlt) Hs. unfold checkAudioLevel.
  rewrite Havg, Hlt. simpl. destruct (Z.eqb_spec start 0); [contradiction|reflexivity].
Qed.

Lemma check_loud s f : loud f -> checkAudioLevel s f = Reschedule None.
Proof.
  intros (avg & Havg & Hlt). unfold checkAudioLevel. rewrite Havg, Hlt. reflexivity.
Qed.

(** A quiet run that reaches past the duration tears the session down
    once, at the first frame that is past it. *)
Lemma quiet_run_fires start q rest fired seen :
  start <> 0 -> Forall quiet q ->
  Exists (fun f => now f - start > SILENCE_DURATION) q ->
  let r := run (Sampling (Some start)) (q ++ rest) fired seen in
  final r = Stopped /\ teardowns r = S fired /\ (sampled r <= seen + length q)%nat.
Proof.
  intros Hstart Hq Hex. revert fired seen.
  induction Hq as [|f q Hf Hq IH]; intros fired seen.
  - inversion Hex.
  - simpl. rewrite (check_quiet_later start f Hf Hstart).
    destruct (Z.gtb_spec (now f - start) SILENCE_DURATION) as [Hgt|Hle].
    + rewrite run_stopped; simpl. repeat split; lia.
    + assert (Hex' : Exists (fun f => now f - start > SILENCE_DURATION) q).
      { inversion Hex; subst; [lia|assumption]. }
      destruct (IH Hex' fired (S seen)) as (H1 & H2 & H3).
      repeat split; [exact H1|exact H2|lia].
Qed.

(** A quiet run that stays within the duration keeps the timestamp. *)
Lemma quiet_run_holds start q rest fired seen :
  start <> 0 -> Forall quiet q ->
  Forall (fun f => now f - start <= SILENCE_DURATION) q ->
  run (Sampling (Some start)) (q ++ rest) fired seen
  = run (Sampling (Some start)) rest fired (seen + length q).
Proof.
  intros Hstart Hq Hin. revert fired seen.
  induction Hq as [|f q Hf Hq IH]; intros fired seen.
  - simpl. f_equal. lia.
  - simpl. rewrite (check_quiet_later start f Hf Hstart).
    inversion Hin as [|? ? Hle Hin']; subst.
    destruct (Z.gtb_spec (now f - start) SILENCE_DURATION) as [Hgt|_]; [lia|].
    rewrite (IH Hin'). f_equal. lia.
Qed.

(** The silence callback runs at most once on any trace, and once the
    monitor has stopped no further frame is sampled. *)
Lemma teardown_at_most_once trace : (teardowns (monitor_run trace) <= 1)%nat.
Proof. apply (run_teardowns armed trace 0 0). Qed.

(** C2, as the code has it: on a monitor that is measuring from scratch,
    a run of below-threshold frames whose elapsed time since its first
    frame exceeds 2000 ms (strictly) fires the silence callback exactly
    once and stops sampling, whatever follows; a run that has not
    exceeded 2000 ms when a frame at or above the threshold arrives does
    not fire and leaves the monitor as it was armed (timestamp
    cleared). *)
Theorem silence_monitor (pre : list frame) (first : frame) (q rest : list frame) :
  final (monitor_run pre) = armed ->
  quiet first -> now first <> 0 -> Forall quiet q ->
  (Exists (fun f => now f - now first > SILENCE_DURATION) q ->
     let r := monitor_run (pre ++ first :: q ++ rest) in
     final r = Stopped /\ teardowns r = 1%nat
     /\ (sampled r <= length pre + 1 + length q)%nat)
  /\ (Forall (fun f => now f - now first <= SILENCE_DURATION) q ->
      forall l, loud l ->
        let r := monitor_run (pre ++ first :: q ++ [l]) in
        final r = armed /\ teardowns r = 0%nat).
Proof.
  intros Hpre Hfirst Hnow Hq. unfold monitor_run in *.
  pose proof (run_sampling_sampled armed pre 0 0 None Hpre) as Hseen.
  split.
  - intros Hex. cbv zeta. rewrite (run_app armed pre _ 0 0 None Hpre), Hseen.
    simpl. rewrite (check_quiet_first None first Hfirst eq_refl).
    destruct (quiet_run_fires (now first) q rest 0 (S (length pre)) Hnow Hq Hex)
      as (H1 & H2 & H3).
    repeat split; [exact H1|exact H2|lia].
  - intros Hin l Hl. cbv zeta. rewrite (run_app armed pre _ 0 0 None Hpre), Hseen.
    simpl. rewrite (check_quiet_first None first Hfirst eq_refl).
    rewrite (quiet_run_holds (now first) q [l] 0 _ Hnow Hq Hin).
    simpl. rewrite (check_loud _ l Hl). simpl. split; reflexivity.
Qed.

Lemma quiet_level t : quiet (level t 0).
Proof. exists (0 # 128)%Q. split; reflexivity. Qed.

Lemma loud_level t : loud (level t 255).
Proof. exists (32640 # 128)%Q. split; reflexivity. Qed.

Lemma silence_monitor_witness :
  (let r := monitor_run ([level 500 255] ++ level 1000 0 :: [level 2000 0; level 3001 0]
                           ++ [level 3017 0; level 3033 255]) in
   final r = Stopped /\ teardowns r = 1%nat /\ (sampled r <= 1 + 1 + 2)%nat)
  /\ (let r := monitor_run ([level 500 255] ++ level 1000 0 :: [level 2000 0; level 2900 0]
                              ++ [level 2916 255]) in
      final r = armed /\ teardowns r = 0%nat).
Proof.
  split.
  - apply (silence_monitor [level 500 255] (level 1000 0) [level 2000 0; level 3001 0]
             [level 3017 0; level 3033 255]).
    + reflexivity.
    + apply quiet_level.
    + discriminate.
    + repeat constructor; apply quiet_level.
    + right; left; unfold SILENCE_DURATION; simpl; lia.
  - apply (silence_monitor [level 500 255] (level 1000 0) [level 2000 0; level 2900 0] []).
    + reflexivity.
    + apply quiet_level.
    + discriminate.
    + repeat constructor; apply quiet_level.
    + repeat constructor; unfold SILENCE_DURATION; simpl; lia.
    + apply loud_level.
Defined.

(** C2 as the specification words it fails at the boundary: a trace that
    stays below the threshold for 2000 ms (two quiet frames 2000 ms
    apart) and then turns loud never fires. *)
Lemma silence_of_2000ms_does_not_fire :
  let first := level 1000 0 in
  let q := [level 3000 0] in
  quiet first /\ Forall quiet q
  /\ Exists (fun f => now f - now first >= SILENCE_DURATION) q
  /\ teardowns (monitor_run (first :: q ++ [level 3016 255])) = 0%nat.
Proof.
  cbv zeta. split; [apply quiet_level|]. split; [repeat constructor; apply quiet_level|].
  split; [left; simpl; unfold SILENCE_DURATION; lia|reflexivity].
Qed.

End SilenceProps.

(** ** The chat page *)
Module ChatProps.
Import Chat.

(** *** Effects only add to the log and the timers *)

Lemma after_effects_refl s : after_effects s s.
Proof.
  split; [reflexivity|]. split; [reflexivity|].
  exists []. split; [symmetry; apply app_nil_r|reflexivity].
Qed.

Lemma after_effects_trans s1 s2 s3 :
  after_effects s1 s2 -> after_effects s2 s3 -> after_effects s1 s3.
Proof.
  intros (Hs1 & Ht1 & e1 & Hl1 & He1) (Hs2 & Ht2 & e2 & Hl2 & He2).
  split; [congruence|]. split; [etrans; eassumption|].
  exists (e1 ++ e2). split.
  - rewrite Hl2, Hl1, app_assoc. reflexivity.
  - rewrite forallb_app, He1, He2. reflexivity.
Qed.

Lemma after_record c s : effect_call c = true -> after_effects s (record c s).
Proof.
  intros Hc. destruct s; split; [reflexivity|]. split; [reflexivity|].
  exists [c]. split; [reflexivity|]. simpl. rewrite Hc. reflexivity.
Qed.

Lemma after_setIsSessionActive v s : after_effects s (setIsSessionActive v s).
Proof.
  unfold setIsSessionActive. destruct (mounted s); [|apply after_effects_refl].
  destruct s; split; [reflexivity|]. split; [reflexivity|].
  exists []. split; [symmetry; apply app_nil_r|reflexivity].
Qed.

Lemma after_setFunctionAdded v s : after_effects s (setFunctionAdded v s).
Proof.
  unfold setFunctionAdded. destruct (mounted s); [|apply after_effects_refl].
  destruct s; split; [reflexivity|]. split; [reflexivity|].
  exists []. split; [symmetry; apply app_nil_r|reflexivity].
Qed.

Lemma after_setFunctionCallOutput v s : after_effects s (setFunctionCallOutput v s).
Proof.
  unfold setFunctionCallOutput. destruct (mounted s); [|apply after_effects_refl].
  destruct s; split; [reflexivity|]. split; [reflexivity|].
  exists []. split; [symmetry; apply app_nil_r|reflexivity].
Qed.

Lemma after_cache key value s : after_effects s (cache key value s).
Proof.
  destruct s; split; [reflexivity|]. split; [reflexivity|].
  exists [setItem key (JObj value)]. split; reflexivity.
Qed.

Lemma after_schedule t s : after_effects s (schedule t s).
Proof.
  destruct s; split; [reflexivity|]. split; [apply prefix_app_r; reflexivity|].
  exists [setTimeout t]. split; reflexivity.
Qed.

Lemma after_try_send channel msg s : after_effects s (try_send channel msg s).1.
Proof.
  destruct channel as [dc|]; simpl; [|apply after_effects_refl].
  apply after_record. reflexivity.
Qed.

Lemma after_unmount s : after_effects s (unmount s).
Proof.
  unfold unmount. destruct s as [? ? ? ? ? ? ? ? [id|] ? ? ? ? ? ?]; simpl.
  - split; [reflexivity|]. split; [reflexivity|].
    exists [clearInterval id]. split; reflexivity.
  - split; [reflexivity|]. split; [reflexivity|].
    exists []. split; [symmetry; apply app_nil_r|reflexivity].
Qed.

Create HintDb effects.

#[local] Hint Resolve after_effects_refl after_record after_setIsSessionActive
  after_setFunctionAdded after_setFunctionCallOutput after_cache after_schedule
  after_try_send after_unmount : effects.

(** Take the branches of [handle_output]. *)
Ltac branches :=
  unfold handle_output;
  repeat match goal with
         | |- context [if ?b then _ else _] => destruct b; cbn [negb fst snd]
         end.

Lemma after_handle_output now snap s o :
  after_effects s (handle_output now snap s o).1.
Proof.
  branches; repeat (eapply after_effects_trans; [|eauto with effects]); eauto with effects.
Qed.

(** Whether the handling of an item returns. *)
Lemma returned_handle_output now snap s o :
  (handle_output now snap s o).2 = negb (raises o).
Proof.
  unfold handle_output, raises.
  destruct (is_call o "review_current_weekly_plan"), (is_call o "adjust_exercise_plan"),
    (is_null (arguments o)), (is_call o "confirm_final_plan"); reflexivity.
Qed.

Lemma forEach_cons {A} (f : chat -> A -> chat * bool) item rest s :
  forEach f (item :: rest) s
  = if (f s item).2 then forEach f rest (f s item).1 else ((f s item).1, false).
Proof. simpl. destruct (f s item) as [s1 []]; reflexivity. Qed.

Lemma after_outputs now snap outputs s :
  after_effects s (forEach (handle_output now snap) outputs s).1.
Proof.
  revert s. induction outputs as [|o outputs IH]; intros s.
  - apply after_effects_refl.
  - rewrite forEach_cons. pose proof (after_handle_output now snap s o) as H.
    destruct (handle_output now snap s o).2; [|exact H].
    eapply after_effects_trans; [exact H|apply IH].
Qed.

Lemma returned_outputs now snap outputs s :
  (forEach (handle_output now snap) outputs s).2 = negb (existsb raises outputs).
Proof.
  revert s. induction outputs as [|o outputs IH]; intros s; [reflexivity|].
  rewrite forEach_cons, returned_handle_output. simpl.
  destruct (raises o); simpl; [reflexivity|apply IH].
Qed.

Lemma after_handle_most_recent now snap s :
  after_effects s (handle_most_recent now snap s).
Proof.
  unfold handle_most_recent.
  destruct (head (events snap)) as [e|]; [|apply after_effects_refl].
  destruct (String.eqb (type e) "response.done"); [|apply after_effects_refl].
  destruct (response e) as [| |outputs]; eauto with effects.
  pose proof (after_outputs now snap outputs s) as H.
  destruct (forEach (handle_output now snap) outputs s) as [s1 []]; simpl in H;
    [exact H|].
  eapply after_effects_trans; [exact H|apply after_unmount].
Qed.

Lemma after_effect_connected snap s : after_effects s (effect_connected snap s).
Proof. unfold effect_connected. case_match; eauto with effects. Qed.

Lemma after_effect_reset snap s : after_effects s (effect_reset snap s).
Proof.
  unfold effect_reset. case_match; [|apply after_effects_refl].
  eapply after_effects_trans; [apply after_setFunctionAdded|apply after_setFunctionCallOutput].
Qed.

Lemma after_effect_choreography now snap s :
  after_effects s (effect_choreography now snap s).
Proof.
  unfold effect_choreography.
  destruct (last (events snap)) as [firstEvent|]; [|apply after_effects_refl].
  destruct (negb (functionAdded snap) && String.eqb (type firstEvent) "session.created").
  - pose proof (after_try_send (dataChannel snap) reviewCurrentPlan s) as Hsend.
    destruct (try_send (dataChannel snap) reviewCurrentPlan s) as [s1 returned].
    simpl in Hsend. destruct returned; simpl.
    + eapply after_effects_trans; [exact Hsend|].
      eapply after_effects_trans; [apply after_setFunctionAdded|].
      apply after_handle_most_recent.
    + eapply after_effects_trans; [exact Hsend|apply after_unmount].
  - simpl. apply after_handle_most_recent.
Qed.

Lemma after_commit now d s : after_effects s (commit now d s).
Proof.
  unfold commit.
  repeat match goal with
         | |- context [if ?b then _ else _] => destruct b
         end;
    repeat (eapply after_effects_trans;
            [|first [apply after_effect_reset|apply after_effect_choreography
                    |apply after_effect_connected]]);
    apply after_effects_refl.
Qed.

Lemma after_rerender fuel now prev s : after_effects s (rerender fuel now prev s).
Proof.
  revert prev s. induction fuel as [|fuel IH]; intros prev s; simpl.
  - apply after_effects_refl.
  - case_match; [apply after_effects_refl|].
    eapply after_effects_trans; [apply after_commit|apply IH].
Qed.

(** *** What a commit does to the control *)

Lemma control_cache key value s : control_of (cache key value s) = control_of s.
Proof. destruct s; reflexivity. Qed.

Lemma control_schedule t s : control_of (schedule t s) = control_of s.
Proof. destruct s; reflexivity. Qed.

Lemma control_setFunctionCallOutput v s :
  control_of (setFunctionCallOutput v s) = control_of s.
Proof. destruct s as [? ? ? ? ? ? [] ? ? ? ? ? ? ? ?]; reflexivity. Qed.

Lemma control_handle_output now snap s o :
  control_of (handle_output now snap s o).1 = control_of s.
Proof.
  branches;
    repeat first [rewrite control_schedule|rewrite control_setFunctionCallOutput
                 |rewrite control_cache];
    reflexivity.
Qed.

Lemma control_outputs now snap outputs s :
  control_of (forEach (handle_output now snap) outputs s).1 = control_of s.
Proof.
  revert s. induction outputs as [|o outputs IH]; intros s; [reflexivity|].
  rewrite forEach_cons.
  destruct (handle_output now snap s o).2; [rewrite IH|]; apply control_handle_output.
Qed.

Lemma control_unmount s :
  control_of (unmount s)
  = {| c_status := isSessionActive s; c_added := functionAdded s; c_mounted := false |}.
Proof. unfold unmount. destruct s as [? ? ? ? ? ? ? ? [id|] ? ? ? ? ? ?]; reflexivity. Qed.

Lemma control_handle_most_recent now snap s :
  control_of (handle_most_recent now snap s)
  = {| c_status := isSessionActive s; c_added := functionAdded s;
       c_mounted := if newest_raises snap then false else mounted s |}.
Proof.
  unfold handle_most_recent, newest_raises, event_raises.
  destruct (head (events snap)) as [e|]; [|reflexivity].
  destruct (String.eqb (type e) "response.done"); [|reflexivity]. simpl.
  destruct (response e) as [| |outputs]; [apply control_unmount|reflexivity|].
  pose proof (returned_outputs now snap outputs s) as Hr.
  pose proof (control_outputs now snap outputs s) as Hc.
  destruct (forEach (handle_output now snap) outputs s) as [s1 returned].
  simpl in Hr, Hc. rewrite Hr.
  destruct (existsb raises outputs); simpl.
  - rewrite control_unmount.
    change (isSessionActive s1) with (c_status (control_of s1)).
    change (functionAdded s1) with (c_added (control_of s1)). rewrite Hc. reflexivity.
  - exact Hc.
Qed.

Lemma control_effect_connected snap s :
  control_of (effect_connected snap s)
  = if functionAdded snap && bool_decide (isSessionActive snap = CONNECTING) && mounted s
    then {| c_status := CONNECTED; c_added := functionAdded s; c_mounted := mounted s |}
    else control_of s.
Proof.
  unfold effect_connected, setIsSessionActive.
  destruct (functionAdded snap && bool_decide (isSessionActive snap = CONNECTING)); simpl;
    [|reflexivity].
  destruct s as [? ? ? ? ? ? [] ? ? ? ? ? ? ? ?]; reflexivity.
Qed.

Lemma control_effect_reset snap s :
  control_of (effect_reset snap s)
  = if bool_decide (isSessionActive snap = DISCONNECTED) && mounted s
    then {| c_status := isSessionActive s; c_added := false; c_mounted := mounted s |}
    else control_of s.
Proof.
  unfold effect_reset, setFunctionCallOutput, setFunctionAdded.
  destruct (bool_decide (isSessionActive snap = DISCONNECTED)); simpl; [|reflexivity].
  destruct s as [? ? ? ? ? ? [] ? ? ? ? ? ? ? ?]; reflexivity.
Qed.

Lemma control_effect_choreography now snap s :
  control_of (effect_choreography now snap s)
  = let registers := first_is_created snap && negb (functionAdded snap) in
    {| c_status := isSessionActive s;
       c_added := if registers && can_send (dataChannel snap) s && mounted s
                  then true else functionAdded s;
       c_mounted := if registers && negb (can_send (dataChannel snap) s)
                       || newest_raises snap
                    then false else mounted s |}.
Proof.
  unfold effect_choreography, first_is_created.
  destruct (last (events snap)) as [firstEvent|] eqn:El.
  2:{ apply last_None in El. unfold newest_raises. rewrite El. destruct s; reflexivity. }
  destruct (functionAdded snap); simpl.
  { rewrite andb_false_r. simpl. apply control_handle_most_recent. }
  destruct (String.eqb (type firstEvent) "session.created"); simpl.
  2:{ apply control_handle_most_recent. }
  unfold try_send, can_send.
  destruct (dataChannel snap) as [dc|]; simpl.
  - change (channel_state (record (send dc reviewCurrentPlan (channel_state s dc)) s) dc)
      with (channel_state s dc).
    destruct (bool_decide (channel_state s dc = open)); simpl.
    + rewrite control_handle_most_recent. unfold setFunctionAdded, record.
      destruct s as [? ? ? ? ? ? [] ? ? ? ? ? ? ? ?]; reflexivity.
    + rewrite control_unmount. destruct s; reflexivity.
  - rewrite control_handle_most_recent. unfold setFunctionAdded.
    destruct s as [? ? ? ? ? ? [] ? ? ? ? ? ? ? ?]; reflexivity.
Qed.

Lemma can_send_stable channel s s' :
  stable s' = stable s -> can_send channel s' = can_send channel s.
Proof.
  intros H. assert (Hc : channels s' = channels s) by (unfold stable in H; congruence).
  unfold can_send, channel_state. rewrite Hc. reflexivity.
Qed.

Lemma first_is_created_stable s s' :
  stable s' = stable s -> first_is_created s' = first_is_created s.
Proof.
  intros H. assert (He : events s' = events s) by (unfold stable in H; congruence).
  unfold first_is_created. rewrite He. reflexivity.
Qed.

Lemma sendable_stable s s' : stable s' = stable s -> sendable s' = sendable s.
Proof.
  intros H. assert (Hd : dataChannel s' = dataChannel s) by (unfold stable in H; congruence).
  unfold sendable. rewrite Hd. apply can_send_stable, H.
Qed.

Lemma newest_raises_stable s s' :
  stable s' = stable s -> newest_raises s' = newest_raises s.
Proof.
  intros H. assert (He : events s' = events s) by (unfold stable in H; congruence).
  unfold newest_raises. rewrite He. reflexivity.
Qed.

Ltac fold_control :=
  repeat match goal with
         | |- context [isSessionActive ?x] =>
             change (isSessionActive x) with (c_status (control_of x))
         | |- context [functionAdded ?x] =>
             change (functionAdded x) with (c_added (control_of x))
         | |- context [mounted ?x] =>
             change (mounted x) with (c_mounted (control_of x))
         end.

Lemma control_commit now d s :
  mounted s = true ->
  control_of (commit now d s)
  = commit_control d (first_is_created s) (sendable s) (newest_raises s) (control_of s).
Proof.
  intros Hm. unfold commit, commit_control, crashes, sendable.
  destruct d as [dS dE dC dA]; simpl.
  destruct dS, dE, dC, dA; simpl;
    rewrite ?control_effect_reset; fold_control;
    rewrite ?control_effect_choreography; fold_control;
    rewrite ?(can_send_stable _ _ _ (proj1 (after_effect_connected s s)));
    rewrite ?control_effect_connected; fold_control;
    unfold control_of; simpl; rewrite ?Hm;
    destruct (isSessionActive s), (functionAdded s), (first_is_created s),
      (can_send (dataChannel s) s), (newest_raises s); reflexivity.
Qed.

(** *** Rendering settles *)

Lemma changed_stable s s' :
  stable s' = stable s -> changed s s' = control_diff (control_of s) (control_of s').
Proof.
  intros H.
  assert (He : events s' = events s) by (unfold stable in H; congruence).
  assert (Hd : dataChannel s' = dataChannel s) by (unfold stable in H; congruence).
  assert (Hb : bool_decide (dataChannel s <> dataChannel s) = false)
    by (apply bool_decide_eq_false_2; intros Hne; apply Hne; reflexivity).
  unfold changed, control_diff; simpl. rewrite He, Hd, Hb, Nat.eqb_refl.
  reflexivity.
Qed.

Lemma rerender_S fuel now prev s :
  rerender (S fuel) now prev s
  = if settled prev s then s else rerender fuel now s (commit now (changed prev s) s).
Proof. reflexivity. Qed.

Lemma settled_false prev s : settled prev s = false -> mounted s = true.
Proof. unfold settled. destruct (mounted s); [reflexivity|discriminate]. Qed.

(** After three commits nothing the effects depend on changes any more. *)
Lemma third_commit_settles d0 created can raises c0 :
  let c1 := commit_control d0 created can raises c0 in
  let c2 := commit_control (control_diff c0 c1) created can raises c1 in
  let c3 := commit_control (control_diff c1 c2) created can raises c2 in
  negb (c_mounted c3) || negb (any (control_diff c2 c3)) = true.
Proof.
  destruct d0 as [[] [] [] []], created, can, raises, c0 as [[] [] []]; reflexivity.
Qed.

Lemma settled_commit now d s :
  mounted s = true ->
  settled s (commit now d s)
  = (let c := control_of s in
     let c' := commit_control d (first_is_created s) (sendable s) (newest_raises s) c in
     negb (c_mounted c') || negb (any (control_diff c c'))).
Proof.
  intros Hm. unfold settled.
  rewrite (changed_stable _ _ (proj1 (after_commit now d s))).
  change (mounted (commit now d s)) with (c_mounted (control_of (commit now d s))).
  rewrite (control_commit now d s Hm). reflexivity.
Qed.

(** More renders than [renders] change nothing: [dispatch] always reaches a
    render after which no effect has to run. *)
Lemma rerender_settles n now prev s :
  rerender (renders + n) now prev s = rerender renders now prev s.
Proof.
  unfold renders. simpl Nat.add.
  rewrite !(rerender_S _ now prev s).
  destruct (settled prev s) eqn:E0; [reflexivity|].
  pose proof (settled_false _ _ E0) as Hm0.
  set (d0 := changed prev s). set (s1 := commit now d0 s).
  rewrite !(rerender_S _ now s s1).
  destruct (settled s s1) eqn:E1; [reflexivity|].
  pose proof (settled_false _ _ E1) as Hm1.
  set (s2 := commit now (changed s s1) s1).
  rewrite !(rerender_S _ now s1 s2).
  destruct (settled s1 s2) eqn:E2; [reflexivity|].
  pose proof (settled_false _ _ E2) as Hm2.
  set (s3 := commit now (changed s1 s2) s2).
  rewrite !(rerender_S _ now s2 s3).
  assert (E3 : settled s2 s3 = true); [|rewrite E3; reflexivity].
  pose proof (proj1 (after_commit now d0 s)) as St1. fold s1 in St1.
  pose proof (proj1 (after_commit now (changed s s1) s1)) as St2. fold s2 in St2.
  subst s3. rewrite (settled_commit _ _ _ Hm2). cbv zeta.
  rewrite (changed_stable _ _ St2).
  rewrite (first_is_created_stable _ _ St2), (sendable_stable _ _ St2),
    (newest_raises_stable _ _ St2).
  rewrite (first_is_created_stable _ _ St1), (sendable_stable _ _ St1),
    (newest_raises_stable _ _ St1).
  subst s2. rewrite (control_commit _ _ _ Hm1).
  rewrite (changed_stable _ _ St1).
  rewrite (first_is_created_stable _ _ St1), (sendable_stable _ _ St1),
    (newest_raises_stable _ _ St1).
  subst s1. rewrite (control_commit _ _ _ Hm0).
  apply third_commit_settles.
Qed.

(** *** The result cache *)

Lemma localStorage_cache key value s :
  localStorage (cache key value s) = <[key := JObj value]> (localStorage s).
Proof. destruct s; reflexivity. Qed.

Lemma localStorage_schedule t s : localStorage (schedule t s) = localStorage s.
Proof. destruct s; reflexivity. Qed.

Lemma localStorage_setFunctionCallOutput v s :
  localStorage (setFunctionCallOutput v s) = localStorage s.
Proof. destruct s as [? ? ? ? ? ? [] ? ? ? ? ? ? ? ?]; reflexivity. Qed.

Lemma is_call_function_call fn payload fn' :
  is_call (function_call fn payload) fn' = String.eqb fn fn'.
Proof. reflexivity. Qed.

Lemma arguments_function_call fn payload : arguments (function_call fn payload) = payload.
Proof. reflexivity. Qed.

(** Decide which of the three branches of [handle_output] a call takes. *)
Ltac decide_calls :=
  unfold handle_output; rewrite !is_call_function_call, ?arguments_function_call;
  repeat match goal with
         | |- context [String.eqb ?a ?b] =>
             let v := eval vm_compute in (String.eqb a b) in
             change (String.eqb a b) with v
         end;
  cbv beta iota zeta; cbn [is_null negb fst snd].

Lemma with_timestamp_lookup now fields k :
  with_timestamp now (JObj fields) !! k
  = match fields !! k with
    | Some v => Some v
    | None => if decide (k = "timestamp") then Some (JTime now) else None
    end.
Proof.
  unfold with_timestamp; simpl. rewrite lookup_union.
  destruct (fields !! k) as [v|] eqn:Hk; simpl.
  - destruct ({["timestamp" := JTime now]} !! k); reflexivity.
  - destruct (decide (k = "timestamp")) as [->|Hne].
    + rewrite lookup_singleton_eq. reflexivity.
    + rewrite lookup_singleton_ne by congruence. reflexivity.
Qed.

(** Reading a key after a step recorded under it returns the record of
    that step.  The review record holds the payload whole under [feedback]
    and the time of the write as its timestamp.  The adjustment and
    confirmation records hold every property of the payload unchanged, and
    the time of the write as timestamp when the payload has no [timestamp]
    property of its own.  A later write under a key replaces the earlier
    record, of which nothing is kept. *)
Lemma cache_round_trip (now : Z) (snap s : chat) (payload : json)
    (fields : gmap string json) :
  readLast "lastReviewPlan"
    (handle_output now snap s (function_call "review_current_weekly_plan" payload)).1
  = Some (JObj {[ "timestamp" := JTime now; "feedback" := payload ]})
  /\ (forall fn key, (fn, key) ∈ [("adjust_exercise_plan", "lastExerciseAdjustment");
                                  ("confirm_final_plan", "lastPlanConfirmation")] ->
      exists stored,
        readLast key (handle_output now snap s (function_call fn (JObj fields))).1
        = Some (JObj stored)
        /\ (forall k v, fields !! k = Some v -> stored !! k = Some v)
        /\ (forall k, k <> "timestamp" -> stored !! k = fields !! k)
        /\ (fields !! "timestamp" = None -> stored !! "timestamp" = Some (JTime now)))
  /\ (forall key v1 v2,
        readLast key (cache key v2 (cache key v1 s)) = Some (JObj v2)
        /\ localStorage (cache key v2 (cache key v1 s)) = localStorage (cache key v2 s)).
Proof.
  split; [|split].
  - decide_calls. unfold readLast.
    rewrite localStorage_schedule, localStorage_setFunctionCallOutput, localStorage_cache.
    apply lookup_insert_eq.
  - intros fn key Hin. exists (with_timestamp now (JObj fields)).
    assert (Hread : readLast key
                      (handle_output now snap s (function_call fn (JObj fields))).1
                    = Some (JObj (with_timestamp now (JObj fields)))).
    { apply list_elem_of_In in Hin. destruct Hin as [[= <- <-]|[[= <- <-]|[]]];
        decide_calls; unfold readLast;
        rewrite localStorage_schedule, localStorage_cache; apply lookup_insert_eq. }
    split; [exact Hread|]. split; [|split].
    + intros k v Hk. rewrite with_timestamp_lookup, Hk. reflexivity.
    + intros k Hne. rewrite with_timestamp_lookup.
      destruct (fields !! k); [reflexivity|]. destruct (decide (k = "timestamp")); congruence.
    + intros Hnone. rewrite with_timestamp_lookup, Hnone. reflexivity.
  - intros key v1 v2. unfold readLast. rewrite !localStorage_cache. split.
    + apply lookup_insert_eq.
    + apply insert_insert_eq.
Qed.

(** C8 is broken by a payload that has a [timestamp] property of its own:
    the spread in the adjustment (and confirmation) record lets it replace
    the timestamp of the write, which the review record, keeping the
    payload under [feedback], cannot suffer.  An adjustment recorded at
    time 1000 reads back with the payload's timestamp, the instant 0. *)
Theorem cache_timestamp_of_payload_wins :
  let payload := JObj {[ "timestamp" := JTime 0; "total_weekly_minutes" := JNum 90 ]} in
  let s :=
    (handle_output 1000 initial initial (function_call "adjust_exercise_plan" payload)).1 in
  (readLast "lastExerciseAdjustment" s ≫= prop "timestamp") = Some (JTime 0)
  /\ 0 < 1000.
Proof. split; [vm_compute; reflexivity|lia]. Qed.

(** *** Counting calls in the log *)

Lemma count_app p l1 l2 : count p (l1 ++ l2) = (count p l1 + count p l2)%nat.
Proof. unfold count. rewrite List.filter_app, length_app. reflexivity. Qed.

Lemma count_none p q l :
  (forall c, q c = true -> p c = false) -> forallb q l = true -> count p l = 0%nat.
Proof.
  intros Hpq. induction l as [|c l IH]; simpl; [reflexivity|].
  intros [Hc Hl]%andb_prop. unfold count in *. simpl.
  rewrite (Hpq c Hc). apply IH, Hl.
Qed.

Lemma log_record c s : log (record c s) = log s ++ [c].
Proof. destruct s; reflexivity. Qed.

Lemma log_cache key value s : log (cache key value s) = log s ++ [setItem key (JObj value)].
Proof. destruct s; reflexivity. Qed.

Lemma log_schedule t s : log (schedule t s) = log s ++ [setTimeout t].
Proof. destruct s; reflexivity. Qed.

Lemma log_setFunctionCallOutput v s : log (setFunctionCallOutput v s) = log s.
Proof. destruct s as [? ? ? ? ? ? [] ? ? ? ? ? ? ? ?]; reflexivity. Qed.

Lemma log_setFunctionAdded v s : log (setFunctionAdded v s) = log s.
Proof. destruct s as [? ? ? ? ? ? [] ? ? ? ? ? ? ? ?]; reflexivity. Qed.

Lemma log_setIsSessionActive v s : log (setIsSessionActive v s) = log s.
Proof. destruct s as [? ? ? ? ? ? [] ? ? ? ? ? ? ? ?]; reflexivity. Qed.

Lemma log_effect_connected snap s : log (effect_connected snap s) = log s.
Proof. unfold effect_connected. case_match; [apply log_setIsSessionActive|reflexivity]. Qed.

Lemma log_effect_reset snap s : log (effect_reset snap s) = log s.
Proof.
  unfold effect_reset. case_match; [|reflexivity].
  rewrite log_setFunctionCallOutput. apply log_setFunctionAdded.
Qed.

(** Handling an output item only writes to the cache and sets timers. *)
Lemma log_handle_output now snap s o :
  exists extra, log (handle_output now snap s o).1 = log s ++ extra
                /\ forallb step_call extra = true.
Proof.
  branches;
    repeat first [rewrite log_schedule|rewrite log_setFunctionCallOutput|rewrite log_cache];
    repeat rewrite <- List.app_assoc;
    first [eexists; split; [reflexivity|reflexivity]
          |exists []; split; [symmetry; apply app_nil_r|reflexivity]].
Qed.

Lemma log_outputs now snap outputs s :
  exists extra, log (forEach (handle_output now snap) outputs s).1 = log s ++ extra
                /\ forallb step_call extra = true.
Proof.
  revert s. induction outputs as [|o outputs IH]; intros s.
  - exists []. split; [symmetry; apply app_nil_r|reflexivity].
  - rewrite forEach_cons.
    destruct (log_handle_output now snap s o) as (e1 & H1 & F1).
    destruct (handle_output now snap s o).2.
    + destruct (IH (handle_output now snap s o).1) as (e2 & H2 & F2).
      exists (e1 ++ e2). split.
      * rewrite H2, H1, app_assoc. reflexivity.
      * rewrite forallb_app, F1, F2. reflexivity.
    + exists e1. split; assumption.
Qed.

Lemma step_call_not_registration c : step_call c = true -> is_registration c = false.
Proof. destruct c; simpl; congruence. Qed.

Lemma registrations_outputs now snap outputs s :
  count is_registration (log (forEach (handle_output now snap) outputs s).1)
  = count is_registration (log s).
Proof.
  destruct (log_outputs now snap outputs s) as (extra & -> & Hextra).
  rewrite count_app, (count_none _ _ _ step_call_not_registration Hextra). lia.
Qed.

Lemma log_unmount_registrations s :
  count is_registration (log (unmount s)) = count is_registration (log s).
Proof.
  unfold unmount. destruct s as [? ? ? ? ? ? ? ? [id|] ? ? ? ? ? ?]; simpl; [|reflexivity].
  rewrite count_app. unfold count; simpl. lia.
Qed.

Lemma registrations_handle_most_recent now snap s :
  count is_registration (log (handle_most_recent now snap s))
  = count is_registration (log s).
Proof.
  unfold handle_most_recent.
  destruct (head (events snap)) as [e|]; [|reflexivity].
  destruct (String.eqb (type e) "response.done"); [|reflexivity].
  destruct (response e) as [| |outputs];
    [apply log_unmount_registrations|reflexivity|].
  pose proof (registrations_outputs now snap outputs s) as H.
  destruct (forEach (handle_output now snap) outputs s) as [s1 []]; simpl in H;
    [exact H|].
  rewrite log_unmount_registrations. exact H.
Qed.

Lemma registrations_effect_choreography now snap s :
  count is_registration (log (effect_choreography now snap s))
  = (count is_registration (log s)
     + if first_is_created snap && negb (functionAdded snap)
          && bool_decide (is_Some (dataChannel snap))
       then 1 else 0)%nat.
Proof.
  unfold effect_choreography, first_is_created.
  destruct (last (events snap)) as [firstEvent|]; [|simpl; lia].
  destruct (functionAdded snap); simpl.
  { rewrite andb_false_r. simpl. rewrite registrations_handle_most_recent. lia. }
  destruct (String.eqb (type firstEvent) "session.created"); simpl.
  2:{ rewrite registrations_handle_most_recent. lia. }
  unfold try_send. destruct (dataChannel snap) as [dc|]; simpl.
  - destruct (bool_decide (channel_state s dc = open)); simpl.
    + rewrite registrations_handle_most_recent, log_setFunctionAdded, log_record,
        count_app. reflexivity.
    + rewrite log_unmount_registrations, log_record, count_app. reflexivity.
  - rewrite registrations_handle_most_recent, log_setFunctionAdded. lia.
Qed.

Lemma registrations_commit now d s :
  count is_registration (log (commit now d s))
  = (count is_registration (log s)
     + if registers d (first_is_created s) (control_of s)
          && bool_decide (is_Some (dataChannel s))
       then 1 else 0)%nat.
Proof.
  unfold commit, registers. destruct d as [dS dE dC dA]; simpl.
  destruct dS, dE, dC, dA; simpl;
    rewrite ?log_effect_reset, ?registrations_effect_choreography, ?log_effect_connected;
    lia.
Qed.

(** *** Rendering, seen through the control *)

Lemma dataChannel_stable s s' : stable s' = stable s -> dataChannel s' = dataChannel s.
Proof. unfold stable. congruence. Qed.

Lemma rerender_control fuel now prev s :
  let r := render_control fuel (changed prev s) (first_is_created s) (sendable s)
             (newest_raises s) (control_of s) in
  control_of (rerender fuel now prev s) = r.1
  /\ count is_registration (log (rerender fuel now prev s))
     = (count is_registration (log s)
        + if bool_decide (is_Some (dataChannel s)) then r.2 else 0)%nat.
Proof.
  revert prev s. induction fuel as [|fuel IH]; intros prev s; cbv zeta.
  - simpl. split; [reflexivity|]. case_match; lia.
  - rewrite rerender_S. simpl render_control.
    change (c_mounted (control_of s)) with (mounted s).
    change (negb (mounted s) || negb (any (changed prev s))) with (settled prev s).
    destruct (settled prev s) eqn:E.
    + simpl. split; [reflexivity|]. case_match; lia.
    + pose proof (settled_false _ _ E) as Hm.
      pose proof (proj1 (after_commit now (changed prev s) s)) as St.
      specialize (IH s (commit now (changed prev s) s)). cbv zeta in IH.
      rewrite (changed_stable _ _ St), (first_is_created_stable _ _ St),
        (sendable_stable _ _ St), (newest_raises_stable _ _ St),
        (dataChannel_stable _ _ St),
        (control_commit _ _ _ Hm), registrations_commit in IH.
      destruct (render_control fuel _ _ _ _ _) as [final n]. simpl in *.
      destruct IH as [IH1 IH2]. split; [exact IH1|]. rewrite IH2.
      destruct (registers _ _ _), (bool_decide (is_Some (dataChannel s))); simpl; lia.
Qed.

(** *** Inbound events *)

Lemma control_fields s s' :
  control_of s' = control_of s ->
  isSessionActive s' = isSessionActive s /\ functionAdded s' = functionAdded s
  /\ mounted s' = mounted s.
Proof. unfold control_of. intros [= -> -> ->]. auto. Qed.

Lemma control_diff_same c : any (control_diff c c) = false.
Proof. destruct c as [[] [] []]; reflexivity. Qed.

Lemma settled_same prev s :
  stable s = stable prev -> control_of s = control_of prev -> settled prev s = true.
Proof.
  intros St Hc. unfold settled. rewrite (changed_stable _ _ St), Hc, control_diff_same.
  apply orb_true_r.
Qed.

Lemma rerender_settled fuel now prev s : settled prev s = true -> rerender fuel now prev s = s.
Proof. intros H. destruct fuel; [reflexivity|]. rewrite rerender_S, H. reflexivity. Qed.

Lemma changed_same s : any (changed s s) = false.
Proof.
  unfold changed, any; simpl. rewrite Nat.eqb_refl.
  rewrite !bool_decide_eq_false_2 by (intros H; apply H; reflexivity).
  destruct (functionAdded s); reflexivity.
Qed.

Lemma dispatch_nothing now handler s : handler s = s -> dispatch now handler s = s.
Proof.
  intros H. unfold dispatch. rewrite H. apply rerender_settled.
  unfold settled. rewrite changed_same. apply orb_true_r.
Qed.

Lemma head_rev {A} (l : list A) : head (rev l) = last l.
Proof.
  induction l as [|x l _] using rev_ind; [reflexivity|].
  rewrite rev_unit, last_snoc. reflexivity.
Qed.

Lemma last_rev {A} (l : list A) : last (rev l) = head l.
Proof. destruct l as [|x l]; [reflexivity|]. simpl. apply last_snoc. Qed.

Lemma on_message_facts e s :
  mounted s = true ->
  let s1 := on_message e s in
  events s1 = e :: events s /\ control_of s1 = control_of s
  /\ dataChannel s1 = dataChannel s /\ channels s1 = channels s /\ log s1 = log s
  /\ changed s s1 = message_deps.
Proof.
  intros Hm. unfold on_message, setEvents. rewrite Hm.
  destruct s as [st evs dc fa fo sp mo pc ir ls chs ps ivs tos lg]; simpl in *.
  repeat split. unfold changed, message_deps; simpl. f_equal.
  - apply bool_decide_eq_false_2. intros H; apply H; reflexivity.
  - replace (length evs =? S (length evs))%nat with false; [reflexivity|].
    symmetry. apply Nat.eqb_neq. lia.
  - apply bool_decide_eq_false_2. intros H; apply H; reflexivity.
  - destruct fa; reflexivity.
Qed.

(** The messages of a group are put on the log together. *)
Lemma on_messages_mounted batch s :
  mounted s = true -> on_messages batch s = set_events (rev batch ++ events s) s.
Proof.
  unfold on_messages. revert s. induction batch as [|e batch IH]; intros s Hm; simpl.
  - destruct s; reflexivity.
  - rewrite IH.
    + unfold on_message, setEvents. rewrite Hm. rewrite <- List.app_assoc.
      destruct s; reflexivity.
    + unfold on_message, setEvents. rewrite Hm. destruct s; exact Hm.
Qed.

Lemma on_messages_unmounted batch s : mounted s = false -> on_messages batch s = s.
Proof.
  unfold on_messages. intros Hm. induction batch as [|e batch IH]; simpl; [reflexivity|].
  unfold on_message at 2, setEvents. rewrite Hm. exact IH.
Qed.

Lemma on_messages_facts batch s :
  mounted s = true ->
  let s1 := on_messages batch s in
  events s1 = rev batch ++ events s /\ control_of s1 = control_of s
  /\ dataChannel s1 = dataChannel s /\ channels s1 = channels s /\ log s1 = log s
  /\ timeouts s1 = timeouts s /\ localStorage s1 = localStorage s
  /\ (batch <> [] -> changed s s1 = message_deps).
Proof.
  intros Hm. cbv zeta. rewrite (on_messages_mounted batch s Hm).
  destruct s as [st evs dc fa fo sp mo pc ir ls chs ps ivs tos lg]; simpl in *.
  split_and!; try reflexivity.
  intros Hne. unfold changed, message_deps; simpl. f_equal.
  - apply bool_decide_eq_false_2. intros H; apply H; reflexivity.
  - replace (length evs =? length (rev batch ++ evs))%nat with false; [reflexivity|].
    symmetry. apply Nat.eqb_neq. rewrite length_app, length_rev.
    destruct batch; [contradiction|simpl; lia].
  - apply bool_decide_eq_false_2. intros H; apply H; reflexivity.
  - destruct fa; reflexivity.
Qed.

Lemma deliver_batch_nothing now s : deliver_batch now [] s = s.
Proof. apply dispatch_nothing. reflexivity. Qed.

Lemma deliver_batch_unmounted now batch s :
  mounted s = false -> deliver_batch now batch s = s.
Proof. intros Hm. apply dispatch_nothing, on_messages_unmounted, Hm. Qed.

Lemma deliver_batches_unmounted arrivals s :
  mounted s = false -> deliver_batches arrivals s = s.
Proof.
  intros Hm. unfold deliver_batches.
  induction arrivals as [|[now batch] rest IH]; simpl; [reflexivity|].
  rewrite (deliver_batch_unmounted now batch s Hm). exact IH.
Qed.

Lemma first_is_created_batch batch s :
  mounted s = true -> events s <> [] ->
  first_is_created (on_messages batch s) = first_is_created s.
Proof.
  intros Hm Hne. unfold first_is_created.
  rewrite (proj1 (on_messages_facts batch s Hm)).
  destruct (events s) as [|e0 evs] eqn:E; [contradiction|].
  rewrite last_app.
  destruct (last (e0 :: evs)) eqn:El; [reflexivity|].
  apply last_None in El. discriminate.
Qed.

Lemma newest_raises_batch batch s :
  mounted s = true -> batch <> [] ->
  newest_raises (on_messages batch s) = crash_batch batch.
Proof.
  intros Hm Hne. unfold newest_raises, crash_batch.
  rewrite (proj1 (on_messages_facts batch s Hm)), <- head_rev.
  destruct (rev batch) as [|e l] eqn:E; [|reflexivity].
  apply (f_equal (@rev event)) in E. rewrite rev_involutive in E. contradiction.
Qed.

Lemma sendable_batch batch s : mounted s = true -> sendable (on_messages batch s) = sendable s.
Proof.
  intros Hm. destruct (on_messages_facts batch s Hm) as (_ & _ & Hd & Hc & _).
  unfold sendable, can_send, channel_state. rewrite Hd, Hc. reflexivity.
Qed.

(** The render that follows a group of messages, through the control. *)
Lemma deliver_batch_control now batch s :
  mounted s = true -> batch <> [] ->
  let s1 := on_messages batch s in
  let r := render_control renders message_deps (first_is_created s1) (sendable s)
             (crash_batch batch) (control_of s) in
  control_of (deliver_batch now batch s) = r.1
  /\ count is_registration (log (deliver_batch now batch s))
     = (count is_registration (log s)
        + if bool_decide (is_Some (dataChannel s)) then r.2 else 0)%nat
  /\ stable (deliver_batch now batch s) = stable s1.
Proof.
  intros Hm Hne. cbv zeta.
  destruct (on_messages_facts batch s Hm) as (He1 & Hc1 & Hd1 & Hch1 & Hl1 & _ & _ & Hch).
  pose proof (rerender_control renders now s (on_messages batch s)) as Hr. cbv zeta in Hr.
  rewrite (Hch Hne), (sendable_batch batch s Hm), (newest_raises_batch batch s Hm Hne),
    Hc1, Hd1, Hl1 in Hr.
  destruct Hr as [Hctl Hcount]. split_and!; [exact Hctl|exact Hcount|].
  apply (after_rerender renders now s (on_messages batch s)).
Qed.

Lemma in_log_after c s s' : after_effects s s' -> In c (log s) -> In c (log s').
Proof.
  intros (_ & _ & extra & -> & _) Hin. apply in_or_app. left. exact Hin.
Qed.

Lemma in_log_deliver_batch c now batch s :
  In c (log s) -> In c (log (deliver_batch now batch s)).
Proof.
  intros Hin. unfold deliver_batch, dispatch.
  apply (in_log_after c (on_messages batch s)); [apply after_rerender|].
  destruct (mounted s) eqn:Hm.
  - rewrite (proj1 (proj2 (proj2 (proj2 (proj2 (on_messages_facts batch s Hm)))))).
    exact Hin.
  - rewrite (on_messages_unmounted batch s Hm). exact Hin.
Qed.

Lemma in_log_deliver c now e s : In c (log s) -> In c (log (deliver now e s)).
Proof. apply (in_log_deliver_batch c now [e] s). Qed.

Lemma in_log_deliver_batches c arrivals s :
  In c (log s) -> In c (log (deliver_batches arrivals s)).
Proof.
  revert s. induction arrivals as [|[now batch] rest IH]; intros s Hin; simpl; [exact Hin|].
  apply IH, in_log_deliver_batch, Hin.
Qed.

(** The registration is in the log of the effect that registers. *)
Lemma registration_in_log now snap s dc :
  first_is_created snap = true -> functionAdded snap = false ->
  dataChannel snap = Some dc ->
  In (send dc reviewCurrentPlan (channel_state s dc)) (log (effect_choreography now snap s)).
Proof.
  unfold first_is_created, effect_choreography. intros Hcr Hfa Hdc.
  destruct (last (events snap)) as [firstEvent|]; [|discriminate].
  rewrite Hfa, Hcr, Hdc. simpl.
  assert (Hrec : In (send dc reviewCurrentPlan (channel_state s dc))
                   (log (record (send dc reviewCurrentPlan (channel_state s dc)) s))).
  { rewrite log_record. apply in_or_app. right. left. reflexivity. }
  destruct (bool_decide (channel_state s dc = open)); simpl.
  - eapply in_log_after; [apply after_handle_most_recent|].
    eapply in_log_after; [apply after_setFunctionAdded|exact Hrec].
  - eapply in_log_after; [apply after_unmount|exact Hrec].
Qed.

(** The render of the first messages of a session whose channel is open,
    and the render of later ones. *)
Lemma render_control_first st fa created raises :
  render_control renders message_deps created true raises
    {| c_status := st; c_added := fa; c_mounted := true |}
  = ({| c_status := if negb fa && created && negb raises && bool_decide (st = CONNECTING)
                    then CONNECTED else st;
        c_added := fa || created;
        c_mounted := negb raises |},
     if negb fa && created then 1%nat else 0%nat).
Proof. destruct st, fa, created, raises; reflexivity. Qed.

Lemma render_control_later st fa created can raises :
  fa = true \/ created = false ->
  render_control renders message_deps created can raises
    {| c_status := st; c_added := fa; c_mounted := true |}
  = ({| c_status := st; c_added := fa; c_mounted := negb raises |}, 0%nat).
Proof.
  destruct st, fa, created, can, raises; intros [|]; try discriminate; reflexivity.
Qed.

Lemma events_deliver_batch now batch s :
  mounted s = true -> events (deliver_batch now batch s) = rev batch ++ events s.
Proof.
  intros Hm. unfold deliver_batch, dispatch.
  pose proof (proj1 (after_rerender renders now s (on_messages batch s))) as St.
  assert (He : events (rerender renders now s (on_messages batch s))
               = events (on_messages batch s))
    by (unfold stable in St; congruence).
  rewrite He. apply (on_messages_facts batch s Hm).
Qed.

(** The first messages of a session. *)
Lemma deliver_batch_first now e rest s :
  open_session s ->
  let batch := e :: rest in
  let s' := deliver_batch now batch s in
  let created := String.eqb (type e) "session.created" in
  let registers := negb (functionAdded s) && created in
  events s' = rev batch
  /\ control_of s'
     = {| c_status := if registers && negb (crash_batch batch)
                         && bool_decide (isSessionActive s = CONNECTING)
                      then CONNECTED else isSessionActive s;
          c_added := functionAdded s || created;
          c_mounted := negb (crash_batch batch) |}
  /\ count is_registration (log s')
     = (count is_registration (log s) + if registers then 1 else 0)%nat
  /\ (registers = true ->
      exists dc, dataChannel s = Some dc /\ In (send dc reviewCurrentPlan open) (log s')).
Proof.
  intros (Hm & Hev & dc & Hdc & Hopen). cbv zeta.
  assert (Hne : e :: rest <> []) by discriminate.
  destruct (on_messages_facts (e :: rest) s Hm)
    as (He1 & Hc1 & Hd1 & Hch1 & Hl1 & _ & _ & Hch).
  specialize (Hch Hne). rewrite Hev, app_nil_r in He1.
  destruct (deliver_batch_control now (e :: rest) s Hm Hne) as (Hctl & Hcount & St).
  assert (Hcr : first_is_created (on_messages (e :: rest) s)
                = String.eqb (type e) "session.created").
  { unfold first_is_created. rewrite He1, last_rev. reflexivity. }
  assert (Hsd : sendable s = true)
    by (unfold sendable, can_send; rewrite Hdc, Hopen; reflexivity).
  assert (Hcs : control_of s
                = {| c_status := isSessionActive s; c_added := functionAdded s;
                     c_mounted := true |})
    by (unfold control_of; rewrite Hm; reflexivity).
  rewrite Hcr, Hsd, Hcs, render_control_first in Hctl, Hcount. cbn [fst snd] in Hctl, Hcount.
  rewrite Hdc in Hcount.
  split_and!.
  - unfold stable in St. rewrite <- He1. congruence.
  - exact Hctl.
  - rewrite Hcount. reflexivity.
  - intros Hreg. apply andb_prop in Hreg. destruct Hreg as [Hfa Hcreated].
    apply negb_true_iff in Hfa.
    exists dc. split; [exact Hdc|].
    assert (Hm1 : mounted (on_messages (e :: rest) s) = true)
      by (rewrite (proj2 (proj2 (control_fields _ _ Hc1))); exact Hm).
    assert (Hgo : settled s (on_messages (e :: rest) s) = false)
      by (unfold settled; rewrite Hch, Hm1; reflexivity).
    unfold deliver_batch, dispatch, renders. rewrite rerender_S, Hgo, Hch.
    eapply in_log_after; [apply after_rerender|].
    change (commit now message_deps (on_messages (e :: rest) s))
      with (effect_choreography now (on_messages (e :: rest) s)
              (on_messages (e :: rest) s)).
    assert (Hopen1 : channel_state (on_messages (e :: rest) s) dc = open)
      by (unfold channel_state; rewrite Hch1; exact Hopen).
    rewrite <- Hopen1 at 1. apply registration_in_log.
    + rewrite Hcr. exact Hcreated.
    + rewrite (proj1 (proj2 (control_fields _ _ Hc1))). exact Hfa.
    + rewrite Hd1. exact Hdc.
Qed.

(** Later messages, on a page that is up. *)
Lemma deliver_batch_later now batch s :
  past_first_event s -> batch <> [] ->
  let s' := deliver_batch now batch s in
  events s' = rev batch ++ events s
  /\ control_of s'
     = {| c_status := isSessionActive s; c_added := functionAdded s;
          c_mounted := negb (crash_batch batch) |}
  /\ count is_registration (log s') = count is_registration (log s)
  /\ (crash_batch batch = false -> past_first_event s').
Proof.
  intros (Hm & Hev & Hdone) Hne. cbv zeta.
  destruct (deliver_batch_control now batch s Hm Hne) as (Hctl & Hcount & St).
  assert (Hcs : control_of s
                = {| c_status := isSessionActive s; c_added := functionAdded s;
                     c_mounted := true |})
    by (unfold control_of; rewrite Hm; reflexivity).
  rewrite (first_is_created_batch batch s Hm Hev), Hcs,
    (render_control_later _ _ _ _ _ Hdone) in Hctl, Hcount.
  cbn [fst snd] in Hctl, Hcount.
  pose proof (events_deliver_batch now batch s Hm) as Hevs.
  split_and!.
  - exact Hevs.
  - exact Hctl.
  - rewrite Hcount. case_match; lia.
  - intros Hok. rewrite Hok in Hctl. unfold past_first_event.
    split_and!.
    + apply (f_equal c_mounted) in Hctl. exact Hctl.
    + rewrite Hevs. intros H. apply app_eq_nil in H. apply Hev, H.
    + assert (Hfa : functionAdded (deliver_batch now batch s) = functionAdded s)
        by (apply (f_equal c_added) in Hctl; exact Hctl).
      rewrite Hfa. unfold first_is_created in *. rewrite Hevs.
      destruct (events s) as [|e0 evs] eqn:E; [contradiction|].
      rewrite last_app.
      destruct (last (e0 :: evs)) eqn:El; [exact Hdone|].
      apply last_None in El. discriminate.
Qed.

(** The rest of a session, from a page that is up and past its first
    messages. *)
Lemma later_run arrivals s :
  past_first_event s ->
  let s' := deliver_batches arrivals s in
  events s' = rev (concat (snd <$> until_crash arrivals)) ++ events s
  /\ control_of s'
     = {| c_status := isSessionActive s; c_added := functionAdded s;
          c_mounted := negb (existsb (fun arrival => crash_batch arrival.2) arrivals) |}
  /\ count is_registration (log s') = count is_registration (log s).
Proof.
  revert s. induction arrivals as [|[now batch] rest IH]; intros s Hs; cbv zeta.
  - simpl. destruct Hs as (Hm & _). unfold control_of. rewrite Hm. auto.
  - change (deliver_batches ((now, batch) :: rest) s)
      with (deliver_batches rest (deliver_batch now batch s)).
    destruct batch as [|e batch].
    + rewrite deliver_batch_nothing. destruct (IH s Hs) as (I1 & I2 & I3).
      simpl. auto.
    + destruct (deliver_batch_later now (e :: batch) s Hs) as (He & Hc & Hn & Hpast);
        [discriminate|].
      cbn [until_crash existsb snd fmap list_fmap concat].
      destruct (crash_batch (e :: batch)) eqn:Hcrash.
      * assert (Hm' : mounted (deliver_batch now (e :: batch) s) = false)
          by (apply (f_equal c_mounted) in Hc; exact Hc).
        rewrite (deliver_batches_unmounted rest _ Hm'). simpl.
        rewrite app_nil_r. auto.
      * destruct (IH _ (Hpast eq_refl)) as (I1 & I2 & I3).
        assert (Hst : isSessionActive (deliver_batch now (e :: batch) s) = isSessionActive s)
          by (apply (f_equal c_status) in Hc; exact Hc).
        assert (Hfa : functionAdded (deliver_batch now (e :: batch) s) = functionAdded s)
          by (apply (f_equal c_added) in Hc; exact Hc).
        rewrite I1, I2, I3, He, Hst, Hfa, Hn. simpl.
        rewrite rev_app_distr. repeat rewrite <- List.app_assoc. auto.
Qed.

(** A session, from the opening of its channel: what has been logged,
    whether the page is up, the flag, the status and the registrations. *)
Lemma session_run arrivals s :
  open_session s ->
  let s' := deliver_batches arrivals s in
  let registers := negb (functionAdded s) && first_created arrivals in
  events s' = rev (concat (snd <$> until_crash arrivals))
  /\ control_of s'
     = {| c_status := if registers && negb (crash_batch (first_batch arrivals))
                         && bool_decide (isSessionActive s = CONNECTING)
                      then CONNECTED else isSessionActive s;
          c_added := functionAdded s || first_created arrivals;
          c_mounted := negb (existsb (fun arrival => crash_batch arrival.2) arrivals) |}
  /\ count is_registration (log s')
     = (count is_registration (log s) + if registers then 1 else 0)%nat
  /\ (registers = true ->
      exists dc, dataChannel s = Some dc /\ In (send dc reviewCurrentPlan open) (log s')).
Proof.
  induction arrivals as [|[now batch] rest IH]; intros Hs; cbv zeta.
  - destruct Hs as (Hm & Hev & _). unfold first_created. simpl.
    rewrite andb_false_r, orb_false_r. unfold control_of. rewrite Hm, Hev.
    split_and!; [reflexivity|reflexivity|lia|discriminate].
  - change (deliver_batches ((now, batch) :: rest) s)
      with (deliver_batches rest (deliver_batch now batch s)).
    destruct batch as [|e batch].
    + rewrite deliver_batch_nothing. exact (IH Hs).
    + destruct (deliver_batch_first now e batch s Hs) as (He & Hc & Hn & Hin).
      cbv zeta in He, Hc, Hn, Hin.
      unfold first_created.
      cbn [until_crash existsb snd fmap list_fmap concat first_batch].
      set (created := String.eqb (type e) "session.created") in *.
      set (s1 := deliver_batch now (e :: batch) s) in *.
      assert (Hin' : negb (functionAdded s) && created = true ->
                     exists dc, dataChannel s = Some dc
                                /\ In (send dc reviewCurrentPlan open)
                                     (log (deliver_batches rest s1))).
      { intros Hreg. destruct (Hin Hreg) as (dc & Hdc & Hlog).
        exists dc. split; [exact Hdc|]. apply in_log_deliver_batches, Hlog. }
      destruct (crash_batch (e :: batch)) eqn:Hcrash.
      * assert (Hm' : mounted s1 = false) by (apply (f_equal c_mounted) in Hc; exact Hc).
        rewrite (deliver_batches_unmounted rest _ Hm') in *. simpl.
        rewrite app_nil_r. split_and!; assumption.
      * assert (Hpast : past_first_event s1).
        { unfold past_first_event. split_and!.
          - apply (f_equal c_mounted) in Hc. exact Hc.
          - rewrite He. simpl. intros H. apply app_eq_nil in H. destruct H; discriminate.
          - apply (f_equal c_added) in Hc. simpl in Hc. rewrite Hc.
            unfold first_is_created. rewrite He, last_rev. simpl. fold created.
            destruct created; [left; apply orb_true_r|right; reflexivity]. }
        destruct (later_run rest s1 Hpast) as (I1 & I2 & I3).
        assert (Hst : isSessionActive s1 = c_status (control_of s1)) by reflexivity.
        assert (Hfa : functionAdded s1 = c_added (control_of s1)) by reflexivity.
        rewrite Hc in Hst, Hfa. simpl in Hst, Hfa.
        rewrite I1, I2, I3, He, Hst, Hfa, Hn. simpl.
        split_and!; [|reflexivity|reflexivity|exact Hin'].
        rewrite rev_app_distr. repeat rewrite <- List.app_assoc. reflexivity.
Qed.

(** C3, as the code has it: in a session (from the opening of its data
    channel), whatever events arrive and however they are grouped
    between renders, the registration message is sent at most once.  It is
    sent exactly when the registration flag was not set as the channel
    opened and the first event that arrives is of type "session.created"
    (the effect looks at the oldest event of the log, not at whether such
    an event has arrived at all); it then is [reviewCurrentPlan], sent on
    the session's open channel. *)
Theorem registration_sent_once (s : chat) (arrivals : list (Z * list event)) :
  open_session s ->
  let registers := negb (functionAdded s) && first_created arrivals in
  let s' := deliver_batches arrivals s in
  count is_registration (log s')
  = (count is_registration (log s) + if registers then 1 else 0)%nat
  /\ (registers = true ->
      exists dc, dataChannel s = Some dc /\ In (send dc reviewCurrentPlan open) (log s')).
Proof.
  intros Hs. cbv zeta.
  destruct (session_run arrivals s Hs) as (_ & _ & Hcount & Hsent).
  split; [exact Hcount|exact Hsent].
Qed.

Lemma registration_sent_once_witness :
  let arrivals := [(20, [session_created]);
                   (30, [response_done [function_call "review_current_weekly_plan"
                                          (JObj {[ "user_feedback" := JStr "too hard" ]})];
                         session_created])] in
  open_session live_session
  /\ count is_registration (log (deliver_batches arrivals live_session)) = 1%nat
  /\ In (send 0%nat reviewCurrentPlan open) (log (deliver_batches arrivals live_session)).
Proof.
  intros arrivals.
  assert (Hopen : open_session live_session).
  { split_and!; try (vm_compute; reflexivity).
    exists 0%nat. split; vm_compute; reflexivity. }
  split; [exact Hopen|].
  destruct (registration_sent_once live_session arrivals Hopen) as [Hcount Hsent].
  split.
  - rewrite Hcount. vm_compute. reflexivity.
  - destruct (Hsent eq_refl) as (dc & Hdc & Hin).
    assert (dc = 0%nat) as -> by (vm_compute in Hdc; congruence).
    exact Hin.
Defined.

(** C3 as the specification words it fails when "session.created" is not
    the first event of the session: it has been received, nothing has been
    registered, and nothing is sent. *)
Lemma registration_missed_when_created_is_not_first :
  let s := deliver_all [(20, {| type := "input_audio_buffer.speech_started";
                                response := no_response |});
                        (30, session_created)] live_session in
  fresh_session live_session
  /\ head (events s) = Some session_created
  /\ functionAdded s = false
  /\ count is_registration (log s) = 0%nat.
Proof.
  cbv zeta. split.
  - split_and!; try (vm_compute; reflexivity).
    exists 0%nat. split; vm_compute; reflexivity.
  - split_and!; vm_compute; reflexivity.
Qed.

(** *** The newest event is handled at every render that finds it *)

Lemma timeouts_cache key value s : timeouts (cache key value s) = timeouts s.
Proof. destruct s; reflexivity. Qed.

Lemma timeouts_schedule t s : timeouts (schedule t s) = timeouts s ++ [t].
Proof. destruct s; reflexivity. Qed.

Lemma timeouts_setFunctionCallOutput v s : timeouts (setFunctionCallOutput v s) = timeouts s.
Proof. destruct s as [? ? ? ? ? ? [] ? ? ? ? ? ? ? ?]; reflexivity. Qed.

Lemma timeouts_setFunctionAdded v s : timeouts (setFunctionAdded v s) = timeouts s.
Proof. destruct s as [? ? ? ? ? ? [] ? ? ? ? ? ? ? ?]; reflexivity. Qed.

Lemma timeouts_unmount s : timeouts (unmount s) = timeouts s.
Proof. unfold unmount. destruct s as [? ? ? ? ? ? ? ? [id|] ? ? ? ? ? ?]; reflexivity. Qed.

Lemma localStorage_unmount s : localStorage (unmount s) = localStorage s.
Proof. unfold unmount. destruct s as [? ? ? ? ? ? ? ? [id|] ? ? ? ? ? ?]; reflexivity. Qed.

Lemma writes_unmount key s :
  count (is_write_of key) (log (unmount s)) = count (is_write_of key) (log s).
Proof.
  unfold unmount. destruct s as [? ? ? ? ? ? ? ? [id|] ? ? ? ? ? ?]; simpl; [|reflexivity].
  rewrite count_app. unfold count; simpl. lia.
Qed.

Lemma count_one p c : count p [c] = if p c then 1%nat else 0%nat.
Proof. unfold count. simpl. destruct (p c); reflexivity. Qed.

Lemma write_of_key k key v :
  is_write_of key (setItem k v) = bool_decide (Some k = Some key).
Proof.
  simpl. destruct (String.eqb_spec k key) as [->|Hne].
  - rewrite bool_decide_eq_true_2; reflexivity.
  - rewrite bool_decide_eq_false_2; [reflexivity|congruence].
Qed.

(** One item: one write under the key of its step and one follow-up on
    the channel of the render, unless its handling throws, which it does
    before anything is written. *)
Lemma item_handled now snap s o :
  (forall key,
      count (is_write_of key) (log (handle_output now snap s o).1)
      = (count (is_write_of key) (log s)
         + if negb (raises o) && is_step_of key o then 1 else 0)%nat)
  /\ timeouts (handle_output now snap s o).1
     = timeouts s
         ++ match (if raises o then None else followup_of o) with
            | Some stp => [{| delay := 500; captured := dataChannel snap; step := stp |}]
            | None => []
            end.
Proof.
  unfold handle_output, raises, is_step_of, followup_of, is_call, step_key, step_followup.
  destruct (String.eqb (item_type o) "function_call"); cbn [andb negb fst snd].
  2:{ split; [intros key; lia|rewrite app_nil_r; reflexivity]. }
  destruct (String.eqb_spec (name o) "review_current_weekly_plan") as [->|_];
    [|destruct (String.eqb_spec (name o) "adjust_exercise_plan") as [->|_];
      [|destruct (String.eqb_spec (name o) "confirm_final_plan") as [_|_]]];
    cbn [String.eqb Ascii.eqb Bool.eqb andb negb fst snd];
    try destruct (is_null (arguments o)); cbn [andb negb fst snd];
    (split;
     [intros key;
      repeat first [rewrite log_schedule|rewrite log_setFunctionCallOutput|rewrite log_cache];
      rewrite ?count_app, ?count_one, ?write_of_key; cbn [is_write_of];
      rewrite ?(bool_decide_eq_false_2 (None = Some key)) by discriminate; lia
     |repeat first [rewrite timeouts_schedule|rewrite timeouts_setFunctionCallOutput
                   |rewrite timeouts_cache];
      rewrite ?app_nil_r; reflexivity]).
Qed.

Lemma items_handled now snap outputs s :
  (forall key,
      count (is_write_of key) (log (forEach (handle_output now snap) outputs s).1)
      = (count (is_write_of key) (log s)
         + length (List.filter (is_step_of key) (handled outputs)))%nat)
  /\ timeouts (forEach (handle_output now snap) outputs s).1
     = timeouts s
         ++ ((fun stp => {| delay := 500; captured := dataChannel snap; step := stp |})
               <$> omap followup_of (handled outputs)).
Proof.
  revert s. induction outputs as [|o outputs IH]; intros s.
  - simpl. split; [intros key; lia|rewrite app_nil_r; reflexivity].
  - rewrite forEach_cons, returned_handle_output.
    destruct (item_handled now snap s o) as [Hw Ht].
    cbn [handled]. destruct (raises o) eqn:Hr; cbn [negb andb] in *.
    + simpl. split; [intros key; rewrite Hw; lia|rewrite Ht; reflexivity].
    + destruct (IH (handle_output now snap s o).1) as [IHw IHt]. split.
      * intros key. rewrite IHw, Hw. cbn [List.filter].
        destruct (is_step_of key o); simpl; lia.
      * rewrite IHt, Ht. cbn [omap list_omap]. rewrite <- List.app_assoc.
        destruct (followup_of o); reflexivity.
Qed.

Lemma newest_handled now snap s newest rest :
  events snap = newest :: rest ->
  (forall key,
      count (is_write_of key) (log (handle_most_recent now snap s))
      = (count (is_write_of key) (log s)
         + length (List.filter (is_step_of key) (calls_of newest)))%nat)
  /\ timeouts (handle_most_recent now snap s)
     = timeouts s
         ++ ((fun stp => {| delay := 500; captured := dataChannel snap; step := stp |})
               <$> omap followup_of (calls_of newest)).
Proof.
  intros He. unfold handle_most_recent, calls_of. rewrite He. simpl.
  destruct (String.eqb (type newest) "response.done").
  2:{ split; [intros key; simpl; lia|simpl; rewrite app_nil_r; reflexivity]. }
  destruct (response newest) as [| |outputs].
  - split; [intros key; rewrite writes_unmount; simpl; lia
           |rewrite timeouts_unmount; simpl; rewrite app_nil_r; reflexivity].
  - split; [intros key; simpl; lia|simpl; rewrite app_nil_r; reflexivity].
  - destruct (items_handled now snap outputs s) as [Hw Ht].
    destruct (forEach (handle_output now snap) outputs s) as [s1 []]; simpl in Hw, Ht.
    + split; assumption.
    + split; [intros key; rewrite writes_unmount; apply Hw
             |rewrite timeouts_unmount; exact Ht].
Qed.

(** With the tools registered, the render that follows a group of
    messages runs the second statement of the effect, once. *)
Lemma deliver_batch_registered now batch s :
  mounted s = true -> functionAdded s = true -> batch <> [] ->
  deliver_batch now batch s
  = handle_most_recent now (on_messages batch s) (on_messages batch s).
Proof.
  intros Hm Hfa Hne. set (s1 := on_messages batch s).
  destruct (on_messages_facts batch s Hm) as (He1 & Hc1 & Hd1 & Hch1 & Hl1 & _ & _ & Hch).
  specialize (Hch Hne). fold s1 in He1, Hc1, Hch.
  assert (Hm1 : mounted s1 = true)
    by (rewrite (proj2 (proj2 (control_fields _ _ Hc1))); exact Hm).
  assert (Hfa1 : functionAdded s1 = true)
    by (rewrite (proj1 (proj2 (control_fields _ _ Hc1))); exact Hfa).
  assert (Hgo : settled s s1 = false) by (unfold settled; rewrite Hch, Hm1; reflexivity).
  unfold deliver_batch, dispatch, renders. fold s1. rewrite rerender_S, Hgo, Hch.
  change (commit now message_deps s1) with (effect_choreography now s1 s1).
  assert (Hrun : effect_choreography now s1 s1 = handle_most_recent now s1 s1).
  { unfold effect_choreography. rewrite Hfa1.
    destruct (last (events s1)) as [firstEvent|] eqn:El; [reflexivity|].
    apply last_None in El. rewrite He1 in El. apply app_eq_nil in El.
    destruct El as [El _]. apply (f_equal (@rev event)) in El.
    rewrite rev_involutive in El. contradiction. }
  rewrite Hrun. apply rerender_settled.
  pose proof (control_handle_most_recent now s1 s1) as Hc.
  destruct (newest_raises s1).
  - unfold settled.
    change (mounted (handle_most_recent now s1 s1))
      with (c_mounted (control_of (handle_most_recent now s1 s1))).
    rewrite Hc. reflexivity.
  - apply settled_same; [apply (after_handle_most_recent now s1 s1)|].
    rewrite Hc. unfold control_of. rewrite Hm1. reflexivity.
Qed.

(** C1, as the code has it: the choreography keeps no record of the steps
    it has handled, and looks at the newest event of the log only.
    Whatever the session has handled before, once the tools are
    registered the render that follows the arrival of one or more events
    handles the function calls of the newest of them: each call of one of
    the three steps in its output list, up to the first whose handling
    throws, writes that step's Cached Result (once more) and schedules
    that step's follow-up (once more) on the channel of the render.  The
    events that arrived before the newest in the same group are put on
    the log and never handled. *)
Theorem newest_event_handled_at_every_render (now : Z) (s : chat) (older : list event)
    (newest : event) :
  mounted s = true -> functionAdded s = true ->
  let s' := deliver_batch now (older ++ [newest]) s in
  (forall key,
      count (is_write_of key) (log s')
      = (count (is_write_of key) (log s)
         + length (List.filter (is_step_of key) (calls_of newest)))%nat)
  /\ timeouts s'
     = timeouts s
         ++ ((fun stp => {| delay := 500; captured := dataChannel s; step := stp |})
               <$> omap followup_of (calls_of newest))
  /\ events s' = newest :: rev older ++ events s.
Proof.
  intros Hm Hfa. cbv zeta.
  assert (Hne : older ++ [newest] <> [])
    by (intros H; apply app_eq_nil in H; destruct H; discriminate).
  destruct (on_messages_facts (older ++ [newest]) s Hm)
    as (He1 & _ & Hd1 & _ & Hl1 & Ht1 & _).
  rewrite rev_unit in He1. simpl in He1.
  rewrite (deliver_batch_registered now _ s Hm Hfa Hne).
  destruct (newest_handled now _ (on_messages (older ++ [newest]) s) _ _ He1) as [Hw Ht].
  split_and!.
  - intros key. rewrite Hw, Hl1. reflexivity.
  - rewrite Ht, Ht1, Hd1. reflexivity.
  - pose proof (proj1 (after_handle_most_recent now (on_messages (older ++ [newest]) s)
                         (on_messages (older ++ [newest]) s))) as St.
    unfold stable in St. rewrite <- He1. congruence.
Qed.

Lemma newest_event_handled_at_every_render_witness :
  let duplicate := response_done [function_call "review_current_weekly_plan" too_hard] in
  let s' := deliver_batch 50 [duplicate; session_created; duplicate] adjusted_session in
  count (is_write_of "lastReviewPlan") (log s')
  = S (count (is_write_of "lastReviewPlan") (log adjusted_session))
  /\ length (timeouts s') = S (length (timeouts adjusted_session)).
Proof.
  cbv zeta.
  destruct (newest_event_handled_at_every_render 50 adjusted_session
              [response_done [function_call "review_current_weekly_plan" too_hard];
               session_created]
              (response_done [function_call "review_current_weekly_plan" too_hard]))
    as (Hw & Ht & _).
  - vm_compute. reflexivity.
  - vm_compute. reflexivity.
  - specialize (Hw "lastReviewPlan"). cbn [app] in Hw, Ht. split.
    + rewrite Hw. vm_compute. reflexivity.
    + rewrite Ht, length_app. vm_compute. reflexivity.
Defined.

(** C1 as the specification words it fails: with the adjustment step
    already handled, a second "response.done" carrying the review call
    writes [lastReviewPlan] a second time and schedules a second follow-up,
    and both follow-ups are sent when their delays elapse. *)
Lemma duplicate_review_is_written_and_sent_again :
  let duplicate := response_done [function_call "review_current_weekly_plan" too_hard] in
  let s := deliver 50 duplicate adjusted_session in
  count (is_write_of "lastReviewPlan") (log adjusted_session) = 1%nat
  /\ count (is_write_of "lastExerciseAdjustment") (log adjusted_session) = 1%nat
  /\ count (is_write_of "lastReviewPlan") (log s) = 2%nat
  /\ count (is_followup_of discuss_adjustment) (log s) = 2%nat
  /\ count (is_sent_instruction discuss_adjustment) (log (fire 0 (fire 0 (fire 0 s)))) = 2%nat.
Proof. cbv zeta. split_and!; vm_compute; reflexivity. Qed.

(** *** Stopping *)

Lemma stopSession_facts s :
  mounted s = true ->
  let s1 := stopSession (dataChannel s) s in
  control_of s1
  = {| c_status := DISCONNECTED; c_added := functionAdded s; c_mounted := true |}
  /\ dataChannel s1 = None /\ peerConnection s1 = None
  /\ events s1 = events s /\ timeouts s1 = timeouts s
  /\ intervals s1 = intervals s /\ intervalRef s1 = intervalRef s
  /\ channels s1 = match dataChannel s with
                   | Some dc => <[dc := closed]> (channels s)
                   | None => channels s
                   end
  /\ peers s1 = match peerConnection s with
                | Some pc => <[pc := gone]> (peers s)
                | None => peers s
                end.
Proof.
  intros Hm. destruct s as [st evs [dc|] fa fo sp mo [pc|] ir ls chs ps ivs tos lg];
    simpl in *; subst mo; repeat split.
Qed.


Lemma commit_control_disconnected d created can raises c :
  c_status c = DISCONNECTED ->
  c_status (commit_control d created can raises c) = DISCONNECTED.
Proof.
  destruct c as [st fa mo]; simpl. intros ->. unfold commit_control; simpl.
  rewrite andb_false_r. reflexivity.
Qed.

Lemma rerender_disconnected fuel now prev s :
  isSessionActive s = DISCONNECTED ->
  isSessionActive (rerender fuel now prev s) = DISCONNECTED.
Proof.
  revert prev s. induction fuel as [|fuel IH]; intros prev s Hst; [exact Hst|].
  rewrite rerender_S. destruct (settled prev s) eqn:E; [exact Hst|].
  apply IH.
  change (isSessionActive (commit now (changed prev s) s))
    with (c_status (control_of (commit now (changed prev s) s))).
  rewrite (control_commit _ _ _ (settled_false _ _ E)).
  apply commit_control_disconnected, Hst.
Qed.

(** Where a send would return, rendering neither takes the page down nor
    touches the intervals. *)
Lemma intervals_cache key value s : intervals (cache key value s) = intervals s.
Proof. destruct s; reflexivity. Qed.

Lemma intervals_schedule t s : intervals (schedule t s) = intervals s.
Proof. destruct s; reflexivity. Qed.

Lemma intervals_setFunctionCallOutput v s : intervals (setFunctionCallOutput v s) = intervals s.
Proof. destruct s as [? ? ? ? ? ? [] ? ? ? ? ? ? ? ?]; reflexivity. Qed.

Lemma intervals_handle_output now snap s o :
  intervals (handle_output now snap s o).1 = intervals s.
Proof.
  branches;
    repeat first [rewrite intervals_schedule|rewrite intervals_setFunctionCallOutput
                 |rewrite intervals_cache];
    reflexivity.
Qed.

Lemma intervals_outputs now snap outputs s :
  intervals (forEach (handle_output now snap) outputs s).1 = intervals s.
Proof.
  revert s. induction outputs as [|o outputs IH]; intros s; [reflexivity|].
  rewrite forEach_cons.
  destruct (handle_output now snap s o).2; [rewrite IH|]; apply intervals_handle_output.
Qed.

Lemma intervals_setFunctionAdded v s : intervals (setFunctionAdded v s) = intervals s.
Proof. destruct s as [? ? ? ? ? ? [] ? ? ? ? ? ? ? ?]; reflexivity. Qed.

Lemma intervals_setIsSessionActive v s : intervals (setIsSessionActive v s) = intervals s.
Proof. destruct s as [? ? ? ? ? ? [] ? ? ? ? ? ? ? ?]; reflexivity. Qed.

Lemma intervals_record c s : intervals (record c s) = intervals s.
Proof. destruct s; reflexivity. Qed.

Lemma intervals_handle_most_recent now snap s :
  newest_raises snap = false ->
  intervals (handle_most_recent now snap s) = intervals s.
Proof.
  unfold handle_most_recent, newest_raises, event_raises.
  destruct (head (events snap)) as [e|]; [|reflexivity].
  destruct (String.eqb (type e) "response.done"); [|reflexivity]. simpl.
  destruct (response e) as [| |outputs]; [discriminate|reflexivity|].
  intros Hok.
  pose proof (returned_outputs now snap outputs s) as Hr.
  pose proof (intervals_outputs now snap outputs s) as Hi.
  destruct (forEach (handle_output now snap) outputs s) as [s1 returned].
  simpl in Hr, Hi. rewrite Hr, Hok. exact Hi.
Qed.

Lemma intervals_effect_choreography now snap s :
  can_send (dataChannel snap) s = true -> newest_raises snap = false ->
  intervals (effect_choreography now snap s) = intervals s.
Proof.
  unfold effect_choreography, try_send, can_send. intros Hcan Hok.
  destruct (last (events snap)) as [firstEvent|]; [|reflexivity].
  destruct (negb (functionAdded snap) && String.eqb (type firstEvent) "session.created").
  - destruct (dataChannel snap) as [dc|]; simpl.
    + rewrite Hcan. simpl.
      rewrite (intervals_handle_most_recent _ _ _ Hok), intervals_setFunctionAdded,
        intervals_record. reflexivity.
    + rewrite (intervals_handle_most_recent _ _ _ Hok), intervals_setFunctionAdded.
      reflexivity.
  - simpl. apply intervals_handle_most_recent, Hok.
Qed.

Lemma intervals_commit now d s :
  sendable s = true -> newest_raises s = false ->
  intervals (commit now d s) = intervals s.
Proof.
  unfold commit, sendable. intros Hcan Hok.
  assert (H1 : forall b : bool, intervals (if b then effect_connected s s else s) = intervals s).
  { intros b; destruct b; [|reflexivity]. unfold effect_connected.
    case_match; [apply intervals_setIsSessionActive|reflexivity]. }
  assert (Hcan1 : forall b : bool, can_send (dataChannel s) (if b then effect_connected s s else s)
                            = true).
  { intros b; destruct b; [|exact Hcan].
    rewrite (can_send_stable _ _ _ (proj1 (after_effect_connected s s))). exact Hcan. }
  destruct d as [dS dE dC dA]; simpl.
  set (s1 := if dA || dS then effect_connected s s else s).
  set (s2 := if dE || dA || dC then effect_choreography now s s1 else s1).
  assert (H2 : intervals s2 = intervals s).
  { subst s2. destruct (dE || dA || dC); [|apply H1].
    rewrite intervals_effect_choreography; [apply H1|apply Hcan1|exact Hok]. }
  destruct dS; [|exact H2].
  unfold effect_reset.
  destruct (bool_decide (isSessionActive s = DISCONNECTED)); [|exact H2].
  rewrite intervals_setFunctionCallOutput, intervals_setFunctionAdded. exact H2.
Qed.

Lemma commit_control_sendable d created c :
  c_mounted c = true -> c_mounted (commit_control d created true false c) = true.
Proof.
  destruct c as [st fa mo]; simpl. intros ->. unfold commit_control, crashes; simpl.
  rewrite !andb_false_r. reflexivity.
Qed.

(** Where a send would return and the newest event is handled without an
    exception, rendering neither takes the page down nor touches the
    intervals. *)
Lemma rerender_sendable fuel now prev s :
  sendable s = true -> newest_raises s = false -> mounted s = true ->
  mounted (rerender fuel now prev s) = true
  /\ intervals (rerender fuel now prev s) = intervals s.
Proof.
  revert prev s. induction fuel as [|fuel IH]; intros prev s Hcan Hok Hm; [split; auto|].
  rewrite rerender_S. destruct (settled prev s) eqn:E; [split; auto|].
  pose proof (proj1 (after_commit now (changed prev s) s)) as St.
  destruct (IH s (commit now (changed prev s) s)) as [IH1 IH2].
  - rewrite (sendable_stable _ _ St). exact Hcan.
  - rewrite (newest_raises_stable _ _ St). exact Hok.
  - change (mounted (commit now (changed prev s) s))
      with (c_mounted (control_of (commit now (changed prev s) s))).
    rewrite (control_commit _ _ _ Hm), Hcan, Hok. apply commit_control_sendable. exact Hm.
  - split; [exact IH1|]. rewrite IH2. apply intervals_commit; assumption.
Qed.

Lemma closed_after_insert (chs : list readyState) dc :
  default closed (<[dc := closed]> chs !! dc) = closed.
Proof.
  destruct (decide (dc < length chs)%nat) as [Hlt|Hge].
  - rewrite list_lookup_insert_eq by exact Hlt. reflexivity.
  - rewrite list_insert_ge by lia. rewrite lookup_ge_None_2 by lia. reflexivity.
Qed.

Lemma gone_after_insert (ps : list liveness) pc : <[pc := gone]> ps !! pc <> Some live.
Proof.
  destruct (decide (pc < length ps)%nat) as [Hlt|Hge].
  - rewrite list_lookup_insert_eq by exact Hlt. discriminate.
  - rewrite list_insert_ge by lia. rewrite lookup_ge_None_2 by lia. discriminate.
Qed.

(** What [stop] leaves behind. *)
Lemma stop_facts now s :
  mounted s = true ->
  let s' := stop now s in
  isSessionActive s' = DISCONNECTED
  /\ dataChannel s' = None /\ peerConnection s' = None
  /\ (forall dc, dataChannel s = Some dc -> channel_state s' dc = closed)
  /\ (forall pc, peerConnection s = Some pc -> peers s' !! pc <> Some live)
  /\ (forall dc, dataChannel s <> Some dc -> channel_state s' dc = channel_state s dc)
  /\ (forall pc, peerConnection s <> Some pc -> peers s' !! pc = peers s !! pc)
  /\ intervalRef s' = intervalRef s
  /\ timeouts s `prefix_of` timeouts s'
  /\ (newest_raises s = false -> mounted s' = true /\ intervals s' = intervals s).
Proof.
  intros Hm. cbv zeta. unfold stop, dispatch.
  destruct (stopSession_facts s Hm) as (Hc & Hd & Hp & He & Ht & Hi & Hr & Hch & Hps).
  set (s1 := stopSession (dataChannel s) s) in *.
  destruct (after_rerender renders now s s1) as (St & Hpre & _).
  assert (Hm1 : mounted s1 = true) by (apply (f_equal c_mounted) in Hc; exact Hc).
  assert (Hst1 : isSessionActive s1 = DISCONNECTED)
    by (apply (f_equal c_status) in Hc; exact Hc).
  assert (Hcan : sendable s1 = true) by (unfold sendable; rewrite Hd; reflexivity).
  unfold stable in St.
  split_and!.
  - apply rerender_disconnected, Hst1.
  - congruence.
  - congruence.
  - intros dc Hdc. unfold channel_state.
    replace (channels (rerender renders now s s1)) with (channels s1) by congruence.
    rewrite Hch, Hdc. apply closed_after_insert.
  - intros pc Hpc.
    replace (peers (rerender renders now s s1)) with (peers s1) by congruence.
    rewrite Hps, Hpc. apply gone_after_insert.
  - intros dc Hne. unfold channel_state.
    replace (channels (rerender renders now s s1)) with (channels s1) by congruence.
    rewrite Hch. destruct (dataChannel s) as [dc0|]; [|reflexivity].
    rewrite list_lookup_insert_ne by congruence. reflexivity.
  - intros pc Hne.
    replace (peers (rerender renders now s s1)) with (peers s1) by congruence.
    rewrite Hps. destruct (peerConnection s) as [pc0|]; [|reflexivity].
    apply list_lookup_insert_ne. congruence.
  - congruence.
  - rewrite <- Ht. exact Hpre.
  - intros Hok.
    assert (Hok1 : newest_raises s1 = false)
      by (unfold newest_raises; rewrite He; exact Hok).
    destruct (rerender_sendable renders now s s1 Hcan Hok1 Hm1) as [Hm' Hi'].
    split; [exact Hm'|congruence].
Qed.





(** *** Follow-ups that fire after a stop *)

Lemma log_fire i s t :
  timeouts s !! i = Some t ->
  log (fire i s)
  = log s
      ++ match captured t with
         | Some dc => [send dc (response_create (instructions_of (step t))) (channel_state s dc)]
         | None => []
         end
      ++ match step t with
         | farewell_and_monitor =>
             if can_send (captured t) s then [arm_monitor (captured t)] else []
         | _ => []
         end.
Proof.
  intros Ht. unfold fire. rewrite Ht.
  destruct s as [st evs dch fa fo sp mo pc ir ls chs ps ivs tos lg].
  destruct t as [dl [dc|] stp]; unfold try_send, can_send, channel_state, record; simpl.
  - destruct (bool_decide (default closed (chs !! dc) = open)), stp; simpl;
      rewrite <- ?List.app_assoc, ?app_nil_r; reflexivity.
  - destruct stp; simpl; rewrite ?app_nil_r; reflexivity.
Qed.

(** C7, as the code has it: [stop()] does not cancel a pending follow-up.
    It stays pending, and when its delay elapses its callback sends on the
    channel its closure captured, without a look at the session: where
    that is the channel [stop()] has closed, the send is attempted on the
    closed channel.  Only a callback that captured no channel sends
    nothing. *)
Theorem followup_fires_after_stop (now : Z) (s : chat) (i : nat) (t : timeout) :
  mounted s = true ->
  timeouts s !! i = Some t ->
  let s' := stop now s in
  timeouts s' !! i = Some t
  /\ (forall dc, captured t = Some dc -> dataChannel s = Some dc ->
      channel_state s' dc = closed
      /\ log (fire i s')
         = log s' ++ [send dc (response_create (instructions_of (step t))) closed])
  /\ (captured t = None -> count is_instruction (log (fire i s')) = count is_instruction (log s')).
Proof.
  intros Hm Ht. cbv zeta.
  destruct (stop_facts now s Hm) as (Hst & Hd & Hp & Hch & Hps & _ & _ & Hr & Hpre & _).
  assert (Ht' : timeouts (stop now s) !! i = Some t)
    by (eapply prefix_lookup_Some; eassumption).
  split; [exact Ht'|]. split.
  - intros dc Hcap Hdc. split; [apply Hch, Hdc|].
    rewrite (log_fire i _ t Ht'), Hcap. unfold can_send. rewrite (Hch dc Hdc). simpl.
    destruct (step t); reflexivity.
  - intros Hcap. rewrite (log_fire i _ t Ht'), Hcap. simpl.
    rewrite count_app. destruct (step t); unfold count; simpl; lia.
Qed.

Lemma followup_fires_after_stop_witness :
  let t := {| delay := 500; captured := Some 0%nat; step := discuss_adjustment |} in
  let s' := stop 60 reviewed_session in
  timeouts s' !! 0%nat = Some t
  /\ channel_state s' 0 = closed
  /\ log (fire 0 s')
     = log s' ++ [send 0 (response_create (instructions_of discuss_adjustment)) closed].
Proof.
  intros t s'.
  destruct (followup_fires_after_stop 60 reviewed_session 0 t) as (H1 & H2 & _).
  - vm_compute. reflexivity.
  - vm_compute. reflexivity.
  - split; [exact H1|]. apply (H2 0%nat); vm_compute; reflexivity.
Defined.

(** C7 as the specification words it fails: the follow-up of the review
    step, still pending when the session is stopped, attempts its send on
    the closed channel when it fires. *)
Lemma pending_followup_sends_on_closed_channel :
  let s := stop 60 reviewed_session in
  isSessionActive s = DISCONNECTED /\ dataChannel s = None
  /\ channel_state s 0 = closed
  /\ count is_failed_send (log s) = 0%nat
  /\ log (fire 0 s)
     = log s ++ [send 0 (response_create (instructions_of discuss_adjustment)) closed].
Proof. cbv zeta. split_and!; vm_compute; reflexivity. Qed.

(** *** Starting a session *)

Lemma set_isSessionActive_same s : set_isSessionActive (isSessionActive s) s = s.
Proof. destruct s; reflexivity. Qed.

Lemma set_isSessionActive_twice v w s :
  set_isSessionActive v (set_isSessionActive w s) = set_isSessionActive v s.
Proof. destruct s; reflexivity. Qed.

Lemma changed_set_isSessionActive v s :
  changed s (set_isSessionActive v s)
  = {| d_status := bool_decide (isSessionActive s <> v); d_events := false;
       d_channel := false; d_added := false |}.
Proof.
  destruct s as [st evs dc fa fo sp mo pc ir ls chs ps ivs tos lg].
  unfold changed; simpl. rewrite Nat.eqb_refl.
  rewrite (bool_decide_eq_false_2 (dc <> dc)) by (intros H; apply H; reflexivity).
  destruct fa; reflexivity.
Qed.

(** A render in which only the status changed, away from Disconnected,
    changes at most the status. *)
Lemma rerender_status_only fuel now prev s :
  isSessionActive s <> DISCONNECTED ->
  d_events (changed prev s) = false -> d_channel (changed prev s) = false ->
  d_added (changed prev s) = false ->
  exists st, rerender fuel now prev s = set_isSessionActive st s.
Proof.
  revert prev s. induction fuel as [|fuel IH]; intros prev s Hst He Hc Ha.
  { exists (isSessionActive s). symmetry. apply set_isSessionActive_same. }
  rewrite rerender_S. destruct (settled prev s) eqn:E.
  { exists (isSessionActive s). symmetry. apply set_isSessionActive_same. }
  pose proof (settled_false _ _ E) as Hm.
  assert (Hcommit : exists st, st <> DISCONNECTED
                               /\ commit now (changed prev s) s = set_isSessionActive st s).
  { set (d := changed prev s) in *. clearbody d.
    unfold commit. rewrite He, Hc, Ha. simpl.
    assert (Hconn : exists st, st <> DISCONNECTED
                               /\ effect_connected s s = set_isSessionActive st s).
    { unfold effect_connected, setIsSessionActive. rewrite Hm.
      destruct (functionAdded s && bool_decide (isSessionActive s = CONNECTING)).
      - exists CONNECTED. split; [discriminate|reflexivity].
      - exists (isSessionActive s). split; [exact Hst|].
        symmetry. apply set_isSessionActive_same. }
    destruct (d_status d).
    - unfold effect_reset.
      rewrite (bool_decide_eq_false_2 (isSessionActive s = DISCONNECTED)) by exact Hst.
      exact Hconn.
    - exists (isSessionActive s). split; [exact Hst|].
      symmetry. apply set_isSessionActive_same. }
  destruct Hcommit as (st & Hne & ->).
  destruct (IH s (set_isSessionActive st s)) as (st' & Hst').
  - destruct s; exact Hne.
  - rewrite changed_set_isSessionActive. reflexivity.
  - rewrite changed_set_isSessionActive. reflexivity.
  - rewrite changed_set_isSessionActive. reflexivity.
  - exists st'. rewrite Hst'. apply set_isSessionActive_twice.
Qed.

(** Line 362 and the render that follows it. *)
Lemma begin_facts now s :
  mounted s = true ->
  let s1 := dispatch now (setIsSessionActive CONNECTING) s in
  mounted s1 = true /\ stable s1 = stable s /\ log s1 = log s.
Proof.
  intros Hm. cbv zeta. unfold dispatch, setIsSessionActive. rewrite Hm.
  destruct (rerender_status_only renders now s (set_isSessionActive CONNECTING s))
    as (st & ->).
  - destruct s; discriminate.
  - rewrite changed_set_isSessionActive. reflexivity.
  - rewrite changed_set_isSessionActive. reflexivity.
  - rewrite changed_set_isSessionActive. reflexivity.
  - rewrite set_isSessionActive_twice. destruct s; simpl in *. auto.
Qed.

(** The [catch] block and the render that follows it. *)
Lemma fail_facts now message s :
  mounted s = true ->
  let s' := fail now message s in
  isSessionActive s' = DISCONNECTED /\ stable s' = stable s
  /\ exists extra,
       log s' = log s ++ [alert ("Failed to start session: " +:+ message)] ++ extra
       /\ forallb effect_call extra = true.
Proof.
  intros Hm. cbv zeta. unfold fail, dispatch.
  set (s1 := on_error message s).
  assert (H1 : isSessionActive s1 = DISCONNECTED /\ stable s1 = stable s
               /\ log s1 = log s ++ [alert ("Failed to start session: " +:+ message)]).
  { subst s1. unfold on_error, setIsSessionActive. rewrite Hm.
    destruct s; simpl. auto. }
  destruct H1 as (Hst & St1 & Hl1).
  destruct (after_rerender renders now s s1) as (St & _ & extra & Hl & Hextra).
  split; [apply rerender_disconnected, Hst|]. split; [congruence|].
  exists extra. split; [|exact Hextra].
  rewrite Hl, Hl1, <- List.app_assoc. reflexivity.
Qed.

Lemma credential_fails r :
  ok r = false \/ (exists data, json_body r = Some data /\ client_secret_value data = None) ->
  exists message,
    credential r = inl message
    /\ (ok r = false -> message = "Failed to get token")
    /\ (ok r = true -> json_body r <> Some JNull -> message = "Invalid token response").
Proof.
  unfold credential. destruct (ok r); simpl.
  - intros [Hno|(data & Hbody & Hlack)]; [discriminate|]. rewrite Hbody.
    destruct data; try rewrite Hlack; eexists;
      (split; [reflexivity|split; [discriminate|]]);
      intros _ Hnull; try reflexivity; exfalso; apply Hnull; reflexivity.
  - intros _. eexists. split; [reflexivity|]. split; [reflexivity|discriminate].
Qed.

Lemma record_facts c s :
  mounted (record c s) = mounted s /\ stable (record c s) = stable s.
Proof. destruct s; split; reflexivity. Qed.

Lemma startSession_no_credential now env s r message :
  token_fetch env = Some r -> credential r = inl message ->
  startSession now env s
  = fail now message
      (record (fetch "/token" None) (dispatch now (setIsSessionActive CONNECTING) s)).
Proof. intros H1 H2. unfold startSession. rewrite H1, H2. reflexivity. Qed.

Lemma startSession_no_microphone now env s r key :
  token_fetch env = Some r -> credential r = inr key -> microphone env = false ->
  startSession now env s
  = fail now "Microphone access denied"
      (record getUserMedia
         (record (fetch "/token" None) (dispatch now (setIsSessionActive CONNECTING) s))).
Proof. intros H1 H2 H3. unfold startSession. rewrite H1, H2, H3. reflexivity. Qed.

(** C4: when the token request answers with a non-success status, or with
    a body that lacks [client_secret.value], [startSession] ends
    Disconnected, the error is shown to the user, and nothing but the
    token request has been made: no microphone request, no peer
    connection, no data channel. *)
Theorem start_fails_without_credential (now : Z) (env : environment) (s : chat)
    (r : token_response) :
  mounted s = true ->
  token_fetch env = Some r ->
  ok r = false \/ (exists data, json_body r = Some data /\ client_secret_value data = None) ->
  let s' := startSession now env s in
  isSessionActive s' = DISCONNECTED
  /\ (exists message extra,
        credential r = inl message
        /\ (ok r = false -> message = "Failed to get token")
        /\ (ok r = true -> json_body r <> Some JNull -> message = "Invalid token response")
        /\ log s' = log s ++ [fetch "/token" None;
                              alert ("Failed to start session: " +:+ message)] ++ extra
        /\ forallb effect_call extra = true)
  /\ peers s' = peers s /\ channels s' = channels s
  /\ peerConnection s' = peerConnection s /\ dataChannel s' = dataChannel s.
Proof.
  intros Hm Htok Hbad. cbv zeta.
  destruct (credential_fails r Hbad) as (message & Hcred & Hmsg1 & Hmsg2).
  destruct (begin_facts now s Hm) as (Hm1 & St1 & Hl1).
  rewrite (startSession_no_credential now env s r message Htok Hcred).
  set (s1 := dispatch now (setIsSessionActive CONNECTING) s) in *.
  destruct (record_facts (fetch "/token" None) s1) as (Hm2 & St2).
  destruct (fail_facts now message (record (fetch "/token" None) s1))
    as (Hst & St3 & extra & Hl3 & Hextra); [congruence|].
  assert (St : stable (fail now message (record (fetch "/token" None) s1)) = stable s)
    by congruence.
  split; [exact Hst|]. split.
  - exists message, extra. split_and!; try assumption.
    rewrite Hl3, log_record, Hl1, <- !List.app_assoc. reflexivity.
  - unfold stable in St. split_and!; congruence.
Qed.

Lemma start_fails_without_credential_witness :
  let s' := startSession 0 token_http_500 initial in
  isSessionActive s' = DISCONNECTED
  /\ peers s' = [] /\ channels s' = []
  /\ peerConnection s' = None /\ dataChannel s' = None.
Proof.
  cbv zeta.
  destruct (start_fails_without_credential 0 token_http_500 initial
              {| ok := false; json_body := Some (JObj {[ "error" := JStr "x" ]}) |})
    as (H1 & _ & H3 & H4 & H5 & H6).
  - reflexivity.
  - reflexivity.
  - left. reflexivity.
  - split_and!; assumption.
Defined.

(** C5, as the code has it: the token request comes first.  When the
    credential has been obtained and microphone access is denied,
    [startSession] ends Disconnected with the error "Microphone access
    denied" shown to the user, having made the token request and the
    microphone request and nothing else: no peer connection, no data
    channel, no offer/answer exchange. *)
Theorem microphone_denied_after_token (now : Z) (env : environment) (s : chat)
    (r : token_response) (EPHEMERAL_KEY : json) :
  mounted s = true ->
  token_fetch env = Some r ->
  credential r = inr EPHEMERAL_KEY ->
  microphone env = false ->
  let s' := startSession now env s in
  isSessionActive s' = DISCONNECTED
  /\ (exists extra,
        log s' = log s ++ [fetch "/token" None; getUserMedia;
                           alert "Failed to start session: Microphone access denied"]
                   ++ extra
        /\ forallb effect_call extra = true)
  /\ peers s' = peers s /\ channels s' = channels s
  /\ peerConnection s' = peerConnection s /\ dataChannel s' = dataChannel s.
Proof.
  intros Hm Htok Hcred Hmic. cbv zeta.
  destruct (begin_facts now s Hm) as (Hm1 & St1 & Hl1).
  rewrite (startSession_no_microphone now env s r EPHEMERAL_KEY Htok Hcred Hmic).
  set (s1 := dispatch now (setIsSessionActive CONNECTING) s) in *.
  destruct (record_facts (fetch "/token" None) s1) as (Hm2 & St2).
  set (s2 := record (fetch "/token" None) s1) in *.
  destruct (record_facts getUserMedia s2) as (Hm3 & St3).
  destruct (fail_facts now "Microphone access denied" (record getUserMedia s2))
    as (Hst & St4 & extra & Hl4 & Hextra); [congruence|].
  assert (St : stable (fail now "Microphone access denied" (record getUserMedia s2))
               = stable s) by congruence.
  split; [exact Hst|]. split.
  - exists extra. split; [|exact Hextra].
    rewrite Hl4, log_record. subst s2. rewrite log_record, Hl1, <- !List.app_assoc.
    reflexivity.
  - unfold stable in St. split_and!; congruence.
Qed.

Lemma microphone_denied_after_token_witness :
  let s' := startSession 0 microphone_refused initial in
  isSessionActive s' = DISCONNECTED
  /\ peers s' = [] /\ channels s' = []
  /\ peerConnection s' = None /\ dataChannel s' = None.
Proof.
  cbv zeta.
  destruct (microphone_denied_after_token 0 microphone_refused initial
              {| ok := true;
                 json_body := Some (JObj {[ "client_secret" :=
                                              JObj {[ "value" := JStr "ek_test" ]} ]}) |}
              (JStr "ek_test"))
    as (H1 & _ & H3 & H4 & H5 & H6).
  - reflexivity.
  - reflexivity.
  - vm_compute. reflexivity.
  - reflexivity.
  - split_and!; assumption.
Defined.

(** C5 as the specification words it fails: with microphone access denied
    the token request has already been made when the microphone is asked
    for. *)
Lemma token_is_requested_before_microphone :
  microphone microphone_refused = false
  /\ log (startSession 0 microphone_refused initial)
     = [fetch "/token" None; getUserMedia;
        alert "Failed to start session: Microphone access denied"]
  /\ count is_network (log (startSession 0 microphone_refused initial)) = 1%nat.
Proof. split_and!; vm_compute; reflexivity. Qed.

End ChatProps.

(** * Further properties of the code *)

(** ** The server routes *)
Module ServerMore.
Import Server.

(** X1.  [/api-env] discloses the three variables it names and nothing else: a
    property of the body is the value of the variable of that name when it
    is one of the three and set, and absent otherwise. *)
Theorem api_env_body_exact (env : gmap string string) (request : request) (k : string) :
  prop k (body (api_env env request))
  = if bool_decide (k ∈ ["OPENAI_API_KEY"; "NODE_ENV"; "PORT"])
    then JStr <$> env !! k
    else None.
Proof.
  unfold api_env, getenv; simpl.
  destruct (decide (k = "OPENAI_API_KEY")) as [->|H1];
    [|destruct (decide (k = "NODE_ENV")) as [->|H2];
      [|destruct (decide (k = "PORT")) as [->|H3]]].
  - rewrite bool_decide_eq_true_2 by (apply list_elem_of_In; simpl; auto).
    destruct (env !! "OPENAI_API_KEY"); simpl; [apply lookup_insert_eq|].
    destruct (env !! "NODE_ENV"), (env !! "PORT"); simpl;
      rewrite ?lookup_insert_ne by discriminate; apply lookup_empty.
  - rewrite bool_decide_eq_true_2 by (apply list_elem_of_In; simpl; auto).
    destruct (env !! "OPENAI_API_KEY"), (env !! "NODE_ENV"), (env !! "PORT"); simpl;
      rewrite ?lookup_insert_ne by discriminate;
      first [apply lookup_insert_eq|apply lookup_empty].
  - rewrite bool_decide_eq_true_2 by (apply list_elem_of_In; simpl; auto).
    destruct (env !! "OPENAI_API_KEY"), (env !! "NODE_ENV"), (env !! "PORT"); simpl;
      rewrite ?lookup_insert_ne by discriminate;
      first [apply lookup_insert_eq|apply lookup_empty].
  - rewrite bool_decide_eq_false_2
      by (intros Hin; apply list_elem_of_In in Hin; simpl in Hin; intuition congruence).
    destruct (env !! "OPENAI_API_KEY"), (env !! "NODE_ENV"), (env !! "PORT"); simpl;
      rewrite ?lookup_insert_ne by congruence; apply lookup_empty.
Qed.

(** X2.  [/token] answers exactly when the instructions were generated, the
    upstream call returned and its body could be read; the answer then is
    the upstream body under status 200.  In every other case the error is
    thrown on, and what the client sent plays no part. *)
Theorem token_answers_iff (gi : outcome json)
    (fetch : upstream_request -> outcome upstream_response)
    (env : gmap string string) (request : request) (rep : reply) :
  (token gi fetch env request = Returned rep
   <-> exists config r bodyText,
         gi = Returned config
         /\ fetch (sessions_request env config) = Returned r
         /\ up_body r = Some bodyText
         /\ rep = {| status := 200; content_type := "application/json"; body := bodyText |})
  /\ (forall e, gi = Thrown e -> token gi fetch env request = Thrown e)
  /\ (forall config e, gi = Returned config ->
        fetch (sessions_request env config) = Thrown e ->
        token gi fetch env request = Thrown e)
  /\ (forall other : Server.request, token gi fetch env other = token gi fetch env request).
Proof.
  split; [|split; [|split]].
  - unfold token. split.
    + destruct gi as [config|e]; [|discriminate].
      destruct (fetch (sessions_request env config)) as [r|e] eqn:Hf; [|discriminate].
      destruct (up_body r) as [b|] eqn:Hb; [|discriminate].
      intros [= <-]. exists config, r, b. auto.
    + intros (config & r & b & -> & Hf & Hb & ->). rewrite Hf, Hb. reflexivity.
  - intros e ->. reflexivity.
  - intros config e -> Hf. unfold token. rewrite Hf. reflexivity.
  - reflexivity.
Qed.

End ServerMore.

(** ** The silence monitor *)
Module SilenceMore.
Import Silence.

Lemma Qltb_average sum (n : nat) :
  Qltb (inject_Z sum / inject_Z (Z.of_nat (S n))) SILENCE_THRESHOLD
  = (sum <? 10 * Z.of_nat (S n)).
Proof.
  unfold Qltb, Qle_bool, SILENCE_THRESHOLD, Qdiv, Qmult, Qinv, inject_Z.
  rewrite Nat2Z.inj_succ, <- Z.add_1_r.
  destruct (Z.of_nat n + 1) as [|p|p] eqn:Hp; try lia. simpl Qnum. simpl Qden.
  rewrite Pos.mul_1_l, !Z.mul_1_r.
  destruct (Z.leb_spec (10 * Z.pos p) sum), (Z.ltb_spec sum (10 * Z.pos p));
    simpl; try reflexivity; lia.
Qed.

(** X3.  The threshold in terms of the bytes: a frame is below the threshold
    exactly when its array is not empty and the sum of its bytes is less
    than ten times their number (1280 for the 128 bins of the analyser);
    it is at or above it exactly when the sum is at least that. *)
Theorem quiet_iff_sum (f : frame) :
  (quiet f <-> exists sum, reduce_add (dataArray f) = Some sum
                           /\ sum < 10 * Z.of_nat (length (dataArray f)))
  /\ (loud f <-> exists sum, reduce_add (dataArray f) = Some sum
                             /\ 10 * Z.of_nat (length (dataArray f)) <= sum).
Proof.
  unfold quiet, loud, average.
  destruct (dataArray f) as [|x rest]; simpl.
  - split; split; intros (? & H & _); discriminate.
  - set (sum := fold_left Z.add rest x).
    pose proof (Qltb_average sum (length rest)) as Hq.
    split; split.
    + intros (avg & [= <-] & Hlt). exists sum. split; [reflexivity|].
      rewrite Hq in Hlt. apply Z.ltb_lt in Hlt. exact Hlt.
    + intros (s & [= <-] & Hlt). eexists. split; [reflexivity|].
      rewrite Hq. apply Z.ltb_lt. exact Hlt.
    + intros (avg & [= <-] & Hlt). exists sum. split; [reflexivity|].
      rewrite Hq in Hlt. apply Z.ltb_ge in Hlt. exact Hlt.
    + intros (s & [= <-] & Hle). eexists. split; [reflexivity|].
      rewrite Hq. apply Z.ltb_ge. exact Hle.
Qed.

(** What a firing of the callback from a given state is owed to: either
    the silence the state has already timed, continued, or a later run of
    silence of the trace. *)
Lemma teardown_cause s trace fired seen :
  teardowns (run (Sampling s) trace fired seen) = S fired ->
  (exists start q last rest,
      s = Some start /\ start <> 0 /\ trace = q ++ last :: rest
      /\ Forall quiet q /\ quiet last /\ now last - start > SILENCE_DURATION)
  \/ (exists pre first q last rest,
        trace = pre ++ first :: q ++ last :: rest
        /\ quiet first /\ Forall quiet q /\ quiet last
        /\ now last - now first > SILENCE_DURATION).
Proof.
  revert s fired seen. induction trace as [|f trace IH]; intros s fired seen Hfire.
  { simpl in Hfire. lia. }
  simpl in Hfire. unfold checkAudioLevel in Hfire.
  destruct (average (dataArray f)) as [avg|] eqn:Havg.
  2:{ rewrite SilenceProps.run_stopped in Hfire. simpl in Hfire. lia. }
  destruct (Qltb avg SILENCE_THRESHOLD) eqn:Hlt.
  - assert (Hq : quiet f) by (exists avg; auto).
    destruct (unset s) eqn:Hunset.
    + destruct (IH _ _ _ Hfire)
        as [(start & q & l & rest & [= <-] & Hne & -> & Hqs & Hl & Hgt)
           |(pre & first & q & l & rest & -> & H1 & H2 & H3 & H4)].
      * right. exists [], f, q, l, rest. simpl. auto.
      * right. exists (f :: pre), first, q, l, rest. simpl. auto.
    + destruct s as [start|]; [|discriminate]. simpl in Hunset, Hfire.
      apply Z.eqb_neq in Hunset.
      destruct (Z.gtb_spec (now f - start) SILENCE_DURATION) as [Hgt|Hle].
      * left. exists start, [], f, trace. simpl. repeat split; auto; lia.
      * destruct (IH _ _ _ Hfire)
          as [(start' & q & l & rest & [= <-] & Hne & -> & Hqs & Hl & Hgt)
             |(pre & first & q & l & rest & -> & H1 & H2 & H3 & H4)].
        -- left. exists start, (f :: q), l, rest. simpl. repeat split; auto.
        -- right. exists (f :: pre), first, q, l, rest. simpl. auto.
  - destruct (IH _ _ _ Hfire)
      as [(start & q & l & rest & Hs & _)
         |(pre & first & q & l & rest & -> & H1 & H2 & H3 & H4)]; [discriminate|].
    right. exists (f :: pre), first, q, l, rest. simpl. auto.
Qed.

(** X4.  The silence callback never fires without sustained silence: when it
    has fired, the trace holds two below-threshold samples more than
    2000 ms apart with nothing but below-threshold samples between
    them. *)
Theorem teardown_only_after_silence (trace : list frame) :
  teardowns (monitor_run trace) = 1%nat ->
  exists pre first q last rest,
    trace = pre ++ first :: q ++ last :: rest
    /\ quiet first /\ Forall quiet q /\ quiet last
    /\ now last - now first > SILENCE_DURATION.
Proof.
  intros Hfire. destruct (teardown_cause None trace 0 0 Hfire) as [H|H]; [|exact H].
  destruct H as (start & _ & _ & _ & Hs & _). discriminate.
Qed.

Lemma teardown_only_after_silence_witness :
  exists pre first q last rest,
    [level 500 255; level 1000 0; level 2000 0; level 3001 0; level 3017 0]
    = pre ++ first :: q ++ last :: rest
    /\ quiet first /\ Forall quiet q /\ quiet last
    /\ now last - now first > SILENCE_DURATION.
Proof.
  apply (teardown_only_after_silence
           [level 500 255; level 1000 0; level 2000 0; level 3001 0; level 3017 0]).
  vm_compute. reflexivity.
Defined.

End SilenceMore.

(** ** The chat page *)
Module ChatMore.
Import Chat.

(** *** The credential *)

Lemma client_secret_value_Some data v :
  client_secret_value data = Some v
  <-> exists client_secret,
        prop "client_secret" data = Some client_secret /\ client_secret <> JNull
        /\ prop "value" client_secret = Some v.
Proof.
  unfold client_secret_value.
  destruct (prop "client_secret" data) as [cs|]; [destruct cs|]; split;
    try discriminate;
    try (intros H; eexists; split; [reflexivity|]; split; [discriminate|exact H]);
    try (intros (cs' & [= <-] & Hne & H); first [exact H|contradiction]);
    intros (cs' & Hcs' & _); discriminate.
Qed.

Lemma credential_of_body r data :
  ok r = true -> json_body r = Some data -> data <> JNull ->
  credential r
  = match client_secret_value data with
    | Some value => if truthy value then inr value else inl "Invalid token response"
    | None => inl "Invalid token response"
    end.
Proof.
  intros Hok Hbody Hne. unfold credential. rewrite Hok, Hbody. simpl.
  destruct data; try reflexivity. contradiction.
Qed.

(** X5.  The token answer is accepted exactly when its status is a success and
    its body is a JSON value other than [null] whose [client_secret] is
    neither absent nor [null] and has a truthy [value]; that value, of
    whatever JSON type, is the credential. *)
Theorem credential_accepted_iff (r : token_response) (key : json) :
  credential r = inr key
  <-> ok r = true
      /\ exists data client_secret,
           json_body r = Some data /\ data <> JNull
           /\ prop "client_secret" data = Some client_secret /\ client_secret <> JNull
           /\ prop "value" client_secret = Some key /\ truthy key = true.
Proof.
  split.
  - intros H.
    assert (Hok : ok r = true).
    { unfold credential in H. destruct (ok r); [reflexivity|discriminate]. }
    split; [exact Hok|].
    destruct (json_body r) as [data|] eqn:Hbody.
    2:{ unfold credential in H. rewrite Hok, Hbody in H. discriminate. }
    assert (Hne : data <> JNull).
    { intros ->. unfold credential in H. rewrite Hok, Hbody in H. discriminate. }
    rewrite (credential_of_body r data Hok Hbody Hne) in H.
    destruct (client_secret_value data) as [v|] eqn:Hv; [|discriminate].
    destruct (truthy v) eqn:Ht; [|discriminate]. injection H as <-.
    apply client_secret_value_Some in Hv. destruct Hv as (cs & Hcs & Hcsne & Hval).
    exists data, cs. auto 10.
  - intros (Hok & data & cs & Hbody & Hne & Hcs & Hcsne & Hval & Ht).
    rewrite (credential_of_body r data Hok Hbody Hne).
    rewrite (proj2 (client_secret_value_Some data key)) by (exists cs; auto).
    rewrite Ht. reflexivity.
Qed.

Lemma credential_accepted_iff_witness :
  ok {| ok := true;
        json_body := Some (JObj {[ "client_secret" := JObj {[ "value" := JNum 7 ]} ]}) |} = true
  /\ exists data client_secret,
       Some (JObj {[ "client_secret" := JObj {[ "value" := JNum 7 ]} ]}) = Some data
       /\ data <> JNull
       /\ prop "client_secret" data = Some client_secret /\ client_secret <> JNull
       /\ prop "value" client_secret = Some (JNum 7) /\ truthy (JNum 7) = true.
Proof.
  apply (proj1 (credential_accepted_iff
                  {| ok := true;
                     json_body := Some (JObj {[ "client_secret" :=
                                                  JObj {[ "value" := JNum 7 ]} ]}) |}
                  (JNum 7))).
  vm_compute. reflexivity.
Defined.

(** *** Rendering while no event has arrived *)

Lemma with_control_same s :
  with_control (isSessionActive s) (functionAdded s) (functionCallOutput s) s = s.
Proof. destruct s; reflexivity. Qed.

Lemma with_control_twice st fa fo st' fa' fo' s :
  with_control st' fa' fo' (with_control st fa fo s) = with_control st' fa' fo' s.
Proof. destruct s; reflexivity. Qed.

Lemma with_control_fields st fa fo s :
  isSessionActive (with_control st fa fo s) = st
  /\ functionAdded (with_control st fa fo s) = fa
  /\ events (with_control st fa fo s) = events s
  /\ mounted (with_control st fa fo s) = mounted s.
Proof. destruct s; repeat split. Qed.

Lemma setter_with_control s :
  (forall v, exists st fa fo, setIsSessionActive v s = with_control st fa fo s)
  /\ (forall v, exists st fa fo, setFunctionAdded v s = with_control st fa fo s)
  /\ (forall v, exists st fa fo, setFunctionCallOutput v s = with_control st fa fo s).
Proof.
  unfold setIsSessionActive, setFunctionAdded, setFunctionCallOutput.
  split_and!; intros v; destruct (mounted s);
    try (exists (isSessionActive s), (functionAdded s), (functionCallOutput s);
         symmetry; apply with_control_same).
  - exists v, (functionAdded s), (functionCallOutput s). destruct s; reflexivity.
  - exists (isSessionActive s), v, (functionCallOutput s). destruct s; reflexivity.
  - exists (isSessionActive s), (functionAdded s), v. destruct s; reflexivity.
Qed.

(** With an empty event log a commit sets at most the status, the flag
    and the recorded output. *)
Lemma commit_no_events now d s :
  events s = [] -> exists st fa fo, commit now d s = with_control st fa fo s.
Proof.
  intros Hev. unfold commit.
  assert (H1 : forall b : bool, exists st fa fo,
               (if b then effect_connected s s else s) = with_control st fa fo s).
  { intros b. destruct b.
    - unfold effect_connected. case_match.
      + apply (proj1 (setter_with_control s)).
      + do 3 eexists. symmetry. apply with_control_same.
    - do 3 eexists. symmetry. apply with_control_same. }
  destruct (H1 (d_added d || d_status d)) as (st1 & fa1 & fo1 & ->).
  assert (H2 : effect_choreography now s (with_control st1 fa1 fo1 s)
               = with_control st1 fa1 fo1 s).
  { unfold effect_choreography. rewrite Hev. reflexivity. }
  assert (H3 : exists st fa fo,
               (if d_events d || d_added d || d_channel d
                then effect_choreography now s (with_control st1 fa1 fo1 s)
                else with_control st1 fa1 fo1 s) = with_control st fa fo s).
  { rewrite H2. exists st1, fa1, fo1. destruct (_ || _); reflexivity. }
  destruct H3 as (st2 & fa2 & fo2 & ->).
  destruct (d_status d); [|eauto].
  unfold effect_reset. case_match; [|eauto].
  destruct (proj1 (proj2 (setter_with_control (with_control st2 fa2 fo2 s))) false)
    as (st3 & fa3 & fo3 & ->).
  destruct (proj2 (proj2 (setter_with_control (with_control st3 fa3 fo3
                                                  (with_control st2 fa2 fo2 s)))) None)
    as (st4 & fa4 & fo4 & ->).
  rewrite !with_control_twice. eauto.
Qed.

Lemma rerender_no_events fuel now prev s :
  events s = [] -> exists st fa fo, rerender fuel now prev s = with_control st fa fo s.
Proof.
  revert prev s. induction fuel as [|fuel IH]; intros prev s Hev.
  { do 3 eexists. symmetry. apply with_control_same. }
  rewrite ChatProps.rerender_S. destruct (settled prev s).
  { do 3 eexists. symmetry. apply with_control_same. }
  destruct (commit_no_events now (changed prev s) s Hev) as (st & fa & fo & ->).
  destruct (IH s (with_control st fa fo s)) as (st' & fa' & fo' & ->).
  - rewrite (proj1 (proj2 (proj2 (with_control_fields st fa fo s)))). exact Hev.
  - rewrite with_control_twice. eauto.
Qed.

Lemma commit_control_status d created can raises c :
  c_status (commit_control d created can raises c) = c_status c
  \/ (c_status c = CONNECTING
      /\ c_status (commit_control d created can raises c) = CONNECTED).
Proof.
  unfold commit_control; simpl.
  destruct ((d_added d || d_status d) && c_added c); simpl; [|auto].
  destruct (c_status c); simpl; auto.
Qed.

(** Rendering never leaves a status for Disconnected. *)
Lemma rerender_not_disconnected fuel now prev s :
  isSessionActive s <> DISCONNECTED ->
  isSessionActive (rerender fuel now prev s) <> DISCONNECTED.
Proof.
  revert prev s. induction fuel as [|fuel IH]; intros prev s Hst; [exact Hst|].
  rewrite ChatProps.rerender_S. destruct (settled prev s) eqn:E; [exact Hst|].
  apply IH.
  change (isSessionActive (commit now (changed prev s) s))
    with (c_status (control_of (commit now (changed prev s) s))).
  rewrite (ChatProps.control_commit _ _ _ (ChatProps.settled_false _ _ E)).
  destruct (commit_control_status (changed prev s) (first_is_created s) (sendable s)
              (newest_raises s) (control_of s)) as [->|[_ ->]]; [exact Hst|discriminate].
Qed.

(** A handler that leaves the event log empty is followed by renders that
    set at most the status, the flag and the recorded output, and keep
    the status on its side of Disconnected. *)
Lemma dispatch_no_events now handler s :
  events (handler s) = [] ->
  exists st fa fo,
    dispatch now handler s = with_control st fa fo (handler s)
    /\ (isSessionActive (handler s) = DISCONNECTED -> st = DISCONNECTED)
    /\ (isSessionActive (handler s) <> DISCONNECTED -> st <> DISCONNECTED).
Proof.
  intros Hev. unfold dispatch.
  destruct (rerender_no_events renders now s (handler s) Hev) as (st & fa & fo & Heq).
  exists st, fa, fo. split; [exact Heq|].
  pose proof (proj1 (with_control_fields st fa fo (handler s))) as Hst.
  rewrite <- Heq in Hst. split; intros H.
  - rewrite <- Hst. apply ChatProps.rerender_disconnected, H.
  - rewrite <- Hst. apply rerender_not_disconnected, H.
Qed.

(** *** Starting a session on a page no event has reached *)

(** Replace the innermost [dispatch] of the goal by the state its handler
    yields, up to the status, the flag and the recorded output. *)
Ltac settle_dispatch st H :=
  match goal with
  | |- context [dispatch ?now ?h ?x] =>
      lazymatch x with
      | context [dispatch _ _ _] => fail
      | _ =>
          let fa := fresh "fa" in
          let fo := fresh "fo" in
          let E := fresh "E" in
          destruct (dispatch_no_events now h x) as (st & fa & fo & E & H);
          [reflexivity|rewrite E; clear E]
      end
  end.

(** Settle every [dispatch] of the goal, innermost first, keeping what is
    known of the status each leaves. *)
Ltac settle_dispatches :=
  repeat (cbv zeta; cbn [negb];
          match goal with
          | |- context [dispatch ?now ?h ?x] =>
              lazymatch x with
              | context [dispatch _ _ _] => fail
              | _ =>
                  let st := fresh "st" in
                  let fa := fresh "fa" in
                  let fo := fresh "fo" in
                  let E := fresh "E" in
                  let Hd := fresh "Hd" in
                  let Hn := fresh "Hn" in
                  destruct (dispatch_no_events now h x) as (st & fa & fo & E & Hd & Hn);
                  [reflexivity|rewrite E; clear E]
              end
          end).

(** Use what is known of the statuses. *)
Ltac settle_statuses :=
  repeat match goal with
         | H : _ = DISCONNECTED -> ?st = DISCONNECTED |- _ =>
             first [specialize (H eq_refl); subst st|clear H]
         end.

Lemma startSession_when_succeeds now env s key :
  mounted s = true -> events s = [] -> succeeds env key ->
  let s' := startSession now env s in
  let pc := length (peers s) in
  let dc := length (channels s) in
  let id := length (intervals s) in
  isSessionActive s' <> DISCONNECTED
  /\ peerConnection s' = Some pc /\ peers s' = peers s ++ [live]
  /\ dataChannel s' = Some dc /\ channels s' = channels s ++ [connecting]
  /\ intervalRef s' = Some id /\ intervals s' = intervals s ++ [live]
  /\ log s' = log s ++ [fetch "/token" None; getUserMedia; new_RTCPeerConnection pc;
                        createDataChannel pc dc; fetch realtime_url (Some key);
                        setInterval id]
  /\ events s' = [] /\ mounted s' = true
  /\ localStorage s' = localStorage s /\ timeouts s' = timeouts s.
Proof.
  intros Hm Hev (r & sdp & text & Htok & Hcred & Hmic & Hoff & Hans & Hrem).
  destruct s as [st evs dch fa fo sp mo pcr ir ls chs ps ivs tos lg].
  simpl in Hm, Hev. subst mo evs. cbv zeta.
  unfold startSession, negotiate.
  settle_dispatch st1 H1.
  rewrite Htok, Hcred, Hmic. cbv zeta. cbn [negb].
  settle_dispatch st2 H2.
  rewrite Hoff, Hans, Hrem.
  destruct H1 as [_ H1], H2 as [_ H2].
  assert (Hst2 : st2 <> DISCONNECTED) by (apply H2, H1; discriminate).
  unfold with_control, record, setDataChannel, setIsSessionActive; simpl.
  repeat rewrite <- List.app_assoc. simpl.
  split_and!; try reflexivity. exact Hst2.
Qed.

(** X6.  When every step goes well, [startSession] on a mounted page that no
    event has reached makes its calls in the order token, microphone,
    connection, channel, offer (with the credential of the token answer as
    bearer), interval; it ends holding the new connection, the new channel
    (not open yet) and the new interval, not Disconnected, and with the
    cache, the timers and the event log untouched. *)
Theorem start_succeeds (now : Z) (env : environment) (s : chat) (key : json) :
  mounted s = true -> events s = [] -> succeeds env key ->
  let s' := startSession now env s in
  let pc := length (peers s) in
  let dc := length (channels s) in
  let id := length (intervals s) in
  isSessionActive s' <> DISCONNECTED
  /\ peerConnection s' = Some pc /\ peers s' = peers s ++ [live]
  /\ dataChannel s' = Some dc /\ channels s' = channels s ++ [connecting]
  /\ intervalRef s' = Some id /\ intervals s' = intervals s ++ [live]
  /\ log s' = log s ++ [fetch "/token" None; getUserMedia; new_RTCPeerConnection pc;
                        createDataChannel pc dc; fetch realtime_url (Some key);
                        setInterval id]
  /\ events s' = [] /\ mounted s' = true
  /\ localStorage s' = localStorage s /\ timeouts s' = timeouts s.
Proof. apply startSession_when_succeeds. Qed.

Lemma start_succeeds_witness :
  let s' := startSession 0 good_environment initial in
  isSessionActive s' <> DISCONNECTED
  /\ peerConnection s' = Some 0%nat /\ dataChannel s' = Some 0%nat
  /\ intervalRef s' = Some 0%nat
  /\ log s' = [fetch "/token" None; getUserMedia; new_RTCPeerConnection 0;
               createDataChannel 0 0; fetch realtime_url (Some (JStr "ek_test"));
               setInterval 0].
Proof.
  cbv zeta.
  destruct (start_succeeds 0 good_environment initial (JStr "ek_test"))
    as (H1 & H2 & _ & H4 & _ & H6 & _ & H8 & _).
  - reflexivity.
  - reflexivity.
  - eexists _, _, _. split_and!; reflexivity.
  - split_and!; assumption.
Defined.

(** Each way [startSession] can fail: the status, the alert, and what was
    created on the way. *)
Lemma startSession_when_fails now env s :
  mounted s = true -> events s = [] ->
  (exists key, succeeds env key)
  \/ (let s' := startSession now env s in
      isSessionActive s' = DISCONNECTED
      /\ count is_alert (log s') = S (count is_alert (log s))
      /\ peerConnection s' = peerConnection s
      /\ intervals s' = intervals s /\ intervalRef s' = intervalRef s
      /\ events s' = [] /\ mounted s' = true
      /\ (negotiation_fails env ->
          peers s' = peers s ++ [live]
          /\ dataChannel s' = Some (length (channels s))
          /\ channels s' = channels s ++ [connecting])).
Proof.
  intros Hm Hev.
  destruct s as [st evs dch fa fo sp mo pcr ir ls chs ps ivs tos lg].
  simpl in Hm, Hev. subst mo evs.
  destruct env as [tf mic off ans rem].
  destruct tf as [r|];
    [destruct (credential r) as [message|key] eqn:Hcred;
     [|destruct mic;
       [destruct off as [sdp|];
        [destruct ans as [text|];
         [destruct rem;
          [left; exists key; exists r, sdp, text; split_and!;
           first [reflexivity|exact Hcred]|]|]|]|]]|];
    right; cbv zeta; unfold startSession, negotiate, fail;
    cbn [token_fetch microphone offer answer remote_accepted];
    try rewrite Hcred; settle_dispatches; settle_statuses;
    unfold with_control, record, on_error, setDataChannel, setIsSessionActive; simpl;
    rewrite <- ?List.app_assoc, ?ChatProps.count_app; unfold count; simpl;
    (split_and!; try reflexivity; try lia;
     intros ((r' & key' & Hr & Hk) & Hmic' & Hneg); simpl in *;
     try discriminate; try (injection Hr as <-; congruence);
     try (destruct Hneg as [?|[?|?]]; discriminate);
     split_and!; reflexivity).
Qed.

(** X7.  No failure leaves the session Connecting: on a mounted page that no
    event has reached, [startSession] either goes through, ending not
    Disconnected without an alert, or ends Disconnected with exactly one
    alert shown, the ref of the connection and the intervals as they
    were. *)
Theorem start_ends_defined (now : Z) (env : environment) (s : chat) :
  mounted s = true -> events s = [] ->
  let s' := startSession now env s in
  ((exists key, succeeds env key)
   /\ isSessionActive s' <> DISCONNECTED
   /\ count is_alert (log s') = count is_alert (log s))
  \/ ((forall key, ~ succeeds env key)
      /\ isSessionActive s' = DISCONNECTED
      /\ count is_alert (log s') = S (count is_alert (log s))
      /\ peerConnection s' = peerConnection s
      /\ intervals s' = intervals s /\ intervalRef s' = intervalRef s).
Proof.
  intros Hm Hev. cbv zeta.
  destruct (startSession_when_fails now env s Hm Hev) as [[key Hkey]|Hfail].
  - left. split; [exists key; exact Hkey|].
    destruct (startSession_when_succeeds now env s key Hm Hev Hkey)
      as (H1 & _ & _ & _ & _ & _ & _ & H8 & _).
    split; [exact H1|]. rewrite H8, ChatProps.count_app. unfold count; simpl. lia.
  - right. cbv zeta in Hfail. destruct Hfail as (H1 & H2 & H3 & H4 & H5 & _).
    split_and!; try assumption.
    intros key Hkey.
    destruct (startSession_when_succeeds now env s key Hm Hev Hkey) as (Hne & _).
    contradiction.
Qed.

Lemma start_ends_defined_witness :
  isSessionActive (startSession 0 microphone_refused initial) = DISCONNECTED
  /\ count is_alert (log (startSession 0 microphone_refused initial)) = 1%nat.
Proof.
  destruct (start_ends_defined 0 microphone_refused initial eq_refl eq_refl)
    as [(_ & Hne & _)|(_ & H1 & H2 & _)].
  - exfalso. apply Hne. vm_compute. reflexivity.
  - split; [exact H1|exact H2].
Defined.

(** *** Stopping, whatever channel the closure holds *)

Lemma stopSession_any channel s :
  mounted s = true ->
  let s1 := stopSession channel s in
  control_of s1
  = {| c_status := DISCONNECTED; c_added := functionAdded s; c_mounted := true |}
  /\ dataChannel s1 = None /\ peerConnection s1 = None
  /\ events s1 = events s /\ timeouts s1 = timeouts s
  /\ intervals s1 = intervals s /\ intervalRef s1 = intervalRef s
  /\ localStorage s1 = localStorage s
  /\ channels s1 = match channel with
                   | Some dc => <[dc := closed]> (channels s)
                   | None => channels s
                   end
  /\ peers s1 = match peerConnection s with
                | Some pc => <[pc := gone]> (peers s)
                | None => peers s
                end
  /\ exists closes, log s1 = log s ++ closes
                    /\ forallb (fun c => negb (is_registration c)) closes = true.
Proof.
  intros Hm. destruct s as [st evs dch fa fo sp mo [pc|] ir ls chs ps ivs tos lg];
    destruct channel as [dc|]; simpl in *; subst mo; split_and!; try reflexivity.
  - exists [close_channel dc; close_peer pc]. simpl. rewrite <- List.app_assoc.
    split; reflexivity.
  - exists [close_peer pc]. split; reflexivity.
  - exists [close_channel dc]. split; reflexivity.
  - exists []. simpl. rewrite app_nil_r. split; reflexivity.
Qed.

(** The renders after a [stopSession]. *)
Lemma stopped_rendered now channel s :
  mounted s = true ->
  let s1 := stopSession channel s in
  let s' := dispatch now (stopSession channel) s in
  isSessionActive s' = DISCONNECTED /\ stable s' = stable s1
  /\ (newest_raises s = false -> mounted s' = true /\ intervals s' = intervals s).
Proof.
  intros Hm. cbv zeta. unfold dispatch.
  destruct (stopSession_any channel s Hm) as (Hc & Hd & Hp & He & Ht & Hi & Hr & _).
  set (s1 := stopSession channel s) in *.
  assert (Hm1 : mounted s1 = true) by (apply (f_equal c_mounted) in Hc; exact Hc).
  assert (Hst1 : isSessionActive s1 = DISCONNECTED)
    by (apply (f_equal c_status) in Hc; exact Hc).
  assert (Hcan : sendable s1 = true) by (unfold sendable; rewrite Hd; reflexivity).
  split_and!.
  - apply ChatProps.rerender_disconnected, Hst1.
  - apply (ChatProps.after_rerender renders now s s1).
  - intros Hok.
    assert (Hok1 : newest_raises s1 = false)
      by (unfold newest_raises; rewrite He; exact Hok).
    destruct (ChatProps.rerender_sendable renders now s s1 Hcan Hok1 Hm1) as [Hm' Hi'].
    split; [exact Hm'|congruence].
Qed.

(** X8.  When the negotiation fails after the connection and the channel were
    created, [startSession] ends Disconnected with the connection it
    created still live but held by no ref, and with the channel that never
    opened in the state.  A [stop()] after that closes the channel but not
    the connection. *)
Theorem negotiation_failure_leaves_connection (now later : Z) (env : environment)
    (s : chat) :
  mounted s = true -> events s = [] -> peerConnection s = None ->
  negotiation_fails env ->
  let s' := startSession now env s in
  let pc := length (peers s) in
  let dc := length (channels s) in
  isSessionActive s' = DISCONNECTED
  /\ count is_alert (log s') = S (count is_alert (log s))
  /\ peerConnection s' = None /\ peers s' !! pc = Some live
  /\ dataChannel s' = Some dc /\ channel_state s' dc = connecting
  /\ dataChannel (stop later s') = None
  /\ channel_state (stop later s') dc = closed
  /\ peers (stop later s') !! pc = Some live.
Proof.
  intros Hm Hev Hpc Hneg. cbv zeta.
  destruct (startSession_when_fails now env s Hm Hev) as [[key Hkey]|Hfail].
  { destruct Hkey as (r & sdp & text & _ & _ & _ & Hoff & Hans & Hrem).
    destruct Hneg as (_ & _ & [H|[H|H]]); congruence. }
  cbv zeta in Hfail.
  destruct Hfail as (Hst & Hal & Hp & _ & _ & _ & Hm' & Hcreated).
  destruct (Hcreated Hneg) as (Hps & Hdc & Hchs).
  set (s' := startSession now env s) in *.
  assert (Hlive : peers s' !! length (peers s) = Some live)
    by (rewrite Hps; apply list_lookup_middle; reflexivity).
  assert (Hpc' : peerConnection s' = None) by congruence.
  destruct (ChatProps.stop_facts later s' Hm') as (_ & Hd'' & _ & Hclosed & _).
  destruct (stopped_rendered later (dataChannel s') s' Hm') as (_ & St & _).
  destruct (stopSession_any (dataChannel s') s' Hm')
    as (_ & _ & _ & _ & _ & _ & _ & _ & _ & Hps1 & _).
  split_and!; try assumption.
  - unfold channel_state. rewrite Hchs, list_lookup_middle by reflexivity. reflexivity.
  - apply Hclosed, Hdc.
  - unfold stop. unfold stable in St.
    replace (peers (dispatch later (stopSession (dataChannel s')) s'))
      with (peers (stopSession (dataChannel s') s')) by congruence.
    rewrite Hps1, Hpc'. exact Hlive.
Qed.

Lemma negotiation_failure_leaves_connection_witness :
  let env := {| token_fetch := token_fetch good_environment; microphone := true;
                offer := Some "v=0 offer"; answer := None; remote_accepted := true |} in
  let s' := startSession 0 env initial in
  isSessionActive s' = DISCONNECTED
  /\ peerConnection s' = None /\ peers s' !! 0%nat = Some live
  /\ peers (stop 5 s') !! 0%nat = Some live.
Proof.
  intros env s'.
  destruct (negotiation_failure_leaves_connection 0 5 env initial)
    as (H1 & _ & H3 & H4 & _ & _ & _ & _ & H9).
  - reflexivity.
  - reflexivity.
  - reflexivity.
  - split; [|split; [reflexivity|right; left; reflexivity]].
    eexists _, _. split; [reflexivity|]. vm_compute. reflexivity.
  - split_and!; assumption.
Defined.

(** *** The channel opens *)

Lemma render_control_idle d can :
  render_control renders d false can false
    {| c_status := CONNECTING; c_added := false; c_mounted := true |}
  = ({| c_status := CONNECTING; c_added := false; c_mounted := true |}, 0%nat).
Proof. destruct d as [[] [] [] []], can; reflexivity. Qed.

(** X9.  When the channel the page holds opens and the registration flag is
    not set, the event log is emptied, the status is Connecting and stays
    so through the renders that follow, and nothing is sent, cached or
    scheduled: the session is one a first event can register on. *)
Theorem open_gives_fresh_session (now : Z) (dc : nat) (s : chat) :
  mounted s = true -> functionAdded s = false ->
  dataChannel s = Some dc -> (dc < length (channels s))%nat ->
  let s' := opened now dc s in
  fresh_session s'
  /\ log s' = log s /\ localStorage s' = localStorage s /\ timeouts s' = timeouts s.
Proof.
  intros Hm Hfa Hdc Hlt. cbv zeta. unfold opened.
  assert (Hopen : on_open dc s
                  = set_events [] (set_isSessionActive CONNECTING
                                     (set_channels (<[dc := open]> (channels s)) s))).
  { unfold on_open, setEvents, setIsSessionActive. destruct s; simpl in *. subst.
    reflexivity. }
  assert (Hev : events (on_open dc s) = []) by (rewrite Hopen; destruct s; reflexivity).
  destruct (dispatch_no_events now (on_open dc) s Hev) as (st & fa & fo & Heq & _).
  pose proof (ChatProps.rerender_control renders now s (on_open dc s)) as Hr.
  cbv zeta in Hr. destruct Hr as [Hctl _].
  assert (Hcr : first_is_created (on_open dc s) = false)
    by (unfold first_is_created; rewrite Hev; reflexivity).
  assert (Hnr : newest_raises (on_open dc s) = false)
    by (unfold newest_raises; rewrite Hev; reflexivity).
  assert (Hc1 : control_of (on_open dc s)
                = {| c_status := CONNECTING; c_added := false; c_mounted := true |}).
  { rewrite Hopen. destruct s; simpl in *. subst. reflexivity. }
  rewrite Hcr, Hnr, Hc1, render_control_idle in Hctl.
  fold (dispatch now (on_open dc) s) in Hctl.
  rewrite Heq in Hctl |- *.
  destruct (with_control_fields st fa fo (on_open dc s)) as (F1 & F2 & F3 & F4).
  assert (st = CONNECTING) as -> by (apply (f_equal c_status) in Hctl; simpl in Hctl; congruence).
  assert (fa = false) as -> by (apply (f_equal c_added) in Hctl; simpl in Hctl; congruence).
  rewrite Hopen. destruct s as [st0 evs dch fa0 fo0 sp mo pcr ir ls chs ps ivs tos lg].
  simpl in *. subst. split; [|split_and!; reflexivity].
  split_and!; try reflexivity. exists dc. split; [reflexivity|].
  unfold channel_state; simpl. rewrite list_lookup_insert_eq by exact Hlt. reflexivity.
Qed.

Lemma open_gives_fresh_session_witness :
  fresh_session (opened 10 0 (startSession 0 good_environment initial)).
Proof.
  apply (open_gives_fresh_session 10 0 (startSession 0 good_environment initial));
    vm_compute; first [reflexivity|lia].
Defined.

(** *** The status through the events of a session *)



Lemma until_crash_all arrivals :
  existsb (fun arrival => crash_batch arrival.2) arrivals = false ->
  until_crash arrivals = arrivals.
Proof.
  induction arrivals as [|a rest IH]; [reflexivity|]. simpl.
  intros H. apply orb_false_elim in H. destruct H as [Ha Hrest].
  rewrite Ha, (IH Hrest). reflexivity.
Qed.

(** X11.  The event log of a session holds the events that arrived since
    the channel opened, the newest first, up to and including the group
    whose render took the page down; what arrives after that is not
    logged.  On a page that is still up the log holds every event that
    arrived. *)
Theorem event_log_newest_first (s : chat) (arrivals : list (Z * list event)) :
  open_session s ->
  let s' := deliver_batches arrivals s in
  events s' = rev (concat (snd <$> until_crash arrivals))
  /\ (mounted s' = true -> events s' = rev (concat (snd <$> arrivals))).
Proof.
  intros Hs. cbv zeta.
  destruct (ChatProps.session_run arrivals s Hs) as (He & Hc & _).
  split; [exact He|]. intros Hm. rewrite He.
  apply (f_equal c_mounted) in Hc. simpl in Hc. rewrite Hm in Hc.
  rewrite until_crash_all; [reflexivity|].
  destruct (existsb _ arrivals); [discriminate|reflexivity].
Qed.

Lemma event_log_newest_first_witness :
  let review := response_done [function_call "review_current_weekly_plan" too_hard] in
  let broken := {| type := "response.done"; response := no_response |} in
  events (deliver_batches [(20, [session_created; broken]); (30, [review])] live_session)
  = [broken; session_created].
Proof.
  intros review broken.
  assert (Hopen : open_session live_session).
  { split_and!; try (vm_compute; reflexivity).
    exists 0%nat. split; vm_compute; reflexivity. }
  destruct (event_log_newest_first live_session
              [(20, [session_created; broken]); (30, [review])] Hopen) as [H _].
  rewrite H. reflexivity.
Defined.

(** *** Events the choreography has nothing to do for *)

Lemma handle_output_not_step now snap s o :
  is_step o = false -> handle_output now snap s o = (s, true).
Proof.
  unfold is_step, handle_output. intros H.
  apply orb_false_elim in H. destruct H as [H H3].
  apply orb_false_elim in H. destruct H as [H1 H2].
  rewrite H1, H2, H3. reflexivity.
Qed.

Lemma outputs_not_steps now snap outputs s :
  Forall (fun o => is_step o = false) outputs ->
  forEach (handle_output now snap) outputs s = (s, true).
Proof.
  intros H. revert s. induction H as [|o outputs Ho _ IH]; intros s; [reflexivity|].
  rewrite ChatProps.forEach_cons, (handle_output_not_step now snap s o Ho). apply IH.
Qed.

(** X12.  Once the tools are registered, a group of events whose newest is
    not a "response.done", or is one whose [response] has no output
    list, or one whose outputs are none of them a call of one of the three
    steps, is put on the event log and changes nothing else: nothing is
    sent, cached or scheduled, and the status stays. *)
Theorem unrelated_event_is_only_logged (now : Z) (older : list event) (newest : event)
    (s : chat) :
  mounted s = true -> functionAdded s = true -> unrelated newest ->
  deliver_batch now (older ++ [newest]) s
  = set_events (newest :: rev older ++ events s) s.
Proof.
  intros Hm Hfa He.
  assert (Hne : older ++ [newest] <> [])
    by (intros H; apply app_eq_nil in H; destruct H; discriminate).
  rewrite (ChatProps.deliver_batch_registered now _ s Hm Hfa Hne).
  assert (Hon : on_messages (older ++ [newest]) s
                = set_events (newest :: rev older ++ events s) s).
  { rewrite (ChatProps.on_messages_mounted _ s Hm), rev_unit. reflexivity. }
  rewrite Hon.
  set (s1 := set_events (newest :: rev older ++ events s) s).
  assert (He1 : events s1 = newest :: rev older ++ events s)
    by (subst s1; destruct s; reflexivity).
  unfold handle_most_recent. rewrite He1. simpl.
  destruct He as [Hty|[Hout|(outputs & Hout & Hall)]].
  - apply String.eqb_neq in Hty. rewrite Hty. reflexivity.
  - rewrite Hout. case_match; reflexivity.
  - rewrite Hout. case_match; [|reflexivity].
    rewrite (outputs_not_steps now s1 outputs s1 Hall). reflexivity.
Qed.

Lemma unrelated_event_is_only_logged_witness :
  let e := {| type := "response.audio_transcript.done"; response := no_response |} in
  deliver_batch 45 [session_created; e] adjusted_session
  = set_events (e :: session_created :: events adjusted_session) adjusted_session.
Proof.
  intros e. apply (unrelated_event_is_only_logged 45 [session_created] e adjusted_session).
  - vm_compute. reflexivity.
  - vm_compute. reflexivity.
  - left. discriminate.
Defined.

(** *** The cache *)

Lemma handle_most_recent_done now snap s outputs rest :
  events snap = response_done outputs :: rest ->
  handle_most_recent now snap s
  = let r := forEach (handle_output now snap) outputs s in
    if r.2 then r.1 else unmount r.1.
Proof.
  intros He. unfold handle_most_recent. rewrite He.
  cbn [head response_done type response].
  change (String.eqb "response.done" "response.done") with true. cbv iota zeta.
  destruct (forEach (handle_output now snap) outputs s) as [s1 []]; reflexivity.
Qed.

Lemma handle_most_recent_single now snap s o rest :
  events snap = response_done [o] :: rest ->
  handle_most_recent now snap s
  = if (handle_output now snap s o).2 then (handle_output now snap s o).1
    else unmount (handle_output now snap s o).1.
Proof.
  intros He. rewrite (handle_most_recent_done now snap s [o] rest He).
  rewrite ChatProps.forEach_cons. cbv zeta.
  destruct (handle_output now snap s o).2; reflexivity.
Qed.

(** X13.  A step writes its own cache key and no other: once the tools are
    registered, a "response.done" with one function call output leaves
    every key but the one of that function name as it was, and leaves the
    whole cache as it was when the name is none of the three. *)
Theorem step_writes_only_its_key (now : Z) (s : chat) (fn : string) (payload : json)
    (k : string) :
  mounted s = true -> functionAdded s = true ->
  step_key fn <> Some k ->
  readLast k (deliver now (response_done [function_call fn payload]) s) = readLast k s.
Proof.
  intros Hm Hfa Hk.
  change (deliver now (response_done [function_call fn payload]) s)
    with (deliver_batch now [response_done [function_call fn payload]] s).
  rewrite (ChatProps.deliver_batch_registered now _ s Hm Hfa) by discriminate.
  set (s1 := on_messages [response_done [function_call fn payload]] s).
  destruct (ChatProps.on_messages_facts [response_done [function_call fn payload]] s Hm)
    as (He1 & _ & _ & _ & _ & _ & Hls & _).
  fold s1 in He1, Hls.
  rewrite (handle_most_recent_single now s1 s1 _ _ He1).
  assert (Hread : readLast k (handle_output now s1 s1 (function_call fn payload)).1
                  = readLast k s).
  { unfold readLast, step_key in *. rewrite <- Hls.
    unfold handle_output.
    rewrite !ChatProps.is_call_function_call, ?ChatProps.arguments_function_call.
    destruct (String.eqb_spec fn "review_current_weekly_plan") as [->|_];
      [|destruct (String.eqb_spec fn "adjust_exercise_plan") as [->|_];
        [|destruct (String.eqb_spec fn "confirm_final_plan") as [->|_]]];
      cbn [String.eqb Ascii.eqb Bool.eqb negb fst snd];
      try destruct (is_null payload); cbn [negb fst snd];
      rewrite ?ChatProps.localStorage_schedule,
        ?ChatProps.localStorage_setFunctionCallOutput, ?ChatProps.localStorage_cache;
      try reflexivity;
      apply lookup_insert_ne; congruence. }
  destruct (handle_output now s1 s1 (function_call fn payload)).2; [exact Hread|].
  unfold readLast in *. rewrite ChatProps.localStorage_unmount. exact Hread.
Qed.

Lemma step_writes_only_its_key_witness :
  readLast "lastReviewPlan"
    (deliver 40 (response_done [function_call "adjust_exercise_plan" (JObj ∅)])
       reviewed_session)
  = readLast "lastReviewPlan" reviewed_session.
Proof.
  apply (step_writes_only_its_key 40 reviewed_session "adjust_exercise_plan" (JObj ∅)
           "lastReviewPlan"); vm_compute; first [reflexivity|discriminate].
Defined.

(** *** Follow-ups that fire *)

Lemma fire_state i s t :
  timeouts s !! i = Some t ->
  timeouts (fire i s) = delete i (timeouts s)
  /\ localStorage (fire i s) = localStorage s
  /\ control_of (fire i s) = control_of s
  /\ stable (fire i s) = stable s.
Proof.
  intros Ht. unfold fire. rewrite Ht. unfold try_send.
  destruct t as [dl [dc|] stp]; simpl;
    try destruct (bool_decide (channel_state (set_timeouts (delete i (timeouts s)) s) dc
                               = open));
    destruct stp; destruct s; split_and!; reflexivity.
Qed.

(** X14.  A follow-up fires once: it leaves the pending timers, the others stay.
    On an open channel it sends the instruction of its step, and the one
    of the last step then arms the silence monitor.  On a channel that is
    not open its send fails, and the one of the last step never arms the
    monitor: the call is then not ended by silence.  A follow-up that
    holds no channel sends nothing, and the one of the last step arms the
    monitor all the same.  The cache and the state variables are not
    touched. *)
Theorem followup_fires_once (i : nat) (s : chat) (t : timeout) :
  timeouts s !! i = Some t ->
  timeouts (fire i s) = delete i (timeouts s)
  /\ localStorage (fire i s) = localStorage s
  /\ control_of (fire i s) = control_of s
  /\ (forall dc, captured t = Some dc -> channel_state s dc = open ->
      log (fire i s)
      = log s ++ send dc (response_create (instructions_of (step t))) open
          :: (if bool_decide (step t = farewell_and_monitor)
              then [arm_monitor (Some dc)] else []))
  /\ (forall dc, captured t = Some dc -> channel_state s dc <> open ->
      count is_arm_monitor (log (fire i s)) = count is_arm_monitor (log s)
      /\ count is_failed_send (log (fire i s)) = S (count is_failed_send (log s)))
  /\ (captured t = None ->
      log (fire i s)
      = log s ++ (if bool_decide (step t = farewell_and_monitor)
                  then [arm_monitor None] else [])).
Proof.
  intros Ht. destruct (fire_state i s t Ht) as (H1 & H2 & H3 & _).
  split_and!; try assumption; cycle 2.
  { intros Hcap. rewrite (ChatProps.log_fire i s t Ht), Hcap.
    destruct (step t); reflexivity. }
  - intros dc Hcap Hopen. rewrite (ChatProps.log_fire i s t Ht), Hcap.
    unfold can_send. rewrite Hopen. simpl. destruct (step t); reflexivity.
  - intros dc Hcap Hclosed. rewrite (ChatProps.log_fire i s t Ht), Hcap.
    unfold can_send. rewrite bool_decide_eq_false_2 by exact Hclosed.
    rewrite !ChatProps.count_app.
    destruct (channel_state s dc); [| contradiction |];
      destruct (step t); unfold count; simpl; split; lia.
Qed.

Lemma followup_fires_once_witness :
  timeouts (fire 0 reviewed_session) = []
  /\ log (fire 0 reviewed_session)
     = log reviewed_session
         ++ [send 0 (response_create (instructions_of discuss_adjustment)) open].
Proof.
  destruct (followup_fires_once 0 reviewed_session
              {| delay := 500; captured := Some 0%nat; step := discuss_adjustment |})
    as (H1 & _ & _ & H4 & _).
  - vm_compute. reflexivity.
  - split.
    + rewrite H1. vm_compute. reflexivity.
    + apply (H4 0%nat); vm_compute; reflexivity.
Defined.

(** *** The registration flag across sessions *)

Lemma render_control_flagged d created can raises st (mo : bool) :
  st <> DISCONNECTED ->
  let r := render_control renders d created can raises
             {| c_status := st; c_added := true; c_mounted := mo |} in
  c_added r.1 = true /\ c_status r.1 <> DISCONNECTED
  /\ r.2 = 0%nat
  /\ (st = CONNECTED -> c_status r.1 = CONNECTED)
  /\ (mo = true -> d_status d = true \/ d_added d = true -> c_status r.1 = CONNECTED).
Proof.
  intros Hst. destruct st; [contradiction| |];
    destruct d as [[] [] [] []], created, can, raises, mo; cbn;
    split_and!; try reflexivity; try discriminate;
    try (intros _ [H|H]; first [reflexivity|discriminate]).
Qed.

(** While the flag is set and the status is not Disconnected, a handler
    and its renders send no registration and keep the flag; they show
    Connected when the handler left Connected, and on a page that is up
    as soon as the status changed. *)
Lemma dispatch_flagged now handler s :
  flagged (handler s) ->
  let s' := dispatch now handler s in
  flagged s'
  /\ count is_registration (log s') = count is_registration (log (handler s))
  /\ (isSessionActive (handler s) = CONNECTED
      \/ (mounted (handler s) = true
          /\ isSessionActive s <> isSessionActive (handler s)) ->
      isSessionActive s' = CONNECTED).
Proof.
  intros (Hfa & Hst). cbv zeta.
  pose proof (ChatProps.rerender_control renders now s (handler s)) as Hr.
  cbv zeta in Hr.
  assert (Hc : control_of (handler s)
               = {| c_status := isSessionActive (handler s); c_added := true;
                    c_mounted := mounted (handler s) |})
    by (unfold control_of; rewrite Hfa; reflexivity).
  rewrite Hc in Hr. destruct Hr as [Hctl Hcount].
  destruct (render_control_flagged (changed s (handler s)) (first_is_created (handler s))
              (sendable (handler s)) (newest_raises (handler s))
              (isSessionActive (handler s)) (mounted (handler s)) Hst)
    as (R1 & R2 & R3 & R4 & R5).
  fold (dispatch now handler s) in Hctl, Hcount.
  split_and!.
  - split.
    + change (functionAdded (dispatch now handler s))
        with (c_added (control_of (dispatch now handler s))).
      rewrite Hctl. exact R1.
    + change (isSessionActive (dispatch now handler s))
        with (c_status (control_of (dispatch now handler s))).
      rewrite Hctl. exact R2.
  - rewrite Hcount, R3. case_match; lia.
  - intros Hnow.
    change (isSessionActive (dispatch now handler s))
      with (c_status (control_of (dispatch now handler s))).
    rewrite Hctl. destruct Hnow as [H|[Hm H]]; [apply R4, H|apply (R5 Hm)].
    left. unfold changed; simpl. apply bool_decide_eq_true_2, H.
Qed.

Lemma render_control_stop d raises :
  d_status d = true -> d_added d = false ->
  let c := (render_control renders d true true raises
              {| c_status := DISCONNECTED; c_added := true; c_mounted := true |}).1 in
  c_added c = true /\ c_status c = DISCONNECTED.
Proof.
  destruct d as [[] [] [] []], raises; intros; try discriminate; split; reflexivity.
Qed.

(** X15.  [stopSession] leaves the registration flag set on a page that
    stays mounted.  On a registered session whose log begins with
    "session.created" the reset of the flag on Disconnected is undone in
    the next render, because the choreography effect runs again on the
    event log, which [stopSession] does not empty; the channel being gone
    by then, nothing is sent. *)
Theorem stop_keeps_flag (now : Z) (s : chat) :
  mounted s = true -> functionAdded s = true ->
  isSessionActive s <> DISCONNECTED -> first_is_created s = true ->
  let s' := stop now s in
  functionAdded s' = true /\ isSessionActive s' = DISCONNECTED
  /\ events s' = events s
  /\ count is_registration (log s') = count is_registration (log s).
Proof.
  intros Hm Hfa Hst Hcr. cbv zeta. unfold stop.
  destruct (stopSession_any (dataChannel s) s Hm)
    as (Hc & Hd & Hp & He & _ & _ & _ & _ & _ & _ & closes & Hl & Hcl).
  destruct (stopped_rendered now (dataChannel s) s Hm) as (Hst' & St & _).
  pose proof (ChatProps.rerender_control renders now s (stopSession (dataChannel s) s)) as Hr.
  cbv zeta in Hr. fold (dispatch now (stopSession (dataChannel s)) s) in Hr.
  set (s1 := stopSession (dataChannel s) s) in *.
  assert (Hcr1 : first_is_created s1 = true)
    by (unfold first_is_created; rewrite He; exact Hcr).
  assert (Hsd : sendable s1 = true) by (unfold sendable; rewrite Hd; reflexivity).
  assert (Hds : d_status (changed s s1) = true).
  { unfold changed; simpl. apply bool_decide_eq_true_2.
    apply (f_equal c_status) in Hc. simpl in Hc. congruence. }
  assert (Hda : d_added (changed s s1) = false).
  { unfold changed; simpl. apply (f_equal c_added) in Hc. simpl in Hc.
    rewrite Hc. destruct (functionAdded s); reflexivity. }
  rewrite Hc, Hfa, Hcr1, Hsd, Hd in Hr. destruct Hr as [Hctl Hcount].
  destruct (render_control_stop _ (newest_raises s1) Hds Hda) as [Hadded _].
  split_and!.
  - change (functionAdded (dispatch now (stopSession (dataChannel s)) s))
      with (c_added (control_of (dispatch now (stopSession (dataChannel s)) s))).
    rewrite Hctl. exact Hadded.
  - exact Hst'.
  - unfold stable in St. congruence.
  - rewrite Hcount. simpl. rewrite Hl, ChatProps.count_app, Nat.add_0_r.
    assert (Hz : count is_registration closes = 0%nat).
    { clear -Hcl. unfold count. induction closes as [|c cs IH]; simpl in *; [reflexivity|].
      apply andb_prop in Hcl. destruct Hcl as [Hc Hcs].
      destruct (is_registration c); [discriminate|]. apply IH, Hcs. }
    lia.
Qed.

Lemma stop_keeps_flag_witness :
  functionAdded (stop 60 reviewed_session) = true
  /\ isSessionActive (stop 60 reviewed_session) = DISCONNECTED.
Proof.
  destruct (stop_keeps_flag 60 reviewed_session) as (H1 & H2 & _).
  - vm_compute. reflexivity.
  - vm_compute. reflexivity.
  - vm_compute. discriminate.
  - vm_compute. reflexivity.
  - split; [exact H1|exact H2].
Defined.

Lemma shown_dispatch now handler s n :
  functionAdded (handler s) = true -> isSessionActive (handler s) <> DISCONNECTED ->
  count is_registration (log (handler s)) = n ->
  isSessionActive (handler s) = CONNECTED
  \/ (mounted (handler s) = true /\ isSessionActive s <> isSessionActive (handler s)) ->
  shown_connected n (dispatch now handler s).
Proof.
  intros Hfa Hnd Hn Hst.
  destruct (dispatch_flagged now handler s (conj Hfa Hnd)) as ((H1 & _) & H2 & H3).
  split_and!; [exact H1|apply H3, Hst|congruence].
Qed.

Lemma shown_record c s n :
  is_registration c = false -> shown_connected n s -> shown_connected n (record c s).
Proof.
  intros Hc (Hf & Hst & Hn).
  assert (E : log (record c s) = log s ++ [c]) by (destruct s; reflexivity).
  assert (F : functionAdded (record c s) = true /\ isSessionActive (record c s) = CONNECTED)
    by (destruct s; split; assumption).
  destruct F as [F1 F2]. split_and!; try assumption.
  rewrite E, ChatProps.count_app, Hn. unfold count. simpl. rewrite Hc. simpl. lia.
Qed.

Lemma shown_set_peers v s n : shown_connected n s -> shown_connected n (set_peers v s).
Proof. destruct s. exact id. Qed.

Lemma shown_set_channels v s n : shown_connected n s -> shown_connected n (set_channels v s).
Proof. destruct s. exact id. Qed.

Lemma shown_set_intervals v s n : shown_connected n s -> shown_connected n (set_intervals v s).
Proof. destruct s. exact id. Qed.

Lemma shown_set_intervalRef v s n :
  shown_connected n s -> shown_connected n (set_intervalRef v s).
Proof. destruct s. exact id. Qed.

Lemma shown_set_peerConnection v s n :
  shown_connected n s -> shown_connected n (set_peerConnection v s).
Proof. destruct s. exact id. Qed.

Lemma shown_setDataChannel now v s n :
  shown_connected n s -> shown_connected n (dispatch now (setDataChannel v) s).
Proof.
  intros (Hfa & Hst & Hn). unfold setDataChannel.
  apply shown_dispatch; destruct (mounted s); destruct s; simpl in *;
    first [assumption|congruence|left; assumption].
Qed.

Lemma shown_opened now dc s n : shown_connected n s -> shown_connected n (opened now dc s).
Proof.
  intros (Hfa & Hst & Hn). unfold opened.
  apply shown_dispatch; unfold on_open, setEvents, setIsSessionActive;
    destruct s as [st evs dch fa fo sp [] pcr ir ls chs ps ivs tos lg];
    simpl in *; subst; simpl;
    first [reflexivity|discriminate|assumption
          |right; split; [reflexivity|discriminate]|left; reflexivity].
Qed.

Lemma shown_deliver_all arrivals s n :
  shown_connected n s -> shown_connected n (deliver_all arrivals s).
Proof.
  revert s. induction arrivals as [|[now e] rest IH]; intros s Hs; simpl; [exact Hs|].
  apply IH. destruct Hs as (Hfa & Hst & Hn). unfold deliver.
  apply shown_dispatch; unfold on_message, setEvents;
    destruct (mounted s); destruct s; simpl in *;
    first [assumption|congruence|left; assumption].
Qed.

Lemma shown_started now env s key :
  mounted s = true -> functionAdded s = true -> isSessionActive s = DISCONNECTED ->
  succeeds env key ->
  shown_connected (count is_registration (log s)) (startSession now env s).
Proof.
  intros Hm Hfa Hst (r & sdp & text & Htok & Hcred & Hmic & Hoff & Hans & Hrem).
  unfold startSession, negotiate. cbv zeta.
  rewrite Htok, Hcred, Hmic, Hoff, Hans, Hrem. cbn [negb].
  apply shown_set_intervalRef, shown_record; [reflexivity|].
  apply shown_set_intervals, shown_set_peerConnection, shown_record; [reflexivity|].
  apply shown_setDataChannel.
  apply shown_record; [reflexivity|]. apply shown_set_channels.
  apply shown_record; [reflexivity|]. apply shown_set_peers.
  apply shown_record; [reflexivity|]. apply shown_record; [reflexivity|].
  apply shown_dispatch; unfold setIsSessionActive; rewrite Hm; destruct s; simpl in *.
  - assumption.
  - discriminate.
  - reflexivity.
  - right. split; [assumption|]. rewrite Hst. discriminate.
Qed.

(** X16.  A session started on a page whose flag is still set (as
    [stopSession] leaves it on a page that stays mounted) never registers
    the tools: the page shows Connected as soon as [startSession] has set
    Connecting, before any connection exists, and again once the channel
    opens and after every event, and no registration message is sent
    whatever arrives. *)
Theorem flagged_session_never_registers (now t : Z) (env : environment) (s : chat)
    (key : json) (dc : nat) (arrivals : list (Z * event)) :
  mounted s = true -> functionAdded s = true -> isSessionActive s = DISCONNECTED ->
  succeeds env key ->
  let s1 := startSession now env s in
  let s2 := opened t dc s1 in
  let s3 := deliver_all arrivals s2 in
  isSessionActive s1 = CONNECTED /\ isSessionActive s2 = CONNECTED
  /\ isSessionActive s3 = CONNECTED /\ functionAdded s3 = true
  /\ count is_registration (log s3) = count is_registration (log s).
Proof.
  intros Hm Hfa Hst Hok. cbv zeta.
  pose proof (shown_started now env s key Hm Hfa Hst Hok) as H1.
  pose proof (shown_opened t dc _ _ H1) as H2.
  pose proof (shown_deliver_all arrivals _ _ H2) as H3.
  destruct H1 as (_ & H1 & _), H2 as (_ & H2 & _), H3 as (Hfa3 & H3 & Hn).
  split_and!; assumption.
Qed.

Lemma flagged_session_never_registers_witness :
  let s := stop 60 reviewed_session in
  let s3 := deliver_all [(80, session_created)]
              (opened 70 1 (startSession 61 good_environment s)) in
  isSessionActive s3 = CONNECTED
  /\ count is_registration (log s3) = count is_registration (log s).
Proof.
  cbv zeta.
  destruct (flagged_session_never_registers 61 70 good_environment
              (stop 60 reviewed_session) (JStr "ek_test") 1 [(80, session_created)])
    as (_ & _ & H3 & _ & H5).
  - vm_compute. reflexivity.
  - vm_compute. reflexivity.
  - vm_compute. reflexivity.
  - eexists _, _, _. split_and!; reflexivity.
  - split; [exact H3|exact H5].
Defined.

(** *** Leaving the page *)

(** X17.  Leaving the page clears the interval the ref holds and nothing else:
    the other intervals, the channels, the connections, the pending
    follow-ups and the cache stay as they were; after it the interval
    callback and the arrival of an event change nothing. *)
Theorem unmount_clears_only_the_interval (s : chat) :
  let u := unmount s in
  mounted u = false
  /\ (forall id, intervalRef s = Some id ->
      intervals u !! id <> Some live
      /\ (forall j, j <> id -> intervals u !! j = intervals s !! j)
      /\ on_interval id u = u)
  /\ (intervalRef s = None -> intervals u = intervals s /\ log u = log s)
  /\ channels u = channels s /\ peers u = peers s
  /\ timeouts u = timeouts s /\ localStorage u = localStorage s
  /\ (forall j, on_interval j u = u)
  /\ (forall now e, deliver now e u = u).
Proof.
  cbv zeta.
  assert (Hm : mounted (unmount s) = false)
    by (unfold unmount; destruct s as [? ? ? ? ? ? ? ? [id|] ? ? ? ? ? ?]; reflexivity).
  assert (Hint : forall j, on_interval j (unmount s) = unmount s).
  { intros j. unfold on_interval, setSpeakingTime. rewrite Hm.
    destruct (intervals (unmount s) !! j) as [[]|]; reflexivity. }
  split_and!.
  - exact Hm.
  - intros id Hid. split_and!.
    + unfold unmount. rewrite Hid. destruct s; simpl.
      destruct (decide (id < length intervals0)%nat) as [Hlt|Hge].
      * rewrite list_lookup_insert_eq by exact Hlt. discriminate.
      * rewrite list_insert_ge by lia.
        rewrite lookup_ge_None_2 by lia. discriminate.
    + intros j Hj. unfold unmount. rewrite Hid. destruct s; simpl.
      apply list_lookup_insert_ne. congruence.
    + apply Hint.
  - intros Hnone. unfold unmount. rewrite Hnone. destruct s; split; reflexivity.
  - unfold unmount. destruct s as [? ? ? ? ? ? ? ? [id|] ? ? ? ? ? ?]; reflexivity.
  - unfold unmount. destruct s as [? ? ? ? ? ? ? ? [id|] ? ? ? ? ? ?]; reflexivity.
  - unfold unmount. destruct s as [? ? ? ? ? ? ? ? [id|] ? ? ? ? ? ?]; reflexivity.
  - unfold unmount. destruct s as [? ? ? ? ? ? ? ? [id|] ? ? ? ? ? ?]; reflexivity.
  - exact Hint.
  - intros now e. unfold deliver. apply ChatProps.dispatch_nothing.
    unfold on_message, setEvents. rewrite Hm. reflexivity.
Qed.

(** *** The end of the call by silence *)



(** *** Stopping with a call at the head of the event log *)

Lemma control_setFunctionAdded v s :
  mounted s = true ->
  control_of (setFunctionAdded v s)
  = {| c_status := isSessionActive s; c_added := v; c_mounted := true |}.
Proof.
  intros Hm. unfold setFunctionAdded. rewrite Hm. destruct s; simpl in *. subst.
  reflexivity.
Qed.

(** Handling a call of one of the three steps that does not throw: one
    write of the step's key, one follow-up on the channel of the render. *)
Lemma handle_step now fn payload key :
  step_key fn = Some key -> raises (function_call fn payload) = false ->
  exists stp, forall snap x,
    timeouts (handle_output now snap x (function_call fn payload)).1
    = timeouts x ++ [{| delay := 500; captured := dataChannel snap; step := stp |}]
    /\ count (is_write_of key) (log (handle_output now snap x (function_call fn payload)).1)
       = S (count (is_write_of key) (log x)).
Proof.
  intros Hk Hr.
  assert (Hs : exists stp, step_followup fn = Some stp).
  { unfold step_key in Hk. unfold step_followup.
    destruct (String.eqb fn "review_current_weekly_plan"); [eauto|].
    destruct (String.eqb fn "adjust_exercise_plan"); [eauto|].
    destruct (String.eqb fn "confirm_final_plan"); [eauto|discriminate]. }
  destruct Hs as [stp Hs]. exists stp. intros snap x.
  destruct (ChatProps.item_handled now snap x (function_call fn payload)) as [Hw Ht].
  specialize (Hw key). rewrite Hr in Hw, Ht. split.
  - rewrite Ht. unfold followup_of. cbn [function_call item_type name].
    change (String.eqb "function_call" "function_call") with true. cbv iota.
    rewrite Hs. reflexivity.
  - rewrite Hw. unfold is_step_of. cbn [function_call item_type name negb andb].
    change (String.eqb "function_call" "function_call") with true.
    rewrite (bool_decide_eq_true_2 _ Hk). cbn [andb]. lia.
Qed.

(** Handling a call that throws: nothing is written, nothing scheduled. *)
Lemma handle_raising now snap x o :
  raises o = true ->
  timeouts (handle_output now snap x o).1 = timeouts x
  /\ forall key, count (is_write_of key) (log (handle_output now snap x o).1)
                 = count (is_write_of key) (log x).
Proof.
  intros Hr. destruct (ChatProps.item_handled now snap x o) as [Hw Ht].
  rewrite Hr in Ht. split; [rewrite Ht; apply app_nil_r|].
  intros key. rewrite (Hw key), Hr. cbn [negb andb]. lia.
Qed.

Lemma handle_output_snap now snap snap' x o :
  dataChannel snap = dataChannel snap' ->
  handle_output now snap x o = handle_output now snap' x o.
Proof. intros H. unfold handle_output. rewrite H. reflexivity. Qed.

Lemma mounted_unmount s : mounted (unmount s) = false.
Proof. unfold unmount. destruct s as [? ? ? ? ? ? ? ? [id|] ? ? ? ? ? ?]; reflexivity. Qed.

Lemma choreography_registered now snap x o rest :
  functionAdded snap = true -> events snap = response_done [o] :: rest ->
  effect_choreography now snap x
  = if raises o then unmount (handle_output now snap x o).1
    else (handle_output now snap x o).1.
Proof.
  intros Hfa He. unfold effect_choreography. rewrite Hfa.
  destruct (last (events snap)) as [firstEvent|] eqn:El;
    [|apply last_None in El; rewrite He in El; discriminate].
  cbn [negb andb]. rewrite (handle_most_recent_single now snap x o rest He).
  rewrite ChatProps.returned_handle_output. destruct (raises o); reflexivity.
Qed.

Lemma choreography_unregistered now snap x o rest :
  functionAdded snap = false -> dataChannel snap = None ->
  events snap = response_done [o] :: rest -> raises o = false ->
  effect_choreography now snap x
  = (handle_output now snap (if first_is_created snap then setFunctionAdded true x else x)
       o).1.
Proof.
  intros Hfa Hd He Hr. unfold effect_choreography, first_is_created. rewrite Hfa, Hd.
  destruct (last (events snap)) as [firstEvent|] eqn:El;
    [|apply last_None in El; rewrite He in El; discriminate].
  cbn [negb andb].
  destruct (String.eqb (type firstEvent) "session.created"); cbn [try_send negb];
    rewrite (handle_most_recent_single now snap _ o rest He);
    rewrite ChatProps.returned_handle_output, Hr; reflexivity.
Qed.

Lemma commit_added now x :
  isSessionActive x = DISCONNECTED ->
  commit now {| d_status := false; d_events := false; d_channel := false; d_added := true |} x
  = effect_choreography now x x.
Proof.
  intros H. unfold commit, effect_connected. cbn [d_status d_events d_channel d_added orb].
  rewrite H. rewrite (bool_decide_eq_false_2 (DISCONNECTED = CONNECTING)) by discriminate.
  rewrite andb_false_r. reflexivity.
Qed.

Lemma rerender_added fuel now prev x (fa : bool) :
  control_of prev = {| c_status := DISCONNECTED; c_added := fa; c_mounted := true |} ->
  control_of x = {| c_status := DISCONNECTED; c_added := negb fa; c_mounted := true |} ->
  stable x = stable prev ->
  rerender (S fuel) now prev x = rerender fuel now x (effect_choreography now x x).
Proof.
  intros Hp Hx St. rewrite ChatProps.rerender_S.
  assert (Hch : changed prev x
                = {| d_status := false; d_events := false; d_channel := false;
                     d_added := true |})
    by (rewrite (ChatProps.changed_stable _ _ St), Hp, Hx; destruct fa; reflexivity).
  assert (Hgo : settled prev x = false).
  { unfold settled. rewrite Hch.
    change (mounted x) with (c_mounted (control_of x)). rewrite Hx. reflexivity. }
  rewrite Hgo, Hch, commit_added; [reflexivity|].
  change (isSessionActive x) with (c_status (control_of x)). rewrite Hx. reflexivity.
Qed.

Lemma rerender_same fuel now prev x :
  stable x = stable prev -> control_of x = control_of prev -> rerender fuel now prev x = x.
Proof. intros St Hc. apply ChatProps.rerender_settled, ChatProps.settled_same; assumption. Qed.

Lemma stable_reset x :
  stable (setFunctionCallOutput None (setFunctionAdded false x)) = stable x.
Proof.
  rewrite (proj1 (ChatProps.after_setFunctionCallOutput None (setFunctionAdded false x))).
  apply (proj1 (ChatProps.after_setFunctionAdded false x)).
Qed.

(** The renders after a stop with a call as the newest event, one by
    one. *)
Lemma stop_with_call now s dc o rest :
  mounted s = true -> functionAdded s = true -> isSessionActive s <> DISCONNECTED ->
  dataChannel s = Some dc -> events s = response_done [o] :: rest ->
  let s1 := stopSession (Some dc) s in
  let again x := (handle_output now s1 x o).1 in
  let s2 := setFunctionCallOutput None (setFunctionAdded false (again s1)) in
  stop now s
  = if raises o then unmount (again s1)
    else if first_is_created s then again (again (setFunctionAdded true s2))
    else again s2.
Proof.
  intros Hm Hfa Hst Hdc Hev. cbv zeta. unfold stop. rewrite Hdc. unfold dispatch, renders.
  destruct (stopSession_any (Some dc) s Hm) as (Hc1 & Hd1 & _ & He1 & _).
  set (s1 := stopSession (Some dc) s) in *. rewrite Hfa in Hc1. rewrite Hev in He1.
  assert (Hm1 : mounted s1 = true) by (apply (f_equal c_mounted) in Hc1; exact Hc1).
  assert (Hfa1 : functionAdded s1 = true) by (apply (f_equal c_added) in Hc1; exact Hc1).
  assert (Hst1 : isSessionActive s1 = DISCONNECTED)
    by (apply (f_equal c_status) in Hc1; exact Hc1).
  assert (Hch1 : changed s s1
                 = {| d_status := true; d_events := false; d_channel := true;
                      d_added := false |}).
  { unfold changed. rewrite Hst1, Hev, He1, Hdc, Hd1, Hfa, Hfa1, Nat.eqb_refl.
    f_equal; apply bool_decide_eq_true_2; first [exact Hst|discriminate]. }
  assert (Hgo : settled s s1 = false) by (unfold settled; rewrite Hch1, Hm1; reflexivity).
  rewrite ChatProps.rerender_S, Hgo, Hch1.
  (* the render that sees Disconnected and no channel *)
  set (x1 := (handle_output now s1 s1 o).1).
  assert (Hk1 : commit now {| d_status := true; d_events := false; d_channel := true;
                              d_added := false |} s1
                = setFunctionCallOutput None
                    (setFunctionAdded false (if raises o then unmount x1 else x1))).
  { unfold commit, effect_connected, effect_reset.
    cbn [d_status d_events d_channel d_added orb]. rewrite Hfa1, Hst1.
    rewrite (bool_decide_eq_false_2 (DISCONNECTED = CONNECTING)) by discriminate.
    rewrite (bool_decide_eq_true_2 (DISCONNECTED = DISCONNECTED)) by reflexivity.
    cbn [andb]. rewrite (choreography_registered now s1 s1 o rest Hfa1 He1). reflexivity. }
  rewrite Hk1. destruct (raises o) eqn:Hr.
  { (* the call throws: the page is gone, and rendering with it *)
    unfold setFunctionAdded at 1. rewrite mounted_unmount.
    unfold setFunctionCallOutput. rewrite mounted_unmount.
    apply ChatProps.rerender_settled. unfold settled. rewrite mounted_unmount. reflexivity. }
  assert (Hcx1 : control_of x1 = control_of s1) by apply ChatProps.control_handle_output.
  assert (Hsx1 : stable x1 = stable s1) by apply (ChatProps.after_handle_output now s1 s1 o).
  assert (Hmx1 : mounted x1 = true)
    by (apply (f_equal c_mounted) in Hcx1; simpl in Hcx1; congruence).
  assert (Hstx1 : isSessionActive x1 = DISCONNECTED)
    by (apply (f_equal c_status) in Hcx1; simpl in Hcx1; congruence).
  set (s2 := setFunctionCallOutput None (setFunctionAdded false x1)).
  assert (Hc2 : control_of s2
                = {| c_status := DISCONNECTED; c_added := false; c_mounted := true |}).
  { subst s2. rewrite ChatProps.control_setFunctionCallOutput,
      (control_setFunctionAdded false x1 Hmx1), Hstx1. reflexivity. }
  assert (Hs2 : stable s2 = stable s1) by (subst s2; rewrite stable_reset; exact Hsx1).
  assert (He2 : events s2 = response_done [o] :: rest)
    by (rewrite <- He1; unfold stable in Hs2; congruence).
  assert (Hd2 : dataChannel s2 = None) by (rewrite <- Hd1; unfold stable in Hs2; congruence).
  assert (Hm2 : mounted s2 = true) by (apply (f_equal c_mounted) in Hc2; exact Hc2).
  assert (Hfa2 : functionAdded s2 = false) by (apply (f_equal c_added) in Hc2; exact Hc2).
  rewrite (rerender_added 2 now s1 s2 true Hc1 Hc2 Hs2).
  rewrite (choreography_unregistered now s2 s2 o rest Hfa2 Hd2 He2 Hr).
  assert (Hcr : first_is_created s2 = first_is_created s)
    by (unfold first_is_created; rewrite He2, Hev; reflexivity).
  rewrite Hcr. rewrite (handle_output_snap now s2 s1) by congruence.
  destruct (first_is_created s).
  - (* the flag is set again, and that render handles the call once more *)
    set (s3 := (handle_output now s1 (setFunctionAdded true s2) o).1).
    assert (Hc3 : control_of s3
                  = {| c_status := DISCONNECTED; c_added := true; c_mounted := true |}).
    { subst s3. rewrite ChatProps.control_handle_output,
        (control_setFunctionAdded true s2 Hm2).
      apply (f_equal c_status) in Hc2. simpl in Hc2. rewrite Hc2. reflexivity. }
    assert (Hs3 : stable s3 = stable s2).
    { subst s3.
      rewrite (proj1 (ChatProps.after_handle_output now s1 (setFunctionAdded true s2) o)).
      apply (proj1 (ChatProps.after_setFunctionAdded true s2)). }
    assert (He3 : events s3 = response_done [o] :: rest)
      by (rewrite <- He2; unfold stable in Hs3; congruence).
    assert (Hd3 : dataChannel s3 = dataChannel s1)
      by (unfold stable in Hs3; congruence).
    assert (Hfa3 : functionAdded s3 = true) by (apply (f_equal c_added) in Hc3; exact Hc3).
    rewrite (rerender_added 1 now s2 s3 false Hc2 Hc3 Hs3).
    rewrite (choreography_registered now s3 s3 o rest Hfa3 He3), Hr.
    rewrite (handle_output_snap now s3 s1 s3 o Hd3).
    apply rerender_same.
    + apply (ChatProps.after_handle_output now s1 s3 o).
    + apply ChatProps.control_handle_output.
  - apply rerender_same.
    + apply (ChatProps.after_handle_output now s1 s2 o).
    + apply ChatProps.control_handle_output.
Qed.

Lemma stopSession_writes key channel s :
  count (is_write_of key) (log (stopSession channel s)) = count (is_write_of key) (log s).
Proof.
  destruct s as [st evs dch fa fo sp [] [pc|] ir ls chs ps ivs tos lg];
    destruct channel as [dc|]; simpl;
    repeat rewrite ChatProps.count_app; unfold count; simpl; lia.
Qed.

(** X19.  [stopSession] does not empty the event log, and the renders that
    follow it on a page that stays mounted run the choreography again on
    the log as it is: with the tools registered and a call of one of the
    three steps as the newest event, that call is handled again, twice,
    and a third time when the log begins with "session.created" (the
    render that sets the flag again).  Each time the step's Cached Result
    is rewritten and one more follow-up is scheduled; these follow-ups
    hold no channel, the channel being gone from the renders that
    schedule them.  The one call whose handling throws, an adjustment
    with [null] arguments, is not handled again: the first of these
    renders takes the page down before anything is written. *)
Theorem stop_handles_newest_call_again (now : Z) (s : chat) (dc : nat) (fn : string)
    (payload : json) (rest : list event) (key : string) :
  mounted s = true -> functionAdded s = true -> isSessionActive s <> DISCONNECTED ->
  dataChannel s = Some dc ->
  events s = response_done [function_call fn payload] :: rest ->
  step_key fn = Some key ->
  let n := if raises (function_call fn payload) then 0%nat
           else if first_is_created s then 3%nat else 2%nat in
  count (is_write_of key) (log (stop now s)) = (count (is_write_of key) (log s) + n)%nat
  /\ exists stp,
      timeouts (stop now s)
      = timeouts s ++ replicate n {| delay := 500; captured := None; step := stp |}.
Proof.
  intros Hm Hfa Hst Hdc Hev Hk. cbv zeta.
  rewrite (stop_with_call now s dc _ rest Hm Hfa Hst Hdc Hev). cbv zeta.
  destruct (stopSession_any (Some dc) s Hm) as (_ & Hd1 & _ & _ & Ht1 & _).
  pose proof (stopSession_writes key (Some dc) s) as Hw1.
  set (s1 := stopSession (Some dc) s) in *.
  set (o := function_call fn payload) in *.
  destruct (raises o) eqn:Hr.
  { destruct (handle_raising now s1 s1 o Hr) as [Ht Hw]. split.
    - rewrite ChatProps.writes_unmount, Hw, Hw1. lia.
    - exists discuss_adjustment.
      rewrite ChatProps.timeouts_unmount, Ht, Ht1. symmetry. apply app_nil_r. }
  destruct (handle_step now fn payload key Hk Hr) as (stp & Hh). fold o in Hh.
  assert (Hh' : forall x,
             timeouts (handle_output now s1 x o).1
             = timeouts x ++ [{| delay := 500; captured := None; step := stp |}]
             /\ count (is_write_of key) (log (handle_output now s1 x o).1)
                = S (count (is_write_of key) (log x)))
    by (intros x; rewrite <- Hd1; apply Hh).
  destruct (first_is_created s); split.
  - rewrite (proj2 (Hh' _)), (proj2 (Hh' _)), ChatProps.log_setFunctionAdded,
      ChatProps.log_setFunctionCallOutput, ChatProps.log_setFunctionAdded,
      (proj2 (Hh' _)), Hw1. lia.
  - exists stp.
    rewrite (proj1 (Hh' _)), (proj1 (Hh' _)), ChatProps.timeouts_setFunctionAdded,
      ChatProps.timeouts_setFunctionCallOutput, ChatProps.timeouts_setFunctionAdded,
      (proj1 (Hh' _)), Ht1.
    repeat rewrite <- List.app_assoc. reflexivity.
  - rewrite (proj2 (Hh' _)), ChatProps.log_setFunctionCallOutput,
      ChatProps.log_setFunctionAdded, (proj2 (Hh' _)), Hw1. lia.
  - exists stp.
    rewrite (proj1 (Hh' _)), ChatProps.timeouts_setFunctionCallOutput,
      ChatProps.timeouts_setFunctionAdded, (proj1 (Hh' _)), Ht1.
    repeat rewrite <- List.app_assoc. reflexivity.
Qed.

Lemma stop_handles_newest_call_again_witness :
  count (is_write_of "lastReviewPlan") (log reviewed_session) = 1%nat
  /\ count (is_write_of "lastReviewPlan") (log (stop 60 reviewed_session)) = 4%nat.
Proof.
  destruct (stop_handles_newest_call_again 60 reviewed_session 0
              "review_current_weekly_plan" too_hard [session_created] "lastReviewPlan")
    as [H _].
  - vm_compute. reflexivity.
  - vm_compute. reflexivity.
  - vm_compute. discriminate.
  - vm_compute. reflexivity.
  - vm_compute. reflexivity.
  - reflexivity.
  - split; [vm_compute; reflexivity|]. rewrite H. vm_compute. reflexivity.
Defined.

(** *** The tools and their handlers *)


(** *** The token route and the page *)

(** X21.  An answer of the token route always passes the page's status check:
    the page never reports "Failed to get token" for it, whatever the
    upstream status was, and an upstream error body, which has no
    [client_secret], is reported as "Invalid token response". *)
Theorem upstream_error_passes_status_check (gi : Server.outcome json)
    (fetch : Server.upstream_request -> Server.outcome Server.upstream_response)
    (env : gmap string string) (request : Server.request) (rep : Server.reply) :
  Server.token gi fetch env request = Server.Returned rep ->
  ok (answered rep) = true
  /\ credential (answered rep) <> inl "Failed to get token"
  /\ (client_secret_value (Server.body rep) = None -> Server.body rep <> JNull ->
      credential (answered rep) = inl "Invalid token response").
Proof.
  intros H. unfold Server.token in H.
  destruct gi as [config|e]; [|discriminate].
  destruct (fetch (Server.sessions_request env config)) as [r|e]; [|discriminate].
  destruct (Server.up_body r) as [b|]; [|discriminate].
  injection H as <-.
  assert (Hok : ok (answered {| Server.status := 200;
                                Server.content_type := "application/json";
                                Server.body := b |}) = true) by reflexivity.
  split_and!.
  - exact Hok.
  - unfold credential. rewrite Hok. simpl.
    destruct b; try discriminate;
      destruct (client_secret_value _) as [v|]; try discriminate;
      destruct (truthy v); discriminate.
  - simpl. intros Hnone Hne.
    rewrite (credential_of_body _ b Hok eq_refl Hne), Hnone. reflexivity.
Qed.

Lemma upstream_error_passes_status_check_witness :
  credential (answered {| Server.status := 200;
                          Server.content_type := "application/json";
                          Server.body := JObj {[ "error" := JStr "invalid_api_key" ]} |})
  = inl "Invalid token response".
Proof.
  destruct (upstream_error_passes_status_check
              (Server.Returned JNull)
              (fun _ => Server.Returned
                          {| Server.up_status := 401;
                             Server.up_body :=
                               Some (JObj {[ "error" := JStr "invalid_api_key" ]}) |})
              ∅ {| Server.req_headers := []; Server.req_query := [] |}
              {| Server.status := 200;
                 Server.content_type := "application/json";
                 Server.body := JObj {[ "error" := JStr "invalid_api_key" ]} |})
    as (_ & _ & H).
  - reflexivity.
  - apply H; [vm_compute; reflexivity|discriminate].
Defined.

(** *** The speaking-time interval *)

(** X22.  [startSession] clears no interval: one that was running before a
    successful start, the one the ref held included, is running after it,
    beside the new one the ref then holds; leaving the page afterwards
    clears the new one only, and the old one goes on counting on a page
    that stays. *)
Theorem earlier_interval_is_never_cleared (now : Z) (env : environment) (s : chat)
    (key : json) (id0 : nat) :
  mounted s = true -> events s = [] -> succeeds env key ->
  intervals s !! id0 = Some live ->
  let s' := startSession now env s in
  let id := length (intervals s) in
  intervalRef s' = Some id /\ id <> id0
  /\ intervals s' !! id0 = Some live /\ intervals s' !! id = Some live
  /\ intervals (unmount s') !! id0 = Some live
  /\ intervals (unmount s') !! id = Some gone
  /\ speakingTime (on_interval id0 s') = S (speakingTime s').
Proof.
  intros Hm Hev Hok Hlive. cbv zeta.
  destruct (startSession_when_succeeds now env s key Hm Hev Hok)
    as (_ & _ & _ & _ & _ & Href & Hint & _ & _ & Hm' & _).
  cbv zeta in Href, Hint.
  pose proof (lookup_lt_Some _ _ _ Hlive) as Hlt.
  assert (Hold : intervals (startSession now env s) !! id0 = Some live)
    by (rewrite Hint; apply lookup_app_l_Some, Hlive).
  assert (Hnew : intervals (startSession now env s) !! length (intervals s) = Some live)
    by (rewrite Hint; apply list_lookup_middle; reflexivity).
  set (s' := startSession now env s) in *.
  assert (Hun : intervals (unmount s') = <[length (intervals s) := gone]> (intervals s'))
    by (unfold unmount; rewrite Href; destruct s'; reflexivity).
  split_and!.
  - exact Href.
  - lia.
  - exact Hold.
  - exact Hnew.
  - rewrite Hun, list_lookup_insert_ne by lia. exact Hold.
  - rewrite Hun. apply list_lookup_insert_eq. rewrite Hint, length_app. simpl. lia.
  - unfold on_interval, setSpeakingTime. rewrite Hold, Hm'. destruct s'; reflexivity.
Qed.

Lemma earlier_interval_is_never_cleared_witness :
  let s' := startSession 100 good_environment (stop 60 live_session) in
  intervalRef s' = Some 1%nat /\ intervals (unmount s') !! 0%nat = Some live.
Proof.
  cbv zeta.
  destruct (earlier_interval_is_never_cleared 100 good_environment (stop 60 live_session)
              (JStr "ek_test") 0)
    as (H1 & _ & _ & _ & H5 & _).
  - vm_compute. reflexivity.
  - vm_compute. reflexivity.
  - eexists _, _, _. split_and!; reflexivity.
  - vm_compute. reflexivity.
  - split; [exact H1|exact H5].
Defined.

End ChatMore.
